(** * anotherr: error chains, their matching and their rendering

    A shallow embedding of the Go packages [errors], [errors/errbase],
    [errors/errutil] and [errors/withstack] of
    github.com/StevenACoffman/anotherr, and the properties of the chain
    walker and of the format engine that the specification states about
    them.

    The file has three parts: the model, one module per Go package, then
    the proofs of the properties that the specification states, and then
    further properties of the code: the printer, the rendering of simple
    chains, panics, the Khan constructors, message prefixes. *)

From stdpp Require Import gmap strings list.
From Stdlib Require Import ZArith Lia Init.Byte.
From Stdlib Require Strings.Byte Strings.String Numbers.DecimalString.

Set Warnings "-register-all".
Local Open Scope Z_scope.

(* ================================================================== *)
(** * Part I: the model *)
(* ================================================================== *)

(** ** Go values shared by the packages *)

(** A Go [string] and a Go [[]byte] are both sequences of bytes. *)
Definition bytes := list byte.

(** [B "text"] is the byte sequence of a literal. *)
Definition B (s : string) : bytes := String.list_byte_of_string s.

#[global] Instance byte_eq_decision : EqDecision byte := Byte.byte_eq_dec.

(** [uintptr]: a program counter. *)
Definition uintptr := Z.

(** The line feed, and a byte from an integer (its low eight bits). *)
Definition LF : byte := Byte.x0a.

Definition byteOfZ (z : Z) : byte :=
  default Byte.x00 (Byte.of_N (Z.to_N (z mod 256))).

(** [strconv.Itoa], also what the verb [%d] prints for an [int]. *)
Definition Itoa (z : Z) : bytes :=
  B (DecimalString.NilEmpty.string_of_int (Z.to_int z)).

(** A call either returns or panics. *)
Inductive outcome (A : Type) : Type :=
| Return (a : A)
| Panic (why : string).
Arguments Return {A} a.
Arguments Panic {A} why.

(** Sequencing stops at the first panic; [x ← m; k] is stdpp's notation
    for it. *)
#[global] Instance outcome_bind : MBind outcome := fun A C k m =>
  match m with
  | Return a => k a
  | Panic why => Panic why
  end.

(** [xs[i]]: indexing a slice out of its range panics. *)
Definition index {A : Type} (xs : list A) (i : nat) : outcome A :=
  match xs !! i with
  | Some x => Return x
  | None => Panic "index out of range"
  end.

(** [strings.HasSuffix]:
    [len(s) >= len(suffix) && s[len(s)-len(suffix):] == suffix]. *)
Definition HasSuffix (s suffix : bytes) : bool :=
  bool_decide (length suffix <= length s)%nat &&
  bool_decide (drop (length s - length suffix) s = suffix).

(** [strings.ReplaceAll] for a pattern of one byte. *)
Definition ReplaceAll (s : bytes) (old : byte) (new : bytes) : bytes :=
  flat_map (fun c => if bool_decide (c = old) then new else [c]) s.

(** [bytes.Buffer.WriteRune]: the UTF-8 encoding of a rune; a rune that is
    out of range or a surrogate half is written as U+FFFD. *)
Definition EncodeRune (r : Z) : bytes :=
  if bool_decide (0 <= r < 128) then [byteOfZ r]
  else if bool_decide (128 <= r <= 2047) then
    [byteOfZ (Z.lor 192 (Z.shiftr r 6)); byteOfZ (Z.lor 128 (Z.land r 63))]
  else if bool_decide (r < 0 \/ 1114111 < r \/ 55296 <= r <= 57343) then
    [byteOfZ 239; byteOfZ 191; byteOfZ 189]
  else if bool_decide (r <= 65535) then
    [byteOfZ (Z.lor 224 (Z.shiftr r 12));
     byteOfZ (Z.lor 128 (Z.land (Z.shiftr r 6) 63));
     byteOfZ (Z.lor 128 (Z.land r 63))]
  else
    [byteOfZ (Z.lor 240 (Z.shiftr r 18));
     byteOfZ (Z.lor 128 (Z.land (Z.shiftr r 12) 63));
     byteOfZ (Z.lor 128 (Z.land (Z.shiftr r 6) 63));
     byteOfZ (Z.lor 128 (Z.land r 63))].

(** The code point of a one-byte rune literal such as ['v']. *)
Definition rune (c : byte) : Z := Z.of_N (Byte.to_N c).

Module errbase.

(** [type StackFrame = pkgErr.Frame], a [uintptr]; [type StackTrace = []Frame].
    A slice is modelled by the list of its elements; slice indices and
    lengths are naturals. *)
Definition StackFrame := uintptr.
Definition StackTrace := list StackFrame.

(** The loop of [ElideSharedStackTraceSuffix]:
    [for i, j = len(newStack)-1, len(prevStack)-1; i > 0 && j > 0; i, j = i-1, j-1]
    with the [break] on the first pair of frames that differ.  The value is
    [i] when the loop is left.  Both indices stay within their slices, so
    the default of [nth] is never read. *)
Fixpoint skipCommonSuffix (newStack prevStack : StackTrace) (i j : nat) : nat :=
  match i, j with
  | S i', S j' =>
      if bool_decide (nth i newStack 0 = nth j prevStack 0)
      then skipCommonSuffix newStack prevStack i' j'
      else i
  | _, _ => i
  end.

(** [ElideSharedStackTraceSuffix], format_error.go. *)
Definition ElideSharedStackTraceSuffix (prevStack newStack : StackTrace)
  : StackTrace * bool :=
  if (length prevStack =? 0)%nat then (newStack, false)
  else if (length newStack =? 0)%nat then (newStack, false)
  else
    let i := skipCommonSuffix newStack prevStack
               (length newStack - 1) (length prevStack - 1) in
    (* Keep at least one entry. *)
    let i := if (i =? 0)%nat then 1%nat else i in
    (take i newStack, (i <? length newStack - 1)%nat).

(** What the documentation of [ElideSharedStackTraceSuffix] and the
    specification ask for, written from their words: the frames of
    [newStack] without the longest suffix it has in common with
    [prevStack], at least one frame being kept. *)
Fixpoint commonPrefixLen (a b : StackTrace) : nat :=
  match a, b with
  | x :: a', y :: b' => if bool_decide (x = y) then S (commonPrefixLen a' b') else 0%nat
  | _, _ => 0%nat
  end.

Definition sharedSuffixLen (prevStack newStack : StackTrace) : nat :=
  commonPrefixLen (rev newStack) (rev prevStack).

Definition elideSharedSuffix_spec (prevStack newStack : StackTrace) : StackTrace :=
  take (Nat.max 1 (length newStack - sharedSuffixLen prevStack newStack)) newStack.

(** The number of turns of the loop that end without a [break], read on
    the two traces from their oldest frame: a turn needs a frame besides
    the current one on both sides. *)
Fixpoint turns (a b : StackTrace) : nat :=
  match a, b with
  | x :: ((_ :: _) as a'), y :: ((_ :: _) as b') =>
      if bool_decide (x = y) then S (turns a' b') else 0%nat
  | _, _ => 0%nat
  end.

(** The number of frames of [newStack] missing from the returned trace. *)
Definition framesDropped (prevStack newStack : StackTrace) : nat :=
  (length newStack - length (ElideSharedStackTraceSuffix prevStack newStack).1)%nat.

(** ** Error values

    An [error] is an interface value; the engine sees it only through its
    methods and through [==].  A non-nil error is a record of what those
    give: [Error()], the cause that [Cause()] or [Unwrap()] returns, the
    name of its dynamic type ([reflect.TypeOf(err).String()], the verb
    [%T]), the trace [StackTrace()] returns when the error is a
    [StackTraceProvider], and [addr], what [==] compares (the address for
    the pointer types of this repository).  [nilTrace] says that the slice
    which [StackTrace()] returns is the nil slice, as opposed to a slice
    that is not nil and holds no frame; the providers of this repository
    and of github.com/pkg/errors build the slice with [make], so theirs
    is never nil.  The nil error is [None].
    Chains are finite, each link having at most one cause. *)
Inductive error : Type := mkError {
  addr : Z;
  TypeOf : bytes;
  Error : bytes;
  Cause : option error;
  StackTraceOf : option StackTrace;
  nilTrace : bool
}.

(** Modelled from the spec: [errbase.UnwrapOnce], whose file is not among
    the sources: "returns the immediate cause if the value implements
    wrapper, else absent". *)
Definition UnwrapOnce (err : option error) : option error :=
  match err with
  | Some e => Cause e
  | None => None
  end.

(** The links of a chain, outermost first. *)
Fixpoint links (e : error) : list error :=
  e :: match UnwrapOnce (Some e) with
       | Some c => links c
       | None => []
       end.

(** ** The render state *)

(** [fmt.State], the caller's side of a [Format] call: its flags, width
    and precision, and the bytes written to it so far. *)
Record fmtState : Type := mkFmtState {
  Flag : Z -> bool;
  Width : Z * bool;
  Precision : Z * bool;
  written : bytes
}.

Definition fmtWrite (f : fmtState) (b : bytes) : fmtState :=
  {| Flag := Flag f; Width := Width f; Precision := Precision f;
     written := written f ++ b |}.

(** [formatEntry].  [stackTrace] is [None] for the nil slice. *)
Record formatEntry : Type := mkEntry {
  err : option error;
  head : bytes;
  details : bytes;
  stackTrace : option StackTrace;
  elideShort : bool;
  elidedStackTrace : bool
}.

Definition setElideShort (e : formatEntry) : formatEntry :=
  {| err := err e; head := head e; details := details e;
     stackTrace := stackTrace e; elideShort := true;
     elidedStackTrace := elidedStackTrace e |}.

(** [state].  A [bytes.Buffer] is modelled by its contents. *)
Record state : Type := mkState {
  State : fmtState;
  entries : list formatEntry;
  headBuf : bytes;
  lastStack : StackTrace;
  finalBuf : bytes;
  buf : bytes;
  needNewline : Z;
  hasDetail : bool;
  collectingRedactableString : bool;
  notEmpty : bool;
  needSpace : bool;
  wantDetail : bool;
  multiLine : bool
}.

(** [state{State: s}] *)
Definition newState (f : fmtState) : state :=
  {| State := f; entries := []; headBuf := []; lastStack := [];
     finalBuf := []; buf := []; needNewline := 0; hasDetail := false;
     collectingRedactableString := false; notEmpty := false;
     needSpace := false; wantDetail := false; multiLine := false |}.

Definition withState (f : fmtState) (s : state) : state :=
  {| State := f; entries := entries s; headBuf := headBuf s;
     lastStack := lastStack s; finalBuf := finalBuf s; buf := buf s;
     needNewline := needNewline s; hasDetail := hasDetail s;
     collectingRedactableString := collectingRedactableString s;
     notEmpty := notEmpty s; needSpace := needSpace s;
     wantDetail := wantDetail s; multiLine := multiLine s |}.

Definition withEntries (es : list formatEntry) (s : state) : state :=
  {| State := State s; entries := es; headBuf := headBuf s;
     lastStack := lastStack s; finalBuf := finalBuf s; buf := buf s;
     needNewline := needNewline s; hasDetail := hasDetail s;
     collectingRedactableString := collectingRedactableString s;
     notEmpty := notEmpty s; needSpace := needSpace s;
     wantDetail := wantDetail s; multiLine := multiLine s |}.

Definition withLastStack (st : StackTrace) (s : state) : state :=
  {| State := State s; entries := entries s; headBuf := headBuf s;
     lastStack := st; finalBuf := finalBuf s; buf := buf s;
     needNewline := needNewline s; hasDetail := hasDetail s;
     collectingRedactableString := collectingRedactableString s;
     notEmpty := notEmpty s; needSpace := needSpace s;
     wantDetail := wantDetail s; multiLine := multiLine s |}.

Definition withFinalBuf (b : bytes) (s : state) : state :=
  {| State := State s; entries := entries s; headBuf := headBuf s;
     lastStack := lastStack s; finalBuf := b; buf := buf s;
     needNewline := needNewline s; hasDetail := hasDetail s;
     collectingRedactableString := collectingRedactableString s;
     notEmpty := notEmpty s; needSpace := needSpace s;
     wantDetail := wantDetail s; multiLine := multiLine s |}.

Definition withBuf (b : bytes) (s : state) : state :=
  {| State := State s; entries := entries s; headBuf := headBuf s;
     lastStack := lastStack s; finalBuf := finalBuf s; buf := b;
     needNewline := needNewline s; hasDetail := hasDetail s;
     collectingRedactableString := collectingRedactableString s;
     notEmpty := notEmpty s; needSpace := needSpace s;
     wantDetail := wantDetail s; multiLine := multiLine s |}.

(** The flags that [Write], [detail] and [switchOver] move together. *)
Definition withFlags (nn : Z) (space multi nonEmpty : bool) (s : state) : state :=
  {| State := State s; entries := entries s; headBuf := headBuf s;
     lastStack := lastStack s; finalBuf := finalBuf s; buf := buf s;
     needNewline := nn; hasDetail := hasDetail s;
     collectingRedactableString := collectingRedactableString s;
     notEmpty := nonEmpty; needSpace := space;
     wantDetail := wantDetail s; multiLine := multi |}.

(** [s.finalBuf.Write], [WriteString], [WriteByte] and [s.buf.Write]. *)
Definition finalBufWrite (b : bytes) (s : state) : state :=
  withFinalBuf (finalBuf s ++ b) s.

Definition bufWrite (b : bytes) (s : state) : state :=
  withBuf (buf s ++ b) s.

Definition detailSep : bytes := LF :: B "  | ".

(** [switchOver] *)
Definition switchOver (p : state) : state :=
  if hasDetail p then p
  else
    {| State := State p; entries := entries p; headBuf := buf p;
       lastStack := lastStack p; finalBuf := finalBuf p; buf := [];
       needNewline := needNewline p; hasDetail := true;
       collectingRedactableString := collectingRedactableString p;
       notEmpty := false; needSpace := needSpace p;
       wantDetail := wantDetail p; multiLine := multiLine p |}.

(** [detail], behind [printer.Detail]. *)
Definition detail (p : state) : bool * state :=
  if negb (wantDetail p) then (false, p)
  else
    let p := if notEmpty p
             then withFlags 1 (needSpace p) (multiLine p) (notEmpty p) p
             else p in
    (true, switchOver p).

(** The inner loop of [Write]:
    [for i := 0; i < s.needNewline-1; i++ { s.buf.Write(detailSep[:len(sep)-1]) }] *)
Fixpoint padNewlines (n : nat) (sep : bytes) (s : state) : state :=
  match n with
  | O => s
  | S n' => padNewlines n' sep (bufWrite (take (length sep - 1) detailSep) s)
  end.

(** The loop of [Write] over the bytes still to read; [pending] is
    [b[k:i]], the bytes read since the last flush. *)
Fixpoint writeLoop (b pending sep : bytes) (s : state) : state :=
  match b with
  | [] => bufWrite pending s
  | c :: b' =>
      if bool_decide (c = LF) then
        let s := bufWrite pending s in
        let s := withFlags (needNewline s + 1) false true (notEmpty s) s in
        let s := if wantDetail s then switchOver s else s in
        writeLoop b' [] sep s
      else
        let s :=
          if bool_decide (0 < needNewline s) && notEmpty s then
            let s := padNewlines (Z.to_nat (needNewline s - 1)) sep s in
            let s := bufWrite sep s in
            withFlags 0 false (multiLine s) (notEmpty s) s
          else if needSpace s then
            let s := bufWrite (B " ") s in
            withFlags (needNewline s) false (multiLine s) (notEmpty s) s
          else s in
        let s := withFlags (needNewline s) (needSpace s) (multiLine s) true s in
        writeLoop b' (pending ++ [c]) sep s
  end.

(** [state.Write], which shadows the [Write] of the embedded [fmt.State]. *)
Definition Write (b : bytes) (s : state) : state :=
  if (length b =? 0)%nat then s
  else
    let sep := if negb (wantDetail s) then [LF] else detailSep in
    writeLoop b [] sep s.

(** ** Capabilities

    Which interfaces an error implements follows from its dynamic type.
    The methods are functions of the error: [errbase.Formatter]
    ([FormatError(p Printer) (next error)]), [fmt.Formatter]
    ([Format(f fmt.State, verb rune)]) and [fmt.GoStringer].  A method
    that is handed the printer may write to it, ask [Detail] and so
    change the state in any way. *)
Class Methods : Type := {
  asFormatter : error -> option (state -> option error * state);
  asFmtFormatter : error -> option (Z -> state -> state);
  asGoStringer : error -> option bytes
}.

(** What the libraries outside the repository print: [%+v] of a
    [pkgErr.StackTrace], [fmt.Fprintf] of one string under a format, and
    [%#v] of [pretty.Formatter(err)]. *)
Class Library : Type := {
  sprintStackTrace : StackTrace -> bytes;
  fmtSprintf : bytes -> bytes -> bytes;
  prettySprint : option error -> bytes
}.

(** [safeErrorPrinterFn]:
    [func(err error, p Printer, isLeaf bool) (handled bool, next error)] *)
Definition safeErrorPrinterFn : Type :=
  option error -> state -> bool -> (bool * option error) * state.

(** [RegisterSpecialCasePrinter]; the package variable [specialCases] is
    passed around explicitly. *)
Definition RegisterSpecialCasePrinter (fn : safeErrorPrinterFn)
    (specialCases : list safeErrorPrinterFn) : list safeErrorPrinterFn :=
  specialCases ++ [fn].

(** [extractPrefix] *)
Definition extractPrefix (err cause : error) : bytes :=
  let causeSuffix := Error cause in
  let errMsg := Error err in
  if HasSuffix errMsg causeSuffix then
    let prefix := take (length errMsg - length causeSuffix) errMsg in
    if HasSuffix prefix (B ": ") then take (length prefix - 2) prefix
    else []
  else [].

(** [formatSimple].  Calling [Error] on the nil error panics. *)
Definition formatSimple (err cause : option error) (s : state) : outcome state :=
  match err with
  | None => Panic "nil pointer dereference"
  | Some e =>
      let pref := match cause with
                  | Some c => extractPrefix e c
                  | None => Error e
                  end in
      if (0 <? length pref)%nat then Return (Write pref s) else Return s
  end.

(** [collectEntry] *)
Definition collectEntry (err : option error) (s : state) : formatEntry :=
  if wantDetail s then
    if hasDetail s then
      {| err := err; head := headBuf s; details := buf s;
         stackTrace := None; elideShort := false; elidedStackTrace := false |}
    else
      {| err := err; head := buf s; details := [];
         stackTrace := None; elideShort := false; elidedStackTrace := false |}
  else
    let h := headBuf s in
    let h :=
      if (0 <? length h)%nat && negb (bool_decide (last h = Some LF)) &&
         (0 <? length (buf s))%nat && negb (bool_decide (buf s !! 0%nat = Some LF))
      then h ++ [LF] else h in
    {| err := err; head := h ++ buf s; details := [];
       stackTrace := None; elideShort := false; elidedStackTrace := false |}.

(** [for i := range s.entries { s.entries[i].elideShort = true }] *)
Definition elideShortAll (s : state) : state :=
  withEntries (map setElideShort (entries s)) s.

(** The loop of [formatRecursive] over [specialCases]: the handlers are
    called in order until one reports that it handled the error.  The
    value is [printDone] and the state. *)
Fixpoint runSpecialCases (fns : list safeErrorPrinterFn) (err : option error)
    (isLeaf : bool) (s : state) : bool * state :=
  match fns with
  | [] => (false, s)
  | fn :: fns' =>
      let '((handled, desiredShortening), s) := fn err s isLeaf in
      if handled then
        (true, match desiredShortening with
               | None => elideShortAll s
               | Some _ => s
               end)
      else runSpecialCases fns' err isLeaf s
  end.

(** [x == nil] *)
Definition isNil {A : Type} (x : option A) : bool :=
  match x with
  | None => true
  | Some _ => false
  end.

(** [err.(StackTraceProvider)], and [st.StackTrace()] when it holds. *)
Definition asStackTraceProvider (err : option error) : option StackTrace :=
  match err with
  | Some e => StackTraceOf e
  | None => None
  end.

(** The assignments at "Reinitialize the state for this stage of wrapping". *)
Definition reinit (withDetail : bool) (s : state) : state :=
  {| State := State s; entries := entries s; headBuf := [];
     lastStack := lastStack s; finalBuf := finalBuf s; buf := buf s;
     needNewline := 0; hasDetail := false;
     collectingRedactableString := collectingRedactableString s;
     notEmpty := false; needSpace := false;
     wantDetail := withDetail; multiLine := false |}.

Definition withStackTrace (st : StackTrace) (elided : bool) (e : formatEntry)
  : formatEntry :=
  {| err := err e; head := head e; details := details e;
     stackTrace := Some st; elideShort := elideShort e;
     elidedStackTrace := elided |}.

(** [entry.stackTrace, entry.elidedStackTrace = nil, elided]: what the
    assignment stores when [ElideSharedStackTraceSuffix] returns the nil
    slice, which it does exactly when it is given one. *)
Definition withNilStackTrace (elided : bool) (e : formatEntry) : formatEntry :=
  {| err := err e; head := head e; details := details e;
     stackTrace := None; elideShort := elideShort e;
     elidedStackTrace := elided |}.

(** [st.StackTrace() == nil] for an error that is a [StackTraceProvider]:
    a nil slice holds no frame. *)
Definition returnsNilSlice (err : option error) : bool :=
  match err with
  | Some e =>
      match StackTraceOf e with
      | Some st => nilTrace e && (length st =? 0)%nat
      | None => false
      end
  | None => false
  end.

Section Engine.
Context {M : Methods} {L : Library}.

(** The type switch of [formatRecursive], taken when no special case
    handled the error.  The value is [seenTrace] and the state. *)
Definition defaultDispatch (err cause : option error) (isOutermost : bool)
    (s : state) : outcome (bool * state) :=
  match err with
  | None => s ← formatSimple err cause s; Return (false, s)
  | Some e =>
      match asFormatter e with
      | Some FormatError =>
          let '(desiredShortening, s) := FormatError s in
          Return (false, match desiredShortening with
                         | None => elideShortAll s
                         | Some _ => s
                         end)
      | None =>
          match asFmtFormatter e with
          | Some Format =>
              if negb isOutermost && isNil cause then
                let s := Format (rune "v") s in
                match asStackTraceProvider err with
                | Some st => Return (true, withLastStack st s)
                | None => Return (false, s)
                end
              else s ← formatSimple err cause s; Return (false, s)
          | None => s ← formatSimple err cause s; Return (false, s)
          end
      end
  end.

(** The end of [formatRecursive], from "Collect the result": the entry of
    the link is collected, takes the stack trace of the error unless one
    was seen already, and is appended to [s.entries]. *)
Definition collectLink (err : option error) (seenTrace : bool) (s : state)
  : state :=
  let entry := collectEntry err s in
  let '(entry, s) :=
    if seenTrace then (entry, s)
    else match asStackTraceProvider err with
         | Some st =>
             let '(trace, elided) := ElideSharedStackTraceSuffix (lastStack s) st in
             ((if returnsNilSlice err then withNilStackTrace elided entry
               else withStackTrace trace elided entry),
              withLastStack trace s)
         | None => (entry, s)
         end in
  (* Remember the entry for later rendering. *)
  withBuf [] (withEntries (entries s ++ [entry]) s).

(** [formatRecursive] after its recursive call: what it does for the link
    [err], whose cause is [cause]. *)
Definition formatLink (specialCases : list safeErrorPrinterFn)
    (err cause : option error) (isOutermost withDetail : bool) (s : state)
  : outcome state :=
  let s := reinit withDetail s in
  let '(printDone, s) := runSpecialCases specialCases err (isNil cause) s in
  dispatched ← (if printDone then Return (false, s)
                else defaultDispatch err cause isOutermost s);
  let '(seenTrace, s) := dispatched : bool * state in
  Return (collectLink err seenTrace s).

(** [formatRecursive] on a non-nil error: the cause first, then the link. *)
Fixpoint formatChain (specialCases : list safeErrorPrinterFn) (e : error)
    (isOutermost withDetail : bool) (s : state) : outcome state :=
  let cause := UnwrapOnce (Some e) in
  s ← match cause with
      | Some c => formatChain specialCases c false withDetail s
      | None => Return s
      end;
  formatLink specialCases (Some e) cause isOutermost withDetail s.

(** [formatRecursive].  The nil error has no cause, and is a link of its
    own. *)
Definition formatRecursive (specialCases : list safeErrorPrinterFn)
    (err : option error) (isOutermost withDetail : bool) (s : state)
  : outcome state :=
  match err with
  | Some e => formatChain specialCases e isOutermost withDetail s
  | None => formatLink specialCases None (UnwrapOnce None) isOutermost withDetail s
  end.

(** The loop of [formatSingleLineOutput],
    [for i := len(s.entries) - 1; i >= 0; i--], entered with [i = n - 1]. *)
Fixpoint singleLineFrom (n : nat) (s : state) : outcome state :=
  match n with
  | O => Return s
  | S i =>
      entry ← index (entries s) i;
      if elideShort entry then singleLineFrom i s
      else
        let s := if (0 <? length (finalBuf s))%nat && (0 <? length (head entry))%nat
                 then finalBufWrite (B ": ") s else s in
        if (length (head entry) =? 0)%nat then singleLineFrom i s
        else singleLineFrom i (finalBufWrite (head entry) s)
  end.

(** [formatSingleLineOutput] *)
Definition formatSingleLineOutput (s : state) : outcome state :=
  singleLineFrom (length (entries s)) s.

(** [printEntry] *)
Definition printEntry (entry : formatEntry) (s : state) : state :=
  let s :=
    if (0 <? length (head entry))%nat then
      let s := if negb (bool_decide (head entry !! 0%nat = Some LF))
               then finalBufWrite (B " ") s else s in
      if (0 <? length (head entry))%nat then finalBufWrite (head entry) s else s
    else s in
  let s :=
    if (0 <? length (details entry))%nat then
      let s := if (length (head entry) =? 0)%nat then
                 if negb (bool_decide (details entry !! 0%nat = Some LF))
                 then finalBufWrite (B " ") s else s
               else s in
      finalBufWrite (details entry) s
    else s in
  match stackTrace entry with
  | Some st =>
      let s := finalBufWrite (LF :: B "  -- stack trace:") s in
      let s := finalBufWrite (ReplaceAll (sprintStackTrace st) LF detailSep) s in
      if elidedStackTrace entry
      then finalBufWrite (detailSep ++ B "[...repeated from below...]") s
      else s
  | None => s
  end.

(** [%T] of an error. *)
Definition typeString (err : option error) : bytes :=
  match err with
  | Some e => TypeOf e
  | None => B "<nil>"
  end.

(** The second loop of [formatEntries],
    [for i, j := len(s.entries)-2, 2; i >= 0; i, j = i-1, j+1],
    entered with [i = n - 1]. *)
Fixpoint wrapsFrom (n : nat) (j : Z) (s : state) : outcome state :=
  match n with
  | O => Return s
  | S i =>
      let s := finalBufWrite (LF :: B "Wraps: (" ++ Itoa j ++ B ")") s in
      entry ← index (entries s) i;
      wrapsFrom i (j + 1) (printEntry entry s)
  end.

(** The third loop of [formatEntries],
    [for i, j := len(s.entries)-1, 1; i >= 0; i, j = i-1, j+1]. *)
Fixpoint typesFrom (n : nat) (j : Z) (s : state) : outcome state :=
  match n with
  | O => Return s
  | S i =>
      entry ← index (entries s) i;
      typesFrom i (j + 1)
        (finalBufWrite (B " (" ++ Itoa j ++ B ") " ++ typeString (err entry)) s)
  end.

(** [formatEntries], which does not read its argument [err].
    [s.entries[len(s.entries)-1]] panics when there is no entry. *)
Definition formatEntries (err : option error) (s : state) : outcome state :=
  s ← formatSingleLineOutput s;
  let s := finalBufWrite (LF :: B "(1)") s in
  entry ← match length (entries s) with
          | O => Panic "index out of range"
          | S i => index (entries s) i
          end;
  let s := printEntry entry s in
  s ← wrapsFrom (length (entries s) - 1) 2 s;
  let s := finalBufWrite (LF :: B "Error types:") s in
  typesFrom (length (entries s)) 1 s.

(** [MakeFormat] *)
Definition MakeFormat (s : fmtState) (verb : Z) : bool * bytes :=
  let plus := Flag s (rune "+") in
  let minus := Flag s (rune "-") in
  let hash := Flag s (rune "#") in
  let sp := Flag s (rune " ") in
  let z := Flag s (rune "0") in
  let '(w, wp) := Width s in
  let '(p, pp) := Precision s in
  let slow :=
    (false,
     B "%" ++ (if plus then B "+" else []) ++ (if minus then B "-" else []) ++
     (if hash then B "#" else []) ++ (if sp then B " " else []) ++
     (if z then B "0" else []) ++ (if wp then Itoa w else []) ++
     (if pp then B "." ++ Itoa p else []) ++ EncodeRune verb) in
  if negb plus && negb minus && negb hash && negb sp && negb z &&
     negb wp && negb pp then
    if bool_decide (verb = rune "v") then (true, B "%v")
    else if bool_decide (verb = rune "s") then (false, B "%s")
    else if bool_decide (verb = rune "d") then (false, B "%d")
    else slow
  else slow.

(** [finishDisplay] *)
Definition finishDisplay (verb : Z) (p : state) : state :=
  let '(width, okW) := Width (State p) in
  let '(_, okP) := Precision (State p) in
  let direct := bool_decide (verb = rune "v") || bool_decide (verb = rune "s") in
  if negb direct || (okW && bool_decide (0 < width)) || okP then
    let '(_, format) := MakeFormat (State p) verb in
    withState (fmtWrite (State p) (fmtSprintf format (finalBuf p))) p
  else
    (* io.Copy(p.State, &p.finalBuf) *)
    withFinalBuf [] (withState (fmtWrite (State p) (finalBuf p)) p).

(** [formatErrorInternal]; the value is the [fmt.State] after the call. *)
Definition formatErrorInternal (specialCases : list safeErrorPrinterFn)
    (err : option error) (s : fmtState) (verb : Z) : outcome fmtState :=
  let p := newState s in
  if bool_decide (verb = rune "v") && Flag s (rune "+") && negb (Flag s (rune "#")) then
    p ← formatRecursive specialCases err true true p;
    p ← formatEntries err p;
    Return (State (finishDisplay verb p))
  else if bool_decide (verb = rune "v") && Flag s (rune "#") then
    let p := match err ≫= asGoStringer with
             | Some goString => finalBufWrite goString p
             | None => finalBufWrite (prettySprint err) p
             end in
    Return (State (finishDisplay verb p))
  else if bool_decide (verb = rune "s") ||
          (bool_decide (verb = rune "v") && negb (Flag s (rune "#"))) ||
          (bool_decide (verb = rune "x") || bool_decide (verb = rune "X") ||
           bool_decide (verb = rune "q")) then
    p ← formatRecursive specialCases err true false p;
    p ← formatSingleLineOutput p;
    Return (State (finishDisplay verb p))
  else
    (* Unknown verb. *)
    let p := finalBufWrite (B "%!") p in
    let p := finalBufWrite (EncodeRune verb) p in
    let p := finalBufWrite (B "(") p in
    let p := match err with
             | Some e => finalBufWrite (TypeOf e) p
             | None => finalBufWrite (B "<nil>") p
             end in
    let p := finalBufWrite (B ")") p in
    Return (fmtWrite s (finalBuf p)).

(** [FormatError] *)
Definition FormatError (specialCases : list safeErrorPrinterFn)
    (err : option error) (s : fmtState) (verb : Z) : outcome fmtState :=
  formatErrorInternal specialCases err s verb.

End Engine.

(** The links of a possibly nil error: the nil error has none. *)
Definition chain (err : option error) : list error :=
  match err with
  | Some e => links e
  | None => []
  end.

(** ** Handlers that decline

    [allDecline fns err isLeaf s]: called one after the other from the
    state [s], each handler of [fns] reports [handled = false];
    [afterDeclined] is the state they leave. *)
Fixpoint allDecline (fns : list safeErrorPrinterFn) (err : option error)
    (isLeaf : bool) (s : state) : Prop :=
  match fns with
  | [] => True
  | fn :: fns' =>
      (fn err s isLeaf).1.1 = false /\ allDecline fns' err isLeaf (fn err s isLeaf).2
  end.

Fixpoint afterDeclined (fns : list safeErrorPrinterFn) (err : option error)
    (isLeaf : bool) (s : state) : state :=
  match fns with
  | [] => s
  | fn :: fns' => afterDeclined fns' err isLeaf (fn err s isLeaf).2
  end.

(** What [formatRecursive] makes of the answer of the handler that
    handled the error: a nil [next] elides the short messages collected so
    far. *)
Definition handledBy (answer : (bool * option error) * state) : state :=
  match answer.1.2 with
  | None => elideShortAll answer.2
  | Some _ => answer.2
  end.

(** ** The renderings as the specification words them

    The entries are listed from the outermost link to the innermost one,
    the reverse of [s.entries]. *)

(** The pieces with [sep] between each two of them, and nowhere else. *)
Fixpoint joinWith (sep : bytes) (parts : list bytes) : bytes :=
  match parts with
  | [] => []
  | p :: ps =>
      match ps with
      | [] => p
      | _ :: _ => p ++ sep ++ joinWith sep ps
      end
  end.

(** An entry shows in the single-line rendering when it is not flagged
    elide-short and its head is not empty. *)
Definition shownInSummary (e : formatEntry) : bool :=
  negb (elideShort e) && negb (length (head e) =? 0)%nat.

Definition summary (outermostFirst : list formatEntry) : bytes :=
  joinWith (B ": ") (map head (List.filter shownInSummary outermostFirst)).

(** What the loop has written after the entries [parts]: a separator
    goes before a head only when the buffer is not empty. *)
Definition appendHeads (acc : bytes) (parts : list bytes) : bytes :=
  fold_left (fun acc p => (if (0 <? length acc)%nat then acc ++ B ": " else acc) ++ p)
            parts acc.

(** The space that [printEntry] puts before a text that does not start a
    new line. *)
Definition lead (text : bytes) : bytes :=
  match text with
  | [] => []
  | c :: _ => if bool_decide (c = LF) then [] else B " "
  end.

Section Detailed.
Context {L : Library}.

(** The text of one numbered item: its head, then its details, then its
    stack trace, with the marker when the trace was elided. *)
Definition entryText (entry : formatEntry) : bytes :=
  lead (head entry) ++ head entry ++
  (match head entry with [] => lead (details entry) | _ :: _ => [] end) ++
  details entry ++
  match stackTrace entry with
  | Some st =>
      (LF :: B "  -- stack trace:") ++ ReplaceAll (sprintStackTrace st) LF detailSep ++
      (if elidedStackTrace entry
       then detailSep ++ B "[...repeated from below...]" else [])
  | None => []
  end.

Definition wrapsItem (n : nat) (entry : formatEntry) : bytes :=
  (LF :: B "Wraps: (" ++ Itoa (Z.of_nat n) ++ B ")") ++ entryText entry.

Definition typeItem (n : nat) (entry : formatEntry) : bytes :=
  B " (" ++ Itoa (Z.of_nat n) ++ B ") " ++ typeString (err entry).

(** The numbered items, counted from [j]. *)
Definition wrapsItemFrom (j : Z) (k : nat) (entry : formatEntry) : bytes :=
  (LF :: B "Wraps: (" ++ Itoa (j + Z.of_nat k) ++ B ")") ++ entryText entry.

Definition typeItemFrom (j : Z) (k : nat) (entry : formatEntry) : bytes :=
  B " (" ++ Itoa (j + Z.of_nat k) ++ B ") " ++ typeString (err entry).

(** The detailed rendering of the entries [outer :: rest]. *)
Definition detailed (outer : formatEntry) (rest : list formatEntry) : bytes :=
  summary (outer :: rest) ++
  (LF :: B "(1)") ++ entryText outer ++
  concat (imap (fun k entry => wrapsItem (k + 2) entry) rest) ++
  (LF :: B "Error types:") ++
  concat (imap (fun k entry => typeItem (k + 1) entry) (outer :: rest)).

End Detailed.

(** ** The printer's writes, in words

    [sameOutsidePrinter s s']: the caller's [fmt.State], the entries
    collected so far, the final buffer, the last stack and the mode are
    the same in [s'] as in [s]. *)
Definition sameOutsidePrinter (s s' : state) : Prop :=
  State s' = State s /\ entries s' = entries s /\ finalBuf s' = finalBuf s /\
  lastStack s' = lastStack s /\ wantDetail s' = wantDetail s.

(** The separator that [Write] picks for the mode of [s]. *)
Definition separator (s : state) : bytes :=
  if negb (wantDetail s) then [LF] else detailSep.

(** What [Write] puts in the buffer for the newlines that are pending in
    [s] when text arrives. *)
Definition pendingNewlines (s : state) : bytes :=
  if bool_decide (0 < needNewline s) then
    concat (replicate (Z.to_nat (needNewline s - 1))
              (take (length (separator s) - 1) detailSep)) ++ separator s
  else [].

(** The flags once text has been written: no newline is pending any more
    and the buffer is marked as not empty. *)
Definition afterText (s : state) : state :=
  withFlags (if bool_decide (0 < needNewline s) then 0 else needNewline s)
            false (multiLine s) true s.

(** What [Write] does at a newline, apart from flushing the bytes read so
    far: the newline is counted, not written. *)
Definition noteNewline (s : state) : state :=
  let s := withFlags (needNewline s + 1) false true (notEmpty s) s in
  if wantDetail s then switchOver s else s.

(** ** Chains rendered by the simple fallback *)

(** What the simple fallback writes for a link: its prefix when it has a
    cause, its message when it is a leaf. *)
Definition simpleHead (l : error) : bytes :=
  match UnwrapOnce (Some l) with
  | Some c => extractPrefix l c
  | None => Error l
  end.

(** A link that the type switch of [formatRecursive] hands to
    [formatSimple]: it is no [Formatter], and no [fmt.Formatter] unless it
    is a wrapper; its message holds no newline. *)
Definition simpleLink {M : Methods} (l : error) : Prop :=
  asFormatter l = None /\
  (asFmtFormatter l = None \/ Cause l <> None) /\
  LF ∉ Error l.

(** The entry of a link rendered by the simple fallback. *)
Definition simpleEntry (entry : formatEntry) (l : error) : Prop :=
  err entry = Some l /\ head entry = simpleHead l /\ details entry = [] /\
  elideShort entry = false.

(** The message of a wrapper extends the message of its cause: it is that
    message, as it is or after a non-empty prefix and [": "]. *)
Definition extends (msg causeMsg : bytes) : Prop :=
  msg = causeMsg \/ exists p, p <> [] /\ msg = p ++ B ": " ++ causeMsg.

(** A chain of message prefixes: the leaf has a message, and the message
    of each wrapper extends the message of its cause. *)
Fixpoint prefixChain (e : error) : Prop :=
  match UnwrapOnce (Some e) with
  | None => Error e <> []
  | Some c => prefixChain c /\ extends (Error e) (Error c)
  end.

Definition nonEmpty (b : bytes) : bool := negb (length b =? 0)%nat.


(** ** Methods that only print

    [leavesOutput s s']: the caller's [fmt.State] and the final buffer
    are the same in [s'] as in [s].  A link is [printerOnly] when its
    [FormatError] and [Format] methods leave them so, as methods do that
    reach the state through the [Printer] or [fmt.State] they are given. *)
Definition leavesOutput (s s' : state) : Prop :=
  State s' = State s /\ finalBuf s' = finalBuf s.

Definition printerOnly {M : Methods} (l : error) : Prop :=
  (forall F, asFormatter l = Some F -> forall s, leavesOutput s (F s).2) /\
  (forall Format, asFmtFormatter l = Some Format ->
     forall s, leavesOutput s (Format (rune "v") s)).


(** ** The format string, in words

    [noDirectives s]: none of the flags [+], [-], [#], space and [0] is
    set, and neither a width nor a precision is given.
    [formatString s verb]: the directive written out, the flags in the
    order [+-# 0], then the width, the precision after a dot, and the
    verb. *)
Definition noDirectives (s : fmtState) : bool :=
  negb (Flag s (rune "+")) && negb (Flag s (rune "-")) &&
  negb (Flag s (rune "#")) && negb (Flag s (rune " ")) &&
  negb (Flag s (rune "0")) && negb (Width s).2 && negb (Precision s).2.

Definition formatString (s : fmtState) (verb : Z) : bytes :=
  B "%" ++
  (if Flag s (rune "+") then B "+" else []) ++
  (if Flag s (rune "-") then B "-" else []) ++
  (if Flag s (rune "#") then B "#" else []) ++
  (if Flag s (rune " ") then B " " else []) ++
  (if Flag s (rune "0") then B "0" else []) ++
  (if (Width s).2 then Itoa (Width s).1 else []) ++
  (if (Precision s).2 then B "." ++ Itoa (Precision s).1 else []) ++
  EncodeRune verb.


(** ** The detailed rendering of a simple chain, in words

    [linkText l]: what stands after the label of the link [l], a space
    and the prefix of the link, or nothing when it has no prefix.
    [numbered ls]: for the links [ls], outermost first, the item [(1)],
    the items [Wraps: (N)] from 2 upwards and the footer of types. *)
Definition linkText (l : error) : bytes :=
  lead (simpleHead l) ++ simpleHead l.

Definition numbered (ls : list error) : bytes :=
  (LF :: B "(1)") ++
  match ls with
  | [] => []
  | outer :: rest =>
      linkText outer ++
      concat (imap (fun k l =>
                      (LF :: B "Wraps: (" ++ Itoa (Z.of_nat (k + 2)) ++ B ")") ++
                      linkText l) rest)
  end ++
  (LF :: B "Error types:") ++
  concat (imap (fun k l => B " (" ++ Itoa (Z.of_nat (k + 1)) ++ B ") " ++ TypeOf l) ls).

(** The entry of a link rendered by the simple fallback, when the link
    carries no stack trace. *)
Definition plainEntry (entry : formatEntry) (l : error) : Prop :=
  simpleEntry entry l /\ stackTrace entry = None.

End errbase.

Module errors.
Import errbase.

(** ** stack.go *)

(** [runtime.Callers(skip, pcs)], the return program counters of the
    calling goroutine's stack after [skip] frames, as many as there are. *)
Class Runtime : Type := {
  runtimeCallers : Z -> list uintptr
}.

(** [callers]: at most [numFrames = 32] program counters are kept. *)
Definition callers {R : Runtime} (depth : Z) : list uintptr :=
  take 32 (runtimeCallers (2 + depth)).

(** [stack.StackTrace] copies the program counters into a new slice. *)
Definition stack_StackTrace (s : list uintptr) : StackTrace :=
  map (fun pc => pc : StackFrame) s.

(** ** Is *)

(** The method [Is(error) bool] of the errors that have one. *)
Class IsMethod : Type := {
  asIs : error -> option (option error -> bool)
}.

(** [==] on two interface values of the same dynamic type compares the
    dynamic values, and panics when they cannot be compared: the type is
    a slice, a map or a function, or a struct or an array that holds one,
    or the comparison reaches an interface whose two dynamic values have
    such a type.  [uncomparable a b] says that comparing the dynamic
    values of [a] and [b] panics; it is false for pointers. *)
Class Comparison : Type := {
  uncomparable : error -> error -> bool
}.

Section Is.
Context {C : Comparison} {I : IsMethod}.

(** [equal]: [err == reference] on interface values.  Two values of
    different dynamic types are not equal; two values of the same dynamic
    type are equal when the dynamic values are, and comparing them panics
    when the values cannot be compared. *)
Definition equal (err reference : option error) : outcome bool :=
  match err, reference with
  | None, None => Return true
  | Some a, Some b =>
      if bool_decide (TypeOf a = TypeOf b) then
        if uncomparable a b then Panic "comparing uncomparable type"
        else Return (bool_decide (addr a = addr b))
      else Return false
  | _, _ => Return false
  end.

(** [tryDelegateToIsMethod] *)
Definition tryDelegateToIsMethod (err reference : option error) : bool :=
  match err with
  | Some x =>
      match asIs x with
      | Some isMethod => if isMethod reference then true else false
      | None => false
      end
  | None => false
  end.

(** The loop of [Is], [for c := err; c != nil; c = errbase.UnwrapOnce(c)],
    at a link [c]; the value is [true] when the loop returns [true] and
    [false] when it runs to its end. *)
Fixpoint isFrom (c : error) (reference : option error) : outcome bool :=
  same ← equal (Some c) reference;
  if same : bool then Return true
  else if tryDelegateToIsMethod (Some c) reference then Return true
  else match UnwrapOnce (Some c) with
       | Some c' => isFrom c' reference
       | None => Return false
       end.

(** [Is] *)
Definition Is (err reference : option error) : outcome bool :=
  if isNil reference then Return (isNil err)
  else
    match err with
    | Some c => found ← isFrom c reference;
                if found : bool then Return true else Return false
    | None => Return false
    end.

End Is.

End errors.

Module khan.
Import errors.

(** ** khan.go

    [KhanWrap] and [newError] inspect the dynamic types of their
    arguments, so this module keeps the concrete types of package
    [errors] apart.  [any] is [interface{}], [error] a non-nil value of a
    type that implements [error]: an [errorKind], a non-nil [*khanError]
    or a value of a type from elsewhere.  A map that is nil is [None]. *)

Definition errorKind : Type := string.

Inductive any : Type :=
| Nil
| Str (s : string)
| Err (e : error)
| FieldsVal (f : option (gmap string any))
| MapVal (m : option (gmap string any))
| Slice (l : list any)
| Other (tag : Z)
with error : Type :=
| Kind (k : errorKind)
| Khan (kind : errorKind) (cause : error) (fields : option (gmap string any))
       (stack : list uintptr)
| Foreign (addr : Z) (msg : string) (cause : option error).

Abbreviation Fields := (gmap string any).

Definition NotFoundKind : errorKind := "not found".
Definition InvalidInputKind : errorKind := "invalid input error".
Definition NotAllowedKind : errorKind := "not allowed".
Definition UnauthorizedKind : errorKind := "unauthorized error".
Definition InternalKind : errorKind := "internal error".
Definition NotImplementedKind : errorKind := "not implemented error".
Definition GraphqlResponseKind : errorKind := "graphql error response".
Definition TransientKhanServiceKind : errorKind := "transient khan service error".
Definition KhanServiceKind : errorKind := "khan service error".
Definition TransientServiceKind : errorKind := "transient service error".
Definition ServiceKind : errorKind := "service error".
Definition UnspecifiedKind : errorKind := "unspecified error".

(** [Unwrap]: a [*khanError] returns its cause, an [errorKind] has no such
    method. *)
Definition Unwrap (e : error) : option error :=
  match e with
  | Kind _ => None
  | Khan _ cause _ _ => Some cause
  | Foreign _ _ cause => cause
  end.

(** The links of the cause chain, outermost first. *)
Fixpoint links (e : error) : list error :=
  e :: match e with
       | Kind _ => []
       | Khan _ cause _ _ => links cause
       | Foreign _ _ (Some cause) => links cause
       | Foreign _ _ None => []
       end.

(** [khanErr.kind], for the errors that are a [*khanError]. *)
Definition kindOf (e : error) : option errorKind :=
  match e with
  | Khan kind _ _ _ => Some kind
  | _ => None
  end.

Section Khan.
Context {R : Runtime}.

(** [khanWrapWithFieldsAndDepth] *)
Definition khanWrapWithFieldsAndDepth (kind : errorKind) (err : option error)
    (fields : option Fields) (depth : Z) : option error :=
  match err with
  | None => None
  | Some e => Some (Khan kind e fields (callers (depth + 1)))
  end.

(** The type switch of [newError] over its arguments, in order. *)
Fixpoint newErrorArgs (args : list any) (message : string) (cause : error)
    (fields : option Fields) : string * error * option Fields :=
  match args with
  | [] => (message, cause, fields)
  | arg :: args' =>
      match arg with
      | Err v => newErrorArgs args' message v fields
      | Str v => newErrorArgs args' v cause fields
      | FieldsVal v => newErrorArgs args' message cause v
      | MapVal v => newErrorArgs args' message cause v
      | _ => newErrorArgs args' message cause fields
      end
  end.

(** [newError] *)
Definition newError (kind : errorKind) (args : list any) : option error :=
  (* default cause is kind, if no err was passed as arg *)
  let '(message, cause, fields) := newErrorArgs args "" (Kind kind) None in
  let fields :=
    if bool_decide (message <> "") then
      match fields with
      | None => Some ({[ "message" := Str message ]} : Fields)
      | Some f => Some (<[ "message" := Str message ]> f)
      end
    else fields in
  khanWrapWithFieldsAndDepth kind (Some cause) fields 2.

(** The loop of [KhanWrap] over the key/value pairs,
    [for i := 0; i < len(args); i += 2].  It stops with the first key that
    is not a string, and reading [args[i+1]] beyond the slice panics. *)
Fixpoint wrapFields (args : list any) (fields : Fields) : outcome (any + Fields) :=
  match args with
  | [] => Return (inr fields)
  | Str key :: rest =>
      match rest with
      | value :: args' => wrapFields args' (<[ key := value ]> fields)
      | [] => Panic "index out of range"
      end
  | notString :: _ => Return (inl notString)
  end.

(** [KhanWrap].  The value is the lines printed on standard output and
    what the call returns. *)
Definition KhanWrap (err : option error) (args : list any)
  : list string * outcome (option error) :=
  match err with
  | None => ([], Return None)
  | Some e =>
      if negb (length args mod 2 =? 0)%nat then
        (["Odd"],
         Return (newError InternalKind
                   [Err e;
                    FieldsVal (Some {[ "fields" := Slice args;
                                       "message" := Str "Passed an odd number of field-args to errors.Wrap()" ]})]))
      else
        match wrapFields args ∅ with
        | Panic why => ([], Panic why)
        | Return (inl key) =>
            (["Non-string keyfield"],
             Return (newError InternalKind
                       [Err e;
                        FieldsVal (Some {[ "key" := key;
                                           "message" := Str "Passed a non-string key-field to errors.Wrap()" ]})]))
        | Return (inr fields) =>
            match e with
            | Khan errKind _ _ _ =>
                if bool_decide (errKind = UnspecifiedKind) then
                  (* This probably can't happen, but just in case... *)
                  ([], Return (newError InternalKind args))
                else ([], Return (newError errKind [Err e; FieldsVal (Some fields)]))
            | Kind khanKind =>
                (* root is errorKind *)
                ([], Return (newError khanKind [FieldsVal (Some fields)]))
            | Foreign _ _ _ =>
                (["Default"], Return (newError InternalKind [Err e; FieldsVal (Some fields)]))
            end
        end
  end.

(** [Internal], one of the constructors by kind. *)
Definition Internal (args : list any) : list string * outcome (option error) :=
  KhanWrap (Some (Kind InternalKind)) args.

(** [NotFound] *)
Definition NotFound (args : list any) : list string * outcome (option error) :=
  KhanWrap (Some (Kind NotFoundKind)) args.

(** [InvalidInput], [NotAllowed], [Unauthorized], [GraphqlResponse],
    [NotImplemented], [TransientKhanService], [KhanService], [Service] and
    [TransientService], the other constructors by kind. *)
Definition InvalidInput (args : list any) : list string * outcome (option error) :=
  KhanWrap (Some (Kind InvalidInputKind)) args.

Definition NotAllowed (args : list any) : list string * outcome (option error) :=
  KhanWrap (Some (Kind NotAllowedKind)) args.

Definition Unauthorized (args : list any) : list string * outcome (option error) :=
  KhanWrap (Some (Kind UnauthorizedKind)) args.

Definition GraphqlResponse (args : list any) : list string * outcome (option error) :=
  KhanWrap (Some (Kind GraphqlResponseKind)) args.

Definition NotImplemented (args : list any) : list string * outcome (option error) :=
  KhanWrap (Some (Kind NotImplementedKind)) args.

Definition TransientKhanService (args : list any)
  : list string * outcome (option error) :=
  KhanWrap (Some (Kind TransientKhanServiceKind)) args.

Definition KhanService (args : list any) : list string * outcome (option error) :=
  KhanWrap (Some (Kind KhanServiceKind)) args.

Definition Service (args : list any) : list string * outcome (option error) :=
  KhanWrap (Some (Kind ServiceKind)) args.

Definition TransientService (args : list any) : list string * outcome (option error) :=
  KhanWrap (Some (Kind TransientServiceKind)) args.

(** The constructors, each with its kind. *)
Definition constructors
  : list (errorKind * (list any -> list string * outcome (option error))) :=
  [(NotFoundKind, NotFound); (InvalidInputKind, InvalidInput);
   (NotAllowedKind, NotAllowed); (UnauthorizedKind, Unauthorized);
   (InternalKind, Internal); (GraphqlResponseKind, GraphqlResponse);
   (NotImplementedKind, NotImplemented);
   (TransientKhanServiceKind, TransientKhanService);
   (KhanServiceKind, KhanService); (ServiceKind, Service);
   (TransientServiceKind, TransientService)].

End Khan.

(** An argument list is malformed when its length is odd or when one of
    its keys, the arguments at the even indices, is not a string. *)
Definition isString (a : any) : bool :=
  match a with
  | Str _ => true
  | _ => false
  end.

Fixpoint keysOf (args : list any) : list any :=
  match args with
  | key :: _ :: args' => key :: keysOf args'
  | [key] => [key]
  | [] => []
  end.

Definition malformed (args : list any) : bool :=
  Nat.odd (length args) || negb (forallb isString (keysOf args)).

(** [errorKind.Error] and [khanError.Error]: a kind is its own message, a
    [*khanError] has the message of its cause. *)
Fixpoint Error (e : error) : string :=
  match e with
  | Kind k => k
  | Khan _ cause _ _ => Error cause
  | Foreign _ msg _ => msg
  end.

(** The kind that [KhanWrap] gives to what it returns for [e] and
    well-formed arguments. *)
Definition kindFor (e : error) : errorKind :=
  match e with
  | Kind k => k
  | Khan k _ _ _ => k
  | Foreign _ _ _ => InternalKind
  end.

(** The key/value pairs of an argument list, in order, up to the first
    key that is not a string. *)
Fixpoint pairsOf (args : list any) : list (string * any) :=
  match args with
  | Str key :: value :: args' => (key, value) :: pairsOf args'
  | _ => []
  end.

(** The value of the last pair that has the key [key]. *)
Definition lastValue (key : string) (pairs : list (string * any)) : option any :=
  snd <$> last (filter (fun p => p.1 = key) pairs).

(** [fields[key] = value] for each pair in turn. *)
Definition insertPairs (pairs : list (string * any)) (fields : Fields) : Fields :=
  foldl (fun m p => <[ p.1 := p.2 ]> m) fields pairs.

Definition isErr (a : any) : bool :=
  match a with
  | Err _ => true
  | _ => false
  end.


(** The arguments of [newError] by dynamic type: an error, a string, a
    [Fields] or a [map[string]interface{}]. *)
Definition asErr (a : any) : option error :=
  match a with
  | Err e => Some e
  | _ => None
  end.

Definition asStr (a : any) : option string :=
  match a with
  | Str s => Some s
  | _ => None
  end.

Definition asFields (a : any) : option (option Fields) :=
  match a with
  | FieldsVal f => Some f
  | MapVal f => Some f
  | _ => None
  end.

(** The fields of a [khanError] once its message, if it has one, is
    stored under the key ["message"]. *)
Definition withMessage (message : string) (fields : option Fields) : option Fields :=
  if bool_decide (message <> "") then
    Some (<[ "message" := Str message ]> (default ∅ fields))
  else fields.

End khan.

Module withstack.
Import errbase.

(** ** one_line_source.go *)

(** What [GetOneLineSource] calls and is not among the sources:
    [strings.TrimSpace], and [parsePrintedStackEntry] and [functionName]
    of this package, which read a printed frame back into its file, line
    and function name.  The printing itself is [sprintStackTrace] of
    [errbase.Library]. *)
Class Parsing : Type := {
  TrimSpace : bytes -> bytes;
  parsePrintedStackEntry : list bytes -> Z -> Z * bytes * Z * bytes;
  functionName : bytes -> bytes * bytes
}.

(** [strings.SplitN(s, sep, n)] for a separator of one byte and [n >= 0]:
    at most [n] pieces, the last one being the unsplit rest. *)
Fixpoint splitOnce (s : bytes) (sep : byte) (piece : bytes) : bytes * option bytes :=
  match s with
  | [] => (piece, None)
  | c :: s' =>
      if bool_decide (c = sep) then (piece, Some s')
      else splitOnce s' sep (piece ++ [c])
  end.

Fixpoint SplitN (s : bytes) (sep : byte) (n : nat) {struct n} : list bytes :=
  match n with
  | O => []
  | S O => [s]
  | S n' =>
      match splitOnce s sep [] with
      | (piece, Some rest) => piece :: SplitN rest sep n'
      | (_, None) => [s]
      end
  end.

(** [filepath.Base] on a system whose separator is the slash. *)
Fixpoint stripTrailingSlashes (path : bytes) : bytes :=
  match path with
  | [] => []
  | c :: path' =>
      match stripTrailingSlashes path' with
      | [] => if bool_decide (c = "/"%byte) then [] else [c]
      | rest => c :: rest
      end
  end.

Fixpoint lastElement (path : bytes) (element : bytes) : bytes :=
  match path with
  | [] => element
  | c :: path' =>
      if bool_decide (c = "/"%byte) then lastElement path' []
      else lastElement path' (element ++ [c])
  end.

Definition Base (path : bytes) : bytes :=
  if (length path =? 0)%nat then B "."
  else
    let path := stripTrailingSlashes path in
    let path := lastElement path [] in
    if (length path =? 0)%nat then B "/" else path.

(** The result of [GetOneLineSource]: [(file, line, fn, ok)]. *)
Definition source : Type := bytes * Z * bytes * bool.

Definition notFound : source := ([], 0, [], false).

Section OneLineSource.
Context {L : Library} {P : Parsing}.

(** [getOneLineSourceFromPrintedStack] *)
Definition getOneLineSourceFromPrintedStack (st : bytes) : source :=
  let lines := SplitN (TrimSpace st) LF 3 in
  if (0 <? length lines)%nat then
    let '(_, file, line, fnName) := parsePrintedStackEntry lines 0 in
    let fn := if negb (bool_decide (fnName = B "unknown"))
              then (functionName fnName).2 else [] in
    (Base file, line, fn, true)
  else notFound.

(** [getOneLineSourceFromPkgStack] *)
Definition getOneLineSourceFromPkgStack (st : StackTrace) : source :=
  if (0 <? length st)%nat then
    let st := take 1 st in
    let stS := sprintStackTrace st in
    getOneLineSourceFromPrintedStack stS
  else notFound.

(** [getDetails]: the interface it asks for,
    [interface{ StackTrace() pkgErr.StackTrace }], is [StackTraceProvider]. *)
Definition getDetails (err : option error) : list bytes :=
  match asStackTraceProvider err with
  | Some st => [sprintStackTrace st]
  | None => []
  end.

(** [GetOneLineSource] at a link [err] once the recursive call on its
    cause, if it has one, has returned [inner]. *)
Definition sourceAt (err : option error) (inner : option source) : source :=
  match inner with
  | Some (file, line, fn, true) => (file, line, fn, true)
  | _ =>
      match asStackTraceProvider err with
      | Some st => getOneLineSourceFromPkgStack st
      | None =>
          match getDetails err with
          | d :: _ => getOneLineSourceFromPrintedStack d
          | [] => notFound
          end
      end
  end.

(** [GetOneLineSource] on a non-nil error. *)
Fixpoint sourceOf (e : error) : source :=
  sourceAt (Some e)
    match UnwrapOnce (Some e) with
    | Some c => Some (sourceOf c)
    | None => None
    end.

(** [GetOneLineSource] *)
Definition GetOneLineSource (err : option error) : source :=
  match err with
  | Some e => sourceOf e
  | None => sourceAt None None
  end.

(** The Frame Model's [resolve], for the one-line source: the frame is
    printed and read back. *)
Definition resolveFrame (f : StackFrame) : source :=
  getOneLineSourceFromPrintedStack (sprintStackTrace [f]).

End OneLineSource.

(** The captured stack of the innermost link whose stack holds a frame. *)
Definition holdsFrame (st : StackTrace) : bool := negb (length st =? 0)%nat.

Definition innermostFrames (e : error) : option StackTrace :=
  last (List.filter holdsFrame (omap StackTraceOf (links e))).


End withstack.

Module errutil.
Import errbase.

(** ** errutil: message prefixes

    [fmt.Sprintf("%v", err)] of an error is what the [Format] method of
    the error prints when it has one, and its [Error()] otherwise; it is a
    parameter here. *)
Class Printing : Type := {
  sprintV : error -> bytes
}.

Section WithMessage.
Context {P : Printing}.

(** [withPrefix.Error] *)
Definition withPrefix_Error (cause : error) (prefix : bytes) : bytes :=
  if (length prefix =? 0)%nat then Error cause
  else prefix ++ B ": " ++ sprintV cause.

(** [&withPrefix{cause: err, prefix: message}], allocated at the address
    [a].  A [*withPrefix] has the methods [Cause] and [Unwrap], and no
    [StackTrace]. *)
Definition withPrefix (a : Z) (cause : error) (prefix : bytes) : error :=
  {| addr := a; TypeOf := B "*errutil.withPrefix";
     Error := withPrefix_Error cause prefix;
     Cause := Some cause; StackTraceOf := None;
     nilTrace := false |}.

(** [WithMessage] *)
Definition WithMessage (a : Z) (err : option error) (message : bytes)
  : option error :=
  match err with
  | None => None
  | Some e => Some (withPrefix a e message)
  end.

End WithMessage.

End errutil.

Module scenario.
Import errbase.

(** ** The scenario of the specification

    The leaf ["boom"], wrapped with the prefix ["read config"], wrapped
    with a stack capture; none of the three has a formatting method.  The
    library functions are given simple stand-ins so that the renderings
    can be computed. *)

Definition leaf : error :=
  {| addr := 1; TypeOf := B "*errutil.leafError"; Error := B "boom";
     Cause := None; StackTraceOf := None;
     nilTrace := false |}.

Definition middle : error :=
  {| addr := 2; TypeOf := B "*errutil.withPrefix"; Error := B "read config: boom";
     Cause := Some leaf; StackTraceOf := None;
     nilTrace := false |}.

Definition outer : error :=
  {| addr := 3; TypeOf := B "*withstack.withStack"; Error := B "read config: boom";
     Cause := Some middle; StackTraceOf := Some [10; 20; 30];
     nilTrace := false |}.

(** A second error with the message of [leaf]. *)
Definition otherBoom : error :=
  {| addr := 4; TypeOf := B "*errutil.leafError"; Error := B "boom";
     Cause := None; StackTraceOf := None;
     nilTrace := false |}.

#[local] Instance noMethods : Methods :=
  {| asFormatter := fun _ => None;
     asFmtFormatter := fun _ => None;
     asGoStringer := fun _ => None |}.

(** A frame prints as a line [pc N]. *)
#[local] Instance library : Library :=
  {| sprintStackTrace := flat_map (fun pc => LF :: B "pc " ++ Itoa pc);
     fmtSprintf := fun _ text => text;
     prettySprint := typeString |}.

(** [%v], [%+v] and [%d] with no width and no precision, before anything
    is written. *)
Definition plain : fmtState :=
  {| Flag := fun _ => false; Width := (0, false); Precision := (0, false);
     written := [] |}.

Definition plus : fmtState :=
  {| Flag := fun c => bool_decide (c = rune "+"); Width := (0, false);
     Precision := (0, false); written := [] |}.

(** The entries that the traversal of [outer] collects, and the state
    that holds them. *)
Definition entryOf (e : error) (h : bytes) : formatEntry :=
  {| err := Some e; head := h; details := []; stackTrace := None;
     elideShort := false; elidedStackTrace := false |}.

Definition collected : state :=
  withEntries
    [entryOf leaf (B "boom");
     entryOf middle (B "read config");
     withStackTrace [10; 20; 30] false (entryOf outer [])]
    (newState plain).

(** A link with a stack of its own around [outer]. *)
Definition rewrapped : error :=
  {| addr := 5; TypeOf := B "*withstack.withStack"; Error := B "read config: boom";
     Cause := Some outer; StackTraceOf := Some [40; 50];
     nilTrace := false |}.

(** A printed frame [pc N] reads back as line [N] of the function
    [main.load] in the file [/src/app/main.go]. *)
#[local] Instance parsing : withstack.Parsing :=
  {| withstack.TrimSpace := fun text =>
       match text with
       | c :: text' => if bool_decide (c = LF) then text' else text
       | [] => []
       end;
     withstack.parsePrintedStackEntry := fun lines i =>
       (i + 1, B "/src/app/main.go",
        (if bool_decide (lines !! 0%nat = Some (B "pc 10")) then 10 else 0),
        B "main.load");
     withstack.functionName := fun fnName => (take 4 fnName, drop 5 fnName) |}.

(** Two program counters stand for the stack that [runtime.Callers] sees. *)
#[local] Instance runtime : errors.Runtime :=
  {| errors.runtimeCallers := fun _ => [100; 200] |}.

(** [fmt.Errorf("something")], the error that [_example/main.go] hands to
    [KhanWrap]. *)
Definition something : khan.error := khan.Foreign 6 "something" None.

(** Methods under which every error is a [Formatter] that prints
    ["formatter"]. *)
#[local] Instance allFormatters : Methods :=
  {| asFormatter := fun e => Some (fun s => (Cause e, Write (B "formatter") s));
     asFmtFormatter := fun _ => None;
     asGoStringer := fun _ => None |}.

(** Handlers: [declining] never handles an error and writes nothing,
    [accepting] handles every error with the text ["special"]. *)
Definition declining : safeErrorPrinterFn :=
  fun _ s _ => ((false, None), s).

Definition accepting : safeErrorPrinterFn :=
  fun err s _ => ((true, err), Write (B "special") s).


(** The outermost link as a [Formatter] that prints ["load failed"] and
    returns nil; the other links have no formatting method. *)
Definition hiding : Methods :=
  {| asFormatter := fun e =>
       if bool_decide (addr e = 3)
       then Some (fun s => (None, Write (B "load failed") s))
       else None;
     asFmtFormatter := fun _ => None;
     asGoStringer := fun _ => None |}.

(** A [fmt.Sprintf] that shows the format and the text it is given, and
    the state of a directive [%-30q]. *)
Definition echoing : Library :=
  {| sprintStackTrace := fun _ => [];
     fmtSprintf := fun format text => format ++ B "<" ++ text ++ B ">";
     prettySprint := fun _ => [] |}.

Definition padded : fmtState :=
  {| Flag := fun c => bool_decide (c = rune "-"); Width := (30, true);
     Precision := (0, false); written := [] |}.

(** Two values of a struct type that holds a slice,
    [codesErr{codes: []int{...}}]: values of this type cannot be compared.
    The type has a method [Is] that accepts every reference. *)
Definition coded : error :=
  {| addr := 7; TypeOf := B "main.codesErr"; Error := B "codes";
     Cause := None; StackTraceOf := None;
     nilTrace := false |}.

Definition codedRef : error :=
  {| addr := 8; TypeOf := B "main.codesErr"; Error := B "codes";
     Cause := None; StackTraceOf := None;
     nilTrace := false |}.

Definition structValues : errors.Comparison :=
  {| errors.uncomparable := fun a _ => bool_decide (TypeOf a = B "main.codesErr") |}.

Definition isAlways : errors.IsMethod :=
  {| errors.asIs := fun e =>
       if bool_decide (TypeOf e = B "main.codesErr")
       then Some (fun _ => true) else None |}.

(** No error has a method [Is]. *)
Definition noIs : errors.IsMethod := {| errors.asIs := fun _ => None |}.

End scenario.

(* ================================================================== *)
(** * Part II: the proofs *)
(* ================================================================== *)

(** ** Slices *)

Lemma index_lt {A} (xs : list A) i :
  (i < length xs)%nat -> exists x, xs !! i = Some x /\ index xs i = Return x.
Proof.
  intros Hi. destruct (lookup_lt_is_Some_2 xs i Hi) as [x Hx].
  exists x. split; [done|]. unfold index. by rewrite Hx.
Qed.

Lemma rev_take_S {A} (xs : list A) i x :
  xs !! i = Some x -> rev (take (S i) xs) = x :: rev (take i xs).
Proof.
  intros Hx. rewrite (take_S_r _ _ _ Hx), rev_app_distr. done.
Qed.

(** ** Stack suffix deduplication *)

Section ElideSharedStackTraceSuffix_facts.
Import errbase.

Lemma skipCommonSuffix_le newStack prevStack i j :
  (skipCommonSuffix newStack prevStack i j <= i)%nat.
Proof.
  revert j. induction i as [|i IH]; intros [|j]; simpl; try lia.
  case_bool_decide; [specialize (IH j); lia | lia].
Qed.

Lemma turns_step x x' a y y' b :
  turns (x :: x' :: a) (y :: y' :: b) =
  if bool_decide (x = y) then S (turns (x' :: a) (y' :: b)) else 0%nat.
Proof. reflexivity. Qed.

Lemma turns_commonPrefixLen a b :
  (turns a b <= commonPrefixLen a b <= S (turns a b))%nat.
Proof.
  revert b. induction a as [|x a IH]; intros [|y b];
    [simpl; lia | simpl; lia | destruct a; simpl; lia |].
  destruct a as [|x' a].
  { simpl. case_bool_decide; simpl; lia. }
  destruct b as [|y' b].
  { simpl. case_bool_decide; simpl; lia. }
  specialize (IH (y' :: b)).
  rewrite turns_step.
  change (commonPrefixLen (x :: x' :: a) (y :: y' :: b))
    with (if bool_decide (x = y) then S (commonPrefixLen (x' :: a) (y' :: b)) else 0%nat).
  case_bool_decide; lia.
Qed.

Lemma commonPrefixLen_le a b : (commonPrefixLen a b <= length a)%nat.
Proof.
  revert b. induction a as [|x a IH]; intros [|y b]; simpl; try lia.
  case_bool_decide; [specialize (IH b)|]; lia.
Qed.

Lemma skipCommonSuffix_turns newStack prevStack i : forall j,
  (i < length newStack)%nat -> (j < length prevStack)%nat ->
  skipCommonSuffix newStack prevStack i j =
  (i - turns (rev (take (S i) newStack)) (rev (take (S j) prevStack)))%nat.
Proof.
  induction i as [|i IH]; intros j Hi Hj.
  - by destruct j.
  - destruct (lookup_lt_is_Some_2 newStack (S i) Hi) as [x Hx].
    destruct (lookup_lt_is_Some_2 prevStack j Hj) as [y Hy].
    rewrite (rev_take_S _ _ _ Hx), (rev_take_S _ _ _ Hy).
    destruct (lookup_lt_is_Some_2 newStack i ltac:(lia)) as [x' Hx'].
    rewrite (rev_take_S _ _ _ Hx').
    destruct j as [|j].
    + reflexivity.
    + destruct (lookup_lt_is_Some_2 prevStack j ltac:(lia)) as [y' Hy'].
      rewrite (rev_take_S _ _ _ Hy').
      cbn [skipCommonSuffix]. rewrite turns_step.
      rewrite !nth_lookup, Hx, Hy. cbn [default from_option id].
      case_bool_decide.
      * rewrite IH by lia.
        rewrite (rev_take_S _ _ _ Hx'), (rev_take_S _ _ _ Hy').
        lia.
      * lia.
Qed.

Lemma take_prefix_cases {A} (xs : list A) n k :
  (n <= k <= S n)%nat ->
  take n xs = take k xs \/ exists x, take n xs ++ [x] = take k xs.
Proof.
  intros Hk. destruct (decide (k = n)) as [->|Hne]; [by left|].
  assert (k = S n) as -> by lia.
  destruct (xs !! n) as [x|] eqn:Hx.
  - right. exists x. by rewrite (take_S_r _ _ _ Hx).
  - left. apply lookup_ge_None in Hx. by rewrite !take_ge by lia.
Qed.

End ElideSharedStackTraceSuffix_facts.

(** X1.  The trace that [ElideSharedStackTraceSuffix] returns is a prefix
    of [newStack], and it keeps at least one frame of a [newStack] that
    has one. *)
Theorem X1_elide_keeps_nonempty_prefix (prevStack newStack : errbase.StackTrace) :
  (exists dropped,
     newStack = (errbase.ElideSharedStackTraceSuffix prevStack newStack).1 ++ dropped) /\
  (newStack = [] \/
   (1 <= length (errbase.ElideSharedStackTraceSuffix prevStack newStack).1)%nat).
Proof.
  unfold errbase.ElideSharedStackTraceSuffix. split.
  - destruct (length prevStack =? 0)%nat; [exists []; simpl; by rewrite app_nil_r|].
    destruct (length newStack =? 0)%nat; [exists []; simpl; by rewrite app_nil_r|].
    simpl. eexists. symmetry. apply take_drop.
  - destruct newStack as [|f newStack]; [by left|right].
    destruct (length prevStack =? 0)%nat; [simpl; lia|].
    cbn [length Nat.eqb fst]. rewrite length_take. cbn [length].
    destruct (errbase.skipCommonSuffix _ _ _ _ =? 0)%nat eqn:E.
    + lia.
    + apply Nat.eqb_neq in E. lia.
Qed.

(** X2.  The flag of [ElideSharedStackTraceSuffix] is raised exactly when
    two frames or more of [newStack] are missing from the trace it
    returns. *)
Theorem X2_elide_flag_two_dropped (prevStack newStack : errbase.StackTrace) :
  (errbase.ElideSharedStackTraceSuffix prevStack newStack).2 = true <->
  (2 <= errbase.framesDropped prevStack newStack)%nat.
Proof.
  unfold errbase.framesDropped, errbase.ElideSharedStackTraceSuffix.
  destruct (length prevStack =? 0)%nat eqn:Ep; [simpl; split; [done|lia]|].
  destruct (length newStack =? 0)%nat eqn:En; [simpl; split; [done|lia]|].
  apply Nat.eqb_neq in En. cbn [fst snd].
  pose proof (skipCommonSuffix_le newStack prevStack
                (length newStack - 1) (length prevStack - 1)) as Hle.
  rewrite length_take, Nat.ltb_lt.
  destruct (errbase.skipCommonSuffix _ _ _ _ =? 0)%nat eqn:E.
  - lia.
  - apply Nat.eqb_neq in E. lia.
Qed.

(** X3.  The trace that [ElideSharedStackTraceSuffix] returns is the one
    its documentation describes, [newStack] without the suffix it shares
    with [prevStack] and with one frame at least, or that trace without
    its last frame. *)
Theorem X3_elide_spec_or_one_less (prevStack newStack : errbase.StackTrace) :
  (errbase.ElideSharedStackTraceSuffix prevStack newStack).1 =
    errbase.elideSharedSuffix_spec prevStack newStack \/
  exists f,
    (errbase.ElideSharedStackTraceSuffix prevStack newStack).1 ++ [f] =
    errbase.elideSharedSuffix_spec prevStack newStack.
Proof.
  unfold errbase.ElideSharedStackTraceSuffix, errbase.elideSharedSuffix_spec,
    errbase.sharedSuffixLen.
  destruct (length prevStack =? 0)%nat eqn:Ep.
  { left. apply Nat.eqb_eq in Ep. destruct prevStack; [|discriminate].
    cbn [fst rev]. replace (errbase.commonPrefixLen (rev newStack) []) with 0%nat
      by (by destruct (rev newStack)).
    rewrite take_ge; [done|lia]. }
  destruct (length newStack =? 0)%nat eqn:En.
  { left. apply Nat.eqb_eq in En. by destruct newStack. }
  apply Nat.eqb_neq in Ep, En. cbn [fst].
  rewrite skipCommonSuffix_turns by lia.
  replace (S (length newStack - 1)) with (length newStack) by lia.
  replace (S (length prevStack - 1)) with (length prevStack) by lia.
  rewrite !firstn_all.
  pose proof (turns_commonPrefixLen (rev newStack) (rev prevStack)) as Ht.
  pose proof (commonPrefixLen_le (rev newStack) (rev prevStack)) as Hc.
  rewrite length_rev in Hc.
  apply take_prefix_cases.
  destruct (_ =? 0)%nat eqn:E; [apply Nat.eqb_eq in E|apply Nat.eqb_neq in E]; lia.
Qed.


(** C1.  The specification and the documentation of
    [ElideSharedStackTraceSuffix] have the returned trace be [newStack]
    without exactly the suffix it shares with [prevStack].  The code drops
    the frame at which the two traces diverge as well: for
    [prevStack = [7; 8; 9]] and [newStack = [1; 2; 3]], which share no
    frame, it returns [[1; 2]] where all three frames should be kept. *)
Lemma C1_elide_drops_unshared_frame :
  errbase.ElideSharedStackTraceSuffix [7; 8; 9] [1; 2; 3] = ([1; 2], false) /\
  errbase.sharedSuffixLen [7; 8; 9] [1; 2; 3] = 0%nat /\
  errbase.elideSharedSuffix_spec [7; 8; 9] [1; 2; 3] = [1; 2; 3].
Proof. repeat split. Qed.

(** C2.  The specification and the documentation of
    [ElideSharedStackTraceSuffix] have the flag be true as soon as one
    frame of [newStack] is dropped.  For [prevStack = [7; 2]] and
    [newStack = [1; 2]] the code drops the shared frame [2] and returns
    the flag [false]. *)
Lemma C2_elide_flag_misses_single_drop :
  errbase.ElideSharedStackTraceSuffix [7; 2] [1; 2] = ([1], false) /\
  errbase.framesDropped [7; 2] [1; 2] = 1%nat.
Proof. repeat split. Qed.

(** ** The single-line rendering *)

Section formatSingleLineOutput_facts.
Import errbase.

Lemma withFinalBuf_finalBufWrite b c s :
  withFinalBuf b (finalBufWrite c s) = withFinalBuf b s.
Proof. by destruct s. Qed.

Lemma withFinalBuf_withFinalBuf b c s :
  withFinalBuf b (withFinalBuf c s) = withFinalBuf b s.
Proof. by destruct s. Qed.

Lemma withFinalBuf_same s : withFinalBuf (finalBuf s) s = s.
Proof. by destruct s. Qed.

Lemma finalBufWrite_finalBufWrite b c s :
  finalBufWrite c (finalBufWrite b s) = finalBufWrite (b ++ c) s.
Proof. destruct s. unfold finalBufWrite. simpl. by rewrite <- app_assoc. Qed.

Lemma finalBufWrite_withFinalBuf b c s :
  finalBufWrite c (withFinalBuf b s) = withFinalBuf (b ++ c) s.
Proof. by destruct s. Qed.

Lemma singleLineFrom_appendHeads n s :
  (n <= length (entries s))%nat ->
  singleLineFrom n s =
  Return (withFinalBuf
            (appendHeads (finalBuf s)
               (map head (List.filter shownInSummary (rev (take n (entries s))))))
            s).
Proof.
  revert s. induction n as [|i IH]; intros s Hn.
  - simpl. by rewrite withFinalBuf_same.
  - destruct (index_lt (entries s) i) as (e & He & Hidx); [lia|].
    cbn [singleLineFrom]. rewrite Hidx. cbn [mbind outcome_bind].
    rewrite (rev_take_S _ _ _ He). cbn [List.filter].
    unfold shownInSummary at 1.
    destruct (elideShort e) eqn:Eel; cbn [negb andb].
    { apply IH. lia. }
    destruct (length (head e) =? 0)%nat eqn:Eh.
    + apply Nat.eqb_eq in Eh.
      replace (0 <? length (head e))%nat with false
        by (symmetry; apply Nat.ltb_ge; lia).
      rewrite andb_false_r. cbn [negb]. apply IH. lia.
    + apply Nat.eqb_neq in Eh.
      replace (0 <? length (head e))%nat with true
        by (symmetry; apply Nat.ltb_lt; lia).
      rewrite andb_true_r. cbn [negb map]. unfold appendHeads. cbn [fold_left].
      destruct (0 <? length (finalBuf s))%nat.
      * rewrite IH by (destruct s; simpl in *; lia).
        rewrite finalBufWrite_finalBufWrite, withFinalBuf_finalBufWrite.
        destruct s. unfold appendHeads, finalBufWrite. simpl.
        by rewrite <- !app_assoc.
      * rewrite IH by (destruct s; simpl in *; lia).
        rewrite withFinalBuf_finalBufWrite. by destruct s.
Qed.

Lemma joinWith_cons sep p ps :
  joinWith sep (p :: ps) = p ++ concat (map (fun q => sep ++ q) ps).
Proof.
  revert p. induction ps as [|q ps IH]; intros p.
  - simpl. by rewrite app_nil_r.
  - change (joinWith sep (p :: q :: ps)) with (p ++ sep ++ joinWith sep (q :: ps)).
    rewrite IH. simpl. by rewrite <- app_assoc.
Qed.

Lemma appendHeads_nonempty acc parts :
  acc <> [] ->
  appendHeads acc parts = acc ++ concat (map (fun q => B ": " ++ q) parts).
Proof.
  revert acc. induction parts as [|p parts IH]; intros acc Hacc.
  - simpl. by rewrite app_nil_r.
  - unfold appendHeads. cbn [fold_left].
    replace (0 <? length acc)%nat with true
      by (symmetry; apply Nat.ltb_lt; destruct acc; simpl; [done|lia]).
    fold (appendHeads ((acc ++ B ": ") ++ p) parts).
    rewrite IH by (destruct acc; simpl; done).
    simpl. by rewrite <- !app_assoc.
Qed.

Lemma appendHeads_joinWith parts :
  Forall (fun p => p <> []) parts ->
  appendHeads [] parts = joinWith (B ": ") parts.
Proof.
  intros Hall. destruct parts as [|p parts]; [done|].
  inversion Hall as [|? ? Hp Hparts]; subst.
  change (appendHeads [] (p :: parts)) with (appendHeads p parts).
  by rewrite appendHeads_nonempty, joinWith_cons.
Qed.

Lemma shown_heads_nonempty es :
  Forall (fun p => p <> []) (map head (List.filter shownInSummary es)).
Proof.
  induction es as [|e es IH]; [constructor|].
  cbn [List.filter]. destruct (shownInSummary e) eqn:E; [|done].
  cbn [map]. constructor; [|done].
  unfold shownInSummary in E. apply andb_true_iff in E as [_ E].
  intros Hnil. rewrite Hnil in E. done.
Qed.

Lemma formatSingleLineOutput_summary s :
  finalBuf s = [] ->
  formatSingleLineOutput s =
  Return (withFinalBuf (summary (rev (entries s))) s).
Proof.
  intros Hempty. unfold formatSingleLineOutput.
  rewrite singleLineFrom_appendHeads by lia.
  rewrite firstn_all, Hempty. unfold summary.
  by rewrite appendHeads_joinWith by apply shown_heads_nonempty.
Qed.

End formatSingleLineOutput_facts.

(** C3.  Entered with an empty output buffer, [formatSingleLineOutput]
    writes the heads of the entries that are not flagged elide-short and
    whose head is not empty, from the outermost to the innermost, with
    [": "] between each two of them and nowhere else. *)
Theorem C3_single_line_is_joined_heads (s : errbase.state) :
  errbase.finalBuf s = [] ->
  errbase.formatSingleLineOutput s =
  Return (errbase.withFinalBuf (errbase.summary (rev (errbase.entries s))) s).
Proof. apply formatSingleLineOutput_summary. Qed.

Lemma C3_single_line_witness :
  errbase.finalBuf scenario.collected = [] /\
  errbase.formatSingleLineOutput scenario.collected =
  Return (errbase.withFinalBuf
            (errbase.summary (rev (errbase.entries scenario.collected)))
            scenario.collected).
Proof.
  split; [reflexivity|].
  apply (C3_single_line_is_joined_heads scenario.collected). reflexivity.
Defined.

(** The scenario of the specification renders as ["read config: boom"]. *)
Example single_line_scenario :
  errbase.summary (rev (errbase.entries scenario.collected)) = B "read config: boom" /\
  @errbase.formatErrorInternal scenario.noMethods scenario.library
    [] (Some scenario.outer) scenario.plain (rune "v") =
  Return (errbase.fmtWrite scenario.plain (B "read config: boom")).
Proof. split; reflexivity. Qed.

(** ** The detailed rendering *)

Section formatEntries_facts.
Import errbase.
Context {L : Library}.

Lemma finalBufWrite_nil s : finalBufWrite [] s = s.
Proof. destruct s. unfold finalBufWrite. simpl. by rewrite app_nil_r. Qed.

Lemma entries_finalBufWrite b s : entries (finalBufWrite b s) = entries s.
Proof. done. Qed.

Lemma entries_withFinalBuf b s : entries (withFinalBuf b s) = entries s.
Proof. done. Qed.

Lemma printEntry_entryText entry s :
  printEntry entry s = finalBufWrite (entryText entry) s.
Proof.
  destruct entry as [e h d st short elided].
  unfold printEntry, entryText, lead. cbn [head details stackTrace elidedStackTrace].
  destruct h as [|c h].
  - cbn [length Nat.ltb Nat.leb Nat.eqb app].
    destruct d as [|c' d].
    + cbn [length Nat.ltb Nat.leb app].
      destruct st as [st|]; [|by rewrite finalBufWrite_nil].
      destruct elided; rewrite !finalBufWrite_finalBufWrite;
        by rewrite ?app_nil_r, <- ?app_assoc.
    + cbn [length Nat.ltb Nat.leb lookup list_lookup negb].
      replace (bool_decide (Some c' = Some LF)) with (bool_decide (c' = LF))
        by (apply bool_decide_ext; split; congruence).
      destruct st as [st|]; destruct (bool_decide (c' = LF)); cbn [negb];
        try destruct elided; rewrite ?finalBufWrite_finalBufWrite;
        by rewrite ?app_nil_r, <- ?app_assoc.
  - cbn [length Nat.ltb Nat.leb Nat.eqb lookup list_lookup].
    replace (bool_decide (Some c = Some LF)) with (bool_decide (c = LF))
      by (apply bool_decide_ext; split; congruence).
    destruct d as [|c' d]; cbn [length Nat.ltb Nat.leb app];
      destruct st as [st|]; destruct (bool_decide (c = LF)); cbn [negb];
      try destruct elided; rewrite ?finalBufWrite_finalBufWrite;
      by rewrite ?app_nil_r, <- ?app_assoc.
Qed.

Lemma wrapsFrom_items n j s :
  (n <= length (entries s))%nat ->
  wrapsFrom n j s =
  Return (finalBufWrite
            (concat (imap (wrapsItemFrom j) (rev (take n (entries s))))) s).
Proof.
  revert j s. induction n as [|i IH]; intros j s Hn.
  - simpl. by rewrite finalBufWrite_nil.
  - destruct (index_lt (entries s) i) as (e & He & Hidx); [lia|].
    cbn [wrapsFrom]. rewrite entries_finalBufWrite, Hidx.
    cbn [mbind outcome_bind].
    rewrite printEntry_entryText, finalBufWrite_finalBufWrite.
    rewrite IH by (rewrite entries_finalBufWrite; lia).
    rewrite entries_finalBufWrite, finalBufWrite_finalBufWrite.
    rewrite (rev_take_S _ _ _ He). cbn [imap concat].
    do 2 f_equal. f_equal.
    + unfold wrapsItemFrom. by rewrite Z.add_0_r.
    + f_equal. apply imap_ext. intros k x _. unfold wrapsItemFrom, compose.
      by replace (j + 1 + Z.of_nat k) with (j + Z.of_nat (S k)) by lia.
Qed.

Lemma typesFrom_items n j s :
  (n <= length (entries s))%nat ->
  typesFrom n j s =
  Return (finalBufWrite
            (concat (imap (typeItemFrom j) (rev (take n (entries s))))) s).
Proof.
  revert j s. induction n as [|i IH]; intros j s Hn.
  - simpl. by rewrite finalBufWrite_nil.
  - destruct (index_lt (entries s) i) as (e & He & Hidx); [lia|].
    cbn [typesFrom]. rewrite Hidx. cbn [mbind outcome_bind].
    rewrite IH by (rewrite entries_finalBufWrite; lia).
    rewrite entries_finalBufWrite, finalBufWrite_finalBufWrite.
    rewrite (rev_take_S _ _ _ He). cbn [imap concat].
    do 2 f_equal. f_equal.
    + unfold typeItemFrom. by rewrite Z.add_0_r.
    + f_equal. apply imap_ext. intros k x _. unfold typeItemFrom, compose.
      by replace (j + 1 + Z.of_nat k) with (j + Z.of_nat (S k)) by lia.
Qed.

Lemma formatEntries_detailed err s outer rest :
  finalBuf s = [] ->
  entries s = rev (outer :: rest) ->
  formatEntries err s = Return (withFinalBuf (detailed outer rest) s).
Proof.
  intros Hempty Hentries. unfold formatEntries.
  rewrite (formatSingleLineOutput_summary s Hempty).
  cbn [mbind outcome_bind].
  rewrite Hentries, rev_involutive.
  rewrite entries_finalBufWrite, entries_withFinalBuf, Hentries.
  cbn [rev]. rewrite length_app, Nat.add_comm. cbn [length Nat.add].
  unfold index at 1. rewrite lookup_app_r by lia.
  rewrite Nat.sub_diag. cbn [lookup list_lookup mbind outcome_bind].
  rewrite printEntry_entryText.
  rewrite wrapsFrom_items
    by (rewrite !entries_finalBufWrite, entries_withFinalBuf, Hentries;
        cbn [rev]; rewrite length_app; simpl; lia).
  cbn [mbind outcome_bind].
  rewrite typesFrom_items
    by (rewrite !entries_finalBufWrite, entries_withFinalBuf, Hentries;
        cbn [rev]; rewrite length_app; simpl; lia).
  rewrite !entries_finalBufWrite, entries_withFinalBuf, Hentries. cbn [rev].
  rewrite firstn_all.
  replace (length (rev rest ++ [outer]) - 1)%nat with (length (rev rest))
    by (rewrite length_app; simpl; lia).
  rewrite take_app_length.
  rewrite rev_app_distr, !rev_involutive. cbn [rev app].
  rewrite !finalBufWrite_finalBufWrite, finalBufWrite_withFinalBuf.
  f_equal. f_equal. unfold detailed. rewrite <- ?app_assoc.
  assert (imap (wrapsItemFrom 2) rest =
          imap (fun k entry => wrapsItem (k + 2) entry) rest) as ->.
  { apply imap_ext. intros k x _. unfold wrapsItemFrom, wrapsItem.
    by replace (2 + Z.of_nat k) with (Z.of_nat (k + 2)) by lia. }
  assert (imap (typeItemFrom 1) (outer :: rest) =
          imap (fun k entry => typeItem (k + 1) entry) (outer :: rest)) as ->.
  { apply imap_ext. intros k x _. unfold typeItemFrom, typeItem.
    by replace (1 + Z.of_nat k) with (Z.of_nat (k + 1)) by lia. }
  reflexivity.
Qed.

End formatEntries_facts.

(** C4.  Entered with an empty output buffer and the entries of a chain,
    [formatEntries] writes the single-line summary, then the outermost
    entry under the label [(1)], then each further entry down to the leaf
    under [Wraps: (N)], N counting up from 2, and last the footer
    [Error types:] with [(N) type] for each entry from the outermost, 1, to
    the leaf.  For three links the labels are [(1)], [Wraps: (2)] and
    [Wraps: (3)] and the footer lists the outermost, the middle and the
    leaf type at 1, 2 and 3. *)
Theorem C4_detailed_numbering {L : errbase.Library}
    (err : option errbase.error) (s : errbase.state) :
  errbase.finalBuf s = [] ->
  (forall outer rest,
     errbase.entries s = rev (outer :: rest) ->
     errbase.formatEntries err s =
     Return (errbase.withFinalBuf (errbase.detailed outer rest) s)) /\
  (forall outer middle leaf,
     errbase.entries s = [leaf; middle; outer] ->
     errbase.formatEntries err s =
     Return (errbase.withFinalBuf
               (errbase.summary [outer; middle; leaf] ++
                (LF :: B "(1)") ++ errbase.entryText outer ++
                (LF :: B "Wraps: (2)") ++ errbase.entryText middle ++
                (LF :: B "Wraps: (3)") ++ errbase.entryText leaf ++
                (LF :: B "Error types:") ++
                B " (1) " ++ errbase.typeString (errbase.err outer) ++
                B " (2) " ++ errbase.typeString (errbase.err middle) ++
                B " (3) " ++ errbase.typeString (errbase.err leaf))
               s)).
Proof.
  intros Hempty. split.
  - intros outer rest Hentries. by apply formatEntries_detailed.
  - intros outer middle leaf Hentries.
    rewrite (formatEntries_detailed err s outer [middle; leaf] Hempty Hentries).
    unfold errbase.detailed, errbase.wrapsItem, errbase.typeItem.
    cbn [imap concat compose Nat.add]. 
    do 2 f_equal. rewrite ?app_nil_r, <- ?app_assoc. reflexivity.
Qed.

Lemma C4_detailed_numbering_witness :
  errbase.finalBuf scenario.collected = [] /\
  errbase.entries scenario.collected =
  rev [errbase.withStackTrace [10; 20; 30] false (scenario.entryOf scenario.outer []);
       scenario.entryOf scenario.middle (B "read config");
       scenario.entryOf scenario.leaf (B "boom")] /\
  @errbase.formatEntries scenario.library (Some scenario.outer) scenario.collected =
  Return (errbase.withFinalBuf
            (@errbase.detailed scenario.library
               (errbase.withStackTrace [10; 20; 30] false
                  (scenario.entryOf scenario.outer []))
               [scenario.entryOf scenario.middle (B "read config");
                scenario.entryOf scenario.leaf (B "boom")])
            scenario.collected).
Proof.
  split; [reflexivity|]. split; [reflexivity|].
  apply (proj1 (@C4_detailed_numbering scenario.library (Some scenario.outer)
                  scenario.collected eq_refl) _ _).
  reflexivity.
Defined.

(** The detailed rendering of the scenario of the specification. *)
Example detailed_scenario :
  @errbase.formatErrorInternal scenario.noMethods scenario.library
    [] (Some scenario.outer) scenario.plus (rune "v") =
  Return (errbase.fmtWrite scenario.plus
            (B "read config: boom" ++
             (LF :: B "(1)") ++
             (LF :: B "  -- stack trace:") ++
             (LF :: B "  | pc 10") ++ (LF :: B "  | pc 20") ++ (LF :: B "  | pc 30") ++
             (LF :: B "Wraps: (2) read config") ++
             (LF :: B "Wraps: (3) boom") ++
             (LF :: B "Error types: (1) *withstack.withStack (2) *errutil.withPrefix (3) *errutil.leafError"))).
Proof. reflexivity. Qed.

(** ** Induction along a chain *)

Lemma error_chain_ind (P : errbase.error -> Prop) :
  (forall e, (forall c, errbase.Cause e = Some c -> P c) -> P e) ->
  forall e, P e.
Proof.
  intros step. fix IH 1. intros [a t m c st]. apply step. simpl.
  intros c' Hc. destruct c as [c0|]; [|discriminate].
  injection Hc as <-. apply IH.
Qed.

(** ** Is *)

Section Is_facts.
Import errbase errors.
Context {C : Comparison} {I : IsMethod}.

(** The comparison of a link with the reference, when it does not
    panic. *)
Lemma equal_returns c reference :
  (TypeOf c = TypeOf reference -> uncomparable c reference = false) ->
  equal (Some c) (Some reference) =
  Return (bool_decide (TypeOf c = TypeOf reference /\ addr c = addr reference)).
Proof.
  intros Hsafe. unfold equal. case_bool_decide as Htype.
  - rewrite (Hsafe Htype). f_equal.
    repeat case_bool_decide; tauto.
  - f_equal. symmetry. apply bool_decide_eq_false. tauto.
Qed.

Lemma equal_panics c reference :
  (exists why, equal (Some c) (Some reference) = Panic why) <->
  TypeOf c = TypeOf reference /\ uncomparable c reference = true.
Proof.
  unfold equal. case_bool_decide as Htype.
  - destruct (uncomparable c reference); split.
    + by intros _.
    + intros _. by eexists.
    + by intros [why ?].
    + by intros [_ ?].
  - split; [by intros [why ?]|]. by intros [? _].
Qed.

(** The loop when no comparison panics. *)
Lemma isFrom_links c reference :
  (forall l, l ∈ links c -> TypeOf l = TypeOf reference ->
             uncomparable l reference = false) ->
  exists found,
    isFrom c (Some reference) = Return found /\
    (found = true <->
     exists l, l ∈ links c /\
               (equal (Some l) (Some reference) = Return true \/
                tryDelegateToIsMethod (Some l) (Some reference) = true)).
Proof.
  induction c as [c IH] using error_chain_ind. intros Hsafe.
  assert (forall l, l ∈ links c ->
            equal (Some l) (Some reference) =
            Return (bool_decide (TypeOf l = TypeOf reference /\
                                 addr l = addr reference))) as Heq.
  { intros l Hl. apply equal_returns. by apply Hsafe. }
  destruct c as [a t m [c'|] st nl]; cbn [isFrom links UnwrapOnce Cause] in *.
  - set (e := {| addr := a; TypeOf := t; Error := m; Cause := Some c';
                 StackTraceOf := st; nilTrace := nl |}) in *.
    rewrite (Heq e) by (apply elem_of_cons; by left). cbn [mbind outcome_bind].
    destruct (bool_decide (TypeOf e = TypeOf reference /\ _)) eqn:Esame.
    { exists true. split; [done|]. split; [|done]. intros _. exists e.
      split; [apply elem_of_cons; by left|]. left.
      by rewrite (Heq e), Esame by (apply elem_of_cons; by left). }
    destruct (tryDelegateToIsMethod (Some e) (Some reference)) eqn:Edel.
    { exists true. split; [done|]. split; [|done]. intros _. exists e.
      split; [apply elem_of_cons; by left|]. by right. }
    destruct (IH c' eq_refl) as (found & Hrun & Hfound).
    { intros l Hl. apply Hsafe. apply elem_of_cons. by right. }
    exists found. split; [done|]. rewrite Hfound. split.
    + intros (l & Hl & Hm). exists l. split; [apply elem_of_cons; by right|done].
    + intros (l & Hl & Hm). apply elem_of_cons in Hl as [->|Hl]; [|by exists l].
      rewrite (Heq e), Esame in Hm by (apply elem_of_cons; by left).
      destruct Hm; congruence.
  - set (e := {| addr := a; TypeOf := t; Error := m; Cause := None;
                 StackTraceOf := st; nilTrace := nl |}) in *.
    rewrite (Heq e) by (apply elem_of_cons; by left). cbn [mbind outcome_bind].
    destruct (bool_decide (TypeOf e = TypeOf reference /\ _)) eqn:Esame.
    { exists true. split; [done|]. split; [|done]. intros _. exists e.
      split; [apply elem_of_cons; by left|]. left.
      by rewrite (Heq e), Esame by (apply elem_of_cons; by left). }
    destruct (tryDelegateToIsMethod (Some e) (Some reference)) eqn:Edel.
    { exists true. split; [done|]. split; [|done]. intros _. exists e.
      split; [apply elem_of_cons; by left|]. by right. }
    exists false. split; [done|]. split; [done|].
    intros (l & Hl & Hm). apply elem_of_cons in Hl as [->|Hl].
    + rewrite (Heq e), Esame in Hm by (apply elem_of_cons; by left).
      destruct Hm; congruence.
    + by apply elem_of_nil in Hl.
Qed.

(** A comparison that panics at the outermost link stops the loop. *)
Lemma isFrom_panics c reference why :
  equal (Some c) reference = Panic why -> isFrom c reference = Panic why.
Proof. intros Hpanic. destruct c. cbn [isFrom]. by rewrite Hpanic. Qed.

End Is_facts.

(** C5.  The claim does not hold of the code at a reference whose dynamic
    type cannot be compared.  Take [codesErr], a struct type that holds a
    slice and has a method [Is] that accepts every reference, and two
    values of it, [err] and [reference].  The claim says that
    [Is(err, reference)] returns true, since a link of [err] has a method
    [Is] that returns true for the reference; the doc comment of [Is] says
    the same, "As in the Go standard library".  The code compares first,
    [err == reference], with no test that the type is comparable, and
    panics there: the method [Is] is never asked. *)
Theorem C5_Is_panics_on_uncomparable :
  errors.tryDelegateToIsMethod (I := scenario.isAlways)
    (Some scenario.coded) (Some scenario.codedRef) = true /\
  errors.Is (C := scenario.structValues) (I := scenario.isAlways)
    (Some scenario.coded) (Some scenario.codedRef) =
  Panic "comparing uncomparable type".
Proof. split; reflexivity. Qed.

(** Two errors with the same message are not matched for that. *)
Example Is_ignores_messages :
  errbase.Error scenario.otherBoom = errbase.Error scenario.leaf /\
  errors.Is (C := scenario.structValues) (I := scenario.noIs)
    (Some scenario.outer) (Some scenario.otherBoom) = Return false /\
  errors.Is (C := scenario.structValues) (I := scenario.noIs)
    (Some scenario.outer) (Some scenario.leaf) = Return true.
Proof. repeat split. Qed.

(** ** The special-case registry *)

Section specialCases_facts.
Import errbase.

Lemma runSpecialCases_first_accepting
    (pre : list safeErrorPrinterFn) (Y : safeErrorPrinterFn)
    (post : list safeErrorPrinterFn) err isLeaf s :
  allDecline pre err isLeaf s ->
  (Y err (afterDeclined pre err isLeaf s) isLeaf).1.1 = true ->
  runSpecialCases (pre ++ Y :: post) err isLeaf s =
  (true, handledBy (Y err (afterDeclined pre err isLeaf s) isLeaf)).
Proof.
  revert s. induction pre as [|X pre IH]; intros s Hpre HY.
  - cbn [app runSpecialCases afterDeclined] in *.
    unfold handledBy. destruct (Y err s isLeaf) as [[handled next] s'].
    simpl in HY. subst handled. done.
  - destruct Hpre as [HX Hpre]. cbn [app runSpecialCases afterDeclined] in *.
    destruct (X err s isLeaf) as [[handled next] s'].
    simpl in HX, Hpre, HY |- *. subst handled. by apply IH.
Qed.

End specialCases_facts.

(** C6.  For a link, the handlers run before the default dispatch and in
    the order of their registration.  When the handlers [pre] all decline
    and the next one, [Y], handles the error, the link is rendered from the
    answer of [Y] alone: the handlers registered after [Y] and the default
    dispatch ([Formatter], [fmt.Formatter], the simple fallback) have no
    part in the result, which is the same whatever they are.  Registering
    [X] and then [Y] gives the list [[X; Y]], so with [X] declining and [Y]
    accepting it is the output of [Y] that is used. *)
Theorem C6_first_accepting_handler_wins {M : errbase.Methods}
    (pre post : list errbase.safeErrorPrinterFn) (Y : errbase.safeErrorPrinterFn)
    (err cause : option errbase.error) (isOutermost withDetail : bool)
    (s : errbase.state) :
  let isLeaf := errbase.isNil cause in
  let s0 := errbase.reinit withDetail s in
  errbase.allDecline pre err isLeaf s0 ->
  (Y err (errbase.afterDeclined pre err isLeaf s0) isLeaf).1.1 = true ->
  let handled := errbase.handledBy (Y err (errbase.afterDeclined pre err isLeaf s0) isLeaf) in
  errbase.runSpecialCases (pre ++ Y :: post) err isLeaf s0 = (true, handled) /\
  errbase.formatLink (pre ++ Y :: post) err cause isOutermost withDetail s =
    Return (errbase.collectLink err false handled) /\
  (forall (M' : errbase.Methods) post',
     @errbase.formatLink M' (pre ++ Y :: post') err cause isOutermost withDetail s =
     errbase.formatLink (pre ++ Y :: post) err cause isOutermost withDetail s) /\
  (forall X,
     errbase.RegisterSpecialCasePrinter Y (errbase.RegisterSpecialCasePrinter X []) =
     [X; Y]).
Proof.
  intros isLeaf s0 Hpre HY handled.
  assert (forall (M' : errbase.Methods) post',
             @errbase.formatLink M' (pre ++ Y :: post') err cause isOutermost withDetail s =
             Return (errbase.collectLink err false handled)) as Hlink.
  { intros M' post'. unfold errbase.formatLink. cbv zeta.
    fold s0. fold isLeaf.
    rewrite (runSpecialCases_first_accepting pre Y post' err isLeaf s0 Hpre HY).
    reflexivity. }
  split; [by apply runSpecialCases_first_accepting|].
  split; [apply Hlink|].
  split; [intros M' post'; by rewrite !Hlink|].
  intros X. reflexivity.
Qed.

Lemma C6_first_accepting_handler_witness :
  let s0 := errbase.reinit false (errbase.newState scenario.plain) in
  errbase.allDecline [scenario.declining] (Some scenario.leaf) true s0 /\
  (scenario.accepting (Some scenario.leaf)
     (errbase.afterDeclined [scenario.declining] (Some scenario.leaf) true s0) true).1.1 = true /\
  @errbase.formatLink scenario.noMethods
    (errbase.RegisterSpecialCasePrinter scenario.accepting
       (errbase.RegisterSpecialCasePrinter scenario.declining []))
    (Some scenario.leaf) None true false (errbase.newState scenario.plain) =
  Return (errbase.collectLink (Some scenario.leaf) false
            (errbase.handledBy
               (scenario.accepting (Some scenario.leaf)
                  (errbase.afterDeclined [scenario.declining] (Some scenario.leaf) true s0)
                  true))).
Proof.
  intros s0. split; [by split|]. split; [reflexivity|].
  apply (proj1 (proj2 (@C6_first_accepting_handler_wins scenario.noMethods
                         [scenario.declining] [] scenario.accepting
                         (Some scenario.leaf) None true false
                         (errbase.newState scenario.plain)
                         (conj eq_refl I) eq_refl))).
Defined.

(** With the handlers [[declining; accepting]] the scenario renders as the
    text of the accepting handler for each of its three links. *)
Example registry_scenario :
  @errbase.formatErrorInternal scenario.noMethods scenario.library
    [scenario.declining; scenario.accepting]
    (Some scenario.outer) scenario.plain (rune "v") =
  Return (errbase.fmtWrite scenario.plain (B "special: special: special")).
Proof. reflexivity. Qed.

(** ** The simple fallback *)

Section extractPrefix_facts.
Import errbase.

Lemma HasSuffix_app (p suffix : bytes) : HasSuffix (p ++ suffix) suffix = true.
Proof.
  unfold HasSuffix. rewrite length_app.
  rewrite bool_decide_eq_true_2 by lia.
  replace (length p + length suffix - length suffix)%nat with (length p) by lia.
  rewrite drop_app_length. by rewrite bool_decide_eq_true_2.
Qed.

Lemma HasSuffix_split (s suffix : bytes) :
  HasSuffix s suffix = true ->
  s = take (length s - length suffix) s ++ suffix.
Proof.
  unfold HasSuffix. intros H. apply andb_true_iff in H as [_ H].
  apply bool_decide_eq_true in H.
  etransitivity; [symmetry; apply (take_drop (length s - length suffix))|].
  by rewrite H.
Qed.

Lemma extractPrefix_extension err cause p :
  Error err = p ++ B ": " ++ Error cause ->
  extractPrefix err cause = p.
Proof.
  intros Hmsg. unfold extractPrefix. rewrite Hmsg.
  rewrite app_assoc, HasSuffix_app.
  rewrite length_app.
  replace (length (p ++ B ": ") + length (Error cause) - length (Error cause))%nat
    with (length (p ++ B ": ")) by lia.
  rewrite take_app_length, HasSuffix_app.
  rewrite length_app.
  replace (length p + length (B ": ") - 2)%nat with (length p) by (simpl; lia).
  by rewrite take_app_length.
Qed.

Lemma extractPrefix_no_extension err cause :
  (forall p, Error err <> p ++ B ": " ++ Error cause) ->
  extractPrefix err cause = [].
Proof.
  intros Hno. unfold extractPrefix.
  destruct (HasSuffix (Error err) (Error cause)) eqn:Hs; [|done].
  destruct (HasSuffix (take _ (Error err)) (B ": ")) eqn:Hp; [|done].
  exfalso. apply HasSuffix_split in Hs, Hp.
  apply (Hno (take (length (take (length (Error err) - length (Error cause))
                              (Error err)) - length (B ": "))
                   (take (length (Error err) - length (Error cause)) (Error err)))).
  rewrite app_assoc, <- Hp. exact Hs.
Qed.

Lemma Write_nil s : Write [] s = s.
Proof. done. Qed.

End extractPrefix_facts.

(** C7.  For a wrapper [err] with the cause [cause], [extractPrefix]
    returns [p] when the message of [err] is [p], then [": "], then the
    message of [cause], and the empty string when the message of [err] is
    not of that shape for any [p].  The simple fallback [formatSimple]
    writes that prefix to the printer, nothing when it is empty, and it is
    what the dispatch does for a wrapper that is neither a [Formatter] nor
    a [fmt.Formatter]. *)
Theorem C7_simple_fallback_prefix {M : errbase.Methods}
    (err cause : errbase.error) (isOutermost : bool) (s : errbase.state) :
  (forall p, errbase.Error err = p ++ B ": " ++ errbase.Error cause ->
             errbase.extractPrefix err cause = p) /\
  ((forall p, errbase.Error err <> p ++ B ": " ++ errbase.Error cause) ->
   errbase.extractPrefix err cause = []) /\
  errbase.formatSimple (Some err) (Some cause) s =
    Return (errbase.Write (errbase.extractPrefix err cause) s) /\
  (errbase.asFormatter err = None -> errbase.asFmtFormatter err = None ->
   errbase.defaultDispatch (Some err) (Some cause) isOutermost s =
     Return (false, errbase.Write (errbase.extractPrefix err cause) s)).
Proof.
  assert (errbase.formatSimple (Some err) (Some cause) s =
          Return (errbase.Write (errbase.extractPrefix err cause) s)) as Hsimple.
  { unfold errbase.formatSimple.
    destruct (errbase.extractPrefix err cause); reflexivity. }
  split; [intros p; apply extractPrefix_extension|].
  split; [apply extractPrefix_no_extension|].
  split; [exact Hsimple|].
  intros HF Hf. unfold errbase.defaultDispatch. rewrite HF, Hf, Hsimple.
  reflexivity.
Qed.

Lemma C7_simple_fallback_witness :
  errbase.Error scenario.middle = B "read config" ++ B ": " ++ errbase.Error scenario.leaf /\
  errbase.extractPrefix scenario.middle scenario.leaf = B "read config" /\
  (forall p, errbase.Error scenario.leaf <> p ++ B ": " ++ errbase.Error scenario.outer) /\
  errbase.extractPrefix scenario.leaf scenario.outer = [] /\
  @errbase.defaultDispatch scenario.noMethods (Some scenario.middle)
    (Some scenario.leaf) false (errbase.newState scenario.plain) =
  Return (false, errbase.Write (B "read config") (errbase.newState scenario.plain)).
Proof.
  assert (forall p, errbase.Error scenario.leaf <>
                    p ++ B ": " ++ errbase.Error scenario.outer) as Hno.
  { intros p H. apply (f_equal length) in H. rewrite !length_app in H.
    simpl in H. lia. }
  split; [reflexivity|].
  split.
  { apply (proj1 (@C7_simple_fallback_prefix scenario.noMethods
                    scenario.middle scenario.leaf false
                    (errbase.newState scenario.plain)) (B "read config")).
    reflexivity. }
  split; [exact Hno|].
  split.
  { apply (proj1 (proj2 (@C7_simple_fallback_prefix scenario.noMethods
                           scenario.leaf scenario.outer false
                           (errbase.newState scenario.plain))) Hno). }
  apply (proj2 (proj2 (proj2 (@C7_simple_fallback_prefix scenario.noMethods
                                scenario.middle scenario.leaf false
                                (errbase.newState scenario.plain))))
           eq_refl eq_refl).
Defined.

(** ** Unsupported verbs *)

(** C9.  For a verb other than [v], [s], [x], [X] and [q], whatever the
    error and the flags, [FormatError] returns without a panic, having
    written ["%!"], the verb, and the dynamic type of the error, or
    ["<nil>"] for the nil error, between parentheses. *)
Theorem C9_unsupported_verb_placeholder {M : errbase.Methods} {L : errbase.Library}
    (specialCases : list errbase.safeErrorPrinterFn)
    (err : option errbase.error) (s : errbase.fmtState) (verb : Z) :
  verb <> rune "v" -> verb <> rune "s" -> verb <> rune "x" ->
  verb <> rune "X" -> verb <> rune "q" ->
  errbase.FormatError specialCases err s verb =
  Return (errbase.fmtWrite s
            (B "%!" ++ EncodeRune verb ++ B "(" ++
             match err with
             | Some e => errbase.TypeOf e
             | None => B "<nil>"
             end ++ B ")")).
Proof.
  intros Hv Hs Hx HX Hq.
  unfold errbase.FormatError, errbase.formatErrorInternal.
  rewrite !(bool_decide_eq_false_2 (verb = _)) by assumption.
  cbn [andb orb].
  destruct err as [e|]; rewrite !finalBufWrite_finalBufWrite;
    unfold errbase.finalBufWrite, errbase.newState; cbn [errbase.finalBuf errbase.withFinalBuf app];
    by rewrite <- ?app_assoc.
Qed.

Lemma C9_unsupported_verb_witness :
  rune "d" <> rune "v" /\ rune "d" <> rune "s" /\ rune "d" <> rune "x" /\
  rune "d" <> rune "X" /\ rune "d" <> rune "q" /\
  @errbase.FormatError scenario.noMethods scenario.library []
    (Some scenario.outer) scenario.plus (rune "d") =
  Return (errbase.fmtWrite scenario.plus (B "%!d(*withstack.withStack)")).
Proof.
  repeat (split; [discriminate|]).
  apply (@C9_unsupported_verb_placeholder scenario.noMethods scenario.library []
           (Some scenario.outer) scenario.plus (rune "d"));
    discriminate.
Defined.

(** ** The one-line source *)

Section GetOneLineSource_facts.
Import errbase withstack.
Context {L : Library} {P : Parsing}.

Lemma SplitN_nonempty s sep n : (0 < length (SplitN s sep (S n)))%nat.
Proof.
  destruct n as [|n]; [simpl; lia|].
  cbn [SplitN]. destruct (splitOnce s sep []) as [piece [rest|]]; simpl; lia.
Qed.

(** A printed stack always resolves: the file is a base name, and [ok] is
    [true]. *)
Lemma getOneLineSourceFromPrintedStack_ok st :
  exists path line fn,
    getOneLineSourceFromPrintedStack st = (Base path, line, fn, true).
Proof.
  unfold getOneLineSourceFromPrintedStack.
  pose proof (SplitN_nonempty (TrimSpace st) LF 2) as Hlen.
  apply Nat.ltb_lt in Hlen. rewrite Hlen.
  destruct (parsePrintedStackEntry _ 0) as [[[next file] line] fnName].
  by eexists _, _, _.
Qed.


Lemma sourceOf_unfold e :
  sourceOf e =
  sourceAt (Some e) match UnwrapOnce (Some e) with
                    | Some c => Some (sourceOf c)
                    | None => None
                    end.
Proof. by destruct e. Qed.

Lemma sourceAt_own_stack e inner :
  (forall file line fn, inner <> Some (file, line, fn, true)) ->
  sourceAt (Some e) inner =
  match StackTraceOf e with
  | Some st => getOneLineSourceFromPkgStack st
  | None => notFound
  end.
Proof.
  intros Hinner. unfold sourceAt, getDetails. cbn [asStackTraceProvider].
  destruct inner as [[[[file line] fn] [|]]|];
    [by destruct (Hinner file line fn)| |];
    by destruct (StackTraceOf e).
Qed.




End GetOneLineSource_facts.



(** A chain without any stack has no one-line source. *)
Example no_stack_no_source :
  @withstack.GetOneLineSource scenario.library scenario.parsing
    (Some scenario.middle) = ([], 0, [], false).
Proof. reflexivity. Qed.

(** ** The one-line source, for every chain *)

Section innermostFrames_facts.
Import errbase withstack.
Context {L : Library} {P : Parsing}.

Lemma last_filter_frames (stacks : list StackTrace) st :
  last (List.filter holdsFrame stacks) = Some st ->
  exists f rest, st = f :: rest.
Proof.
  intros Hlast. apply last_Some_elem_of in Hlast.
  apply list_elem_of_In, filter_In in Hlast as [_ Hne].
  destruct st as [|f rest]; [discriminate|by eexists _, _].
Qed.

Lemma last_filter_cons (st : StackTrace) (deeper : list StackTrace) :
  last (List.filter holdsFrame (st :: deeper)) =
  match last (List.filter holdsFrame deeper) with
  | Some inner => Some inner
  | None => if holdsFrame st then Some st else None
  end.
Proof.
  cbn [List.filter].
  destruct (holdsFrame st); destruct (List.filter holdsFrame deeper) as [|x l];
    try reflexivity.
  - rewrite last_cons_cons.
    destruct (last (x :: l)) eqn:E; [done|]. by apply last_None in E.
  - by destruct (last (x :: l)).
Qed.

Lemma sourceOf_innermostFrames e :
  sourceOf e =
  match innermostFrames e with
  | Some (f :: _) => resolveFrame f
  | _ => notFound
  end.
Proof.
  unfold innermostFrames.
  induction e as [e IH] using error_chain_ind.
  rewrite sourceOf_unfold.
  destruct e as [a t m [c|] st nl]; cbn [UnwrapOnce Cause links omap list_omap StackTraceOf] in *.
  - specialize (IH c eq_refl).
    set (deeper := omap StackTraceOf (links c)) in *.
    destruct (last (List.filter holdsFrame deeper)) as [inner|] eqn:Elast.
    + destruct (last_filter_frames _ _ Elast) as (f & rest & ->).
      assert (last (List.filter holdsFrame
                      (match st with Some x => x :: deeper | None => deeper end))
              = Some (f :: rest)) as ->.
      { destruct st as [x|]; [|done]. by rewrite last_filter_cons, Elast. }
      rewrite IH.
      destruct (getOneLineSourceFromPrintedStack_ok (sprintStackTrace [f]))
        as (path & line & fn & Hres).
      unfold resolveFrame. rewrite Hres. reflexivity.
    + rewrite IH.
      rewrite sourceAt_own_stack by (intros ? ? ?; discriminate).
      cbn [StackTraceOf].
      destruct st as [x|]; [|by rewrite Elast].
      rewrite last_filter_cons, Elast. by destruct x.
  - rewrite sourceAt_own_stack by (intros ? ? ?; discriminate).
    cbn [StackTraceOf].
    by destruct st as [[|f rest]|].
Qed.

End innermostFrames_facts.

(** X4.  For every chain, [GetOneLineSource] returns the resolved topmost
    frame of the innermost link whose captured stack holds a frame, a
    link with an empty stack counting as one without a stack, and
    [ok = false] when there is no such link. *)
Theorem X4_one_line_source_every_chain {L : errbase.Library} {P : withstack.Parsing}
    (e : errbase.error) :
  withstack.GetOneLineSource (Some e) =
  match withstack.innermostFrames e with
  | Some (f :: _) => withstack.resolveFrame f
  | _ => withstack.notFound
  end.
Proof. apply sourceOf_innermostFrames. Qed.

(** ** The registry along a chain *)

Section registry_chain_facts.
Import errbase.

Lemma formatLink_handled (M M' : Methods) fns err cause isOutermost withDetail s :
  (forall err isLeaf s, (runSpecialCases fns err isLeaf s).1 = true) ->
  @formatLink M fns err cause isOutermost withDetail s =
  @formatLink M' fns err cause isOutermost withDetail s.
Proof.
  intros Hall. unfold formatLink. cbv zeta.
  specialize (Hall err (isNil cause) (reinit withDetail s)).
  destruct (runSpecialCases fns err (isNil cause) (reinit withDetail s))
    as [printDone s'].
  simpl in Hall. by subst printDone.
Qed.

Lemma formatChain_handled (M M' : Methods) fns e :
  (forall err isLeaf s, (runSpecialCases fns err isLeaf s).1 = true) ->
  forall isOutermost withDetail s,
    @formatChain M fns e isOutermost withDetail s =
    @formatChain M' fns e isOutermost withDetail s.
Proof.
  intros Hall. induction e as [e IH] using error_chain_ind.
  intros isOutermost withDetail s.
  destruct e as [a t m [c|] st nl]; cbn [formatChain UnwrapOnce Cause].
  - rewrite (IH c eq_refl).
    destruct (@formatChain M' fns c false withDetail s) as [s'|why];
      cbn [mbind outcome_bind]; [|done].
    by apply formatLink_handled.
  - cbn [mbind outcome_bind]. by apply formatLink_handled.
Qed.

End registry_chain_facts.

(** X5.  When the registered handlers between them handle every error
    they are given, as where one of them always accepts, the traversal of
    a chain never reaches the default dispatch: its result is the same
    whatever [Formatter] and [fmt.Formatter] methods the links have. *)
Theorem X5_handled_chain_skips_default_dispatch (M M' : errbase.Methods)
    (specialCases : list errbase.safeErrorPrinterFn) (err : option errbase.error)
    (isOutermost withDetail : bool) (s : errbase.state) :
  (forall err isLeaf s, (errbase.runSpecialCases specialCases err isLeaf s).1 = true) ->
  @errbase.formatRecursive M specialCases err isOutermost withDetail s =
  @errbase.formatRecursive M' specialCases err isOutermost withDetail s.
Proof.
  intros Hall. destruct err as [e|]; cbn [errbase.formatRecursive].
  - by apply formatChain_handled.
  - by apply formatLink_handled.
Qed.

Lemma X5_handled_chain_witness :
  (forall err isLeaf s,
     (errbase.runSpecialCases [scenario.declining; scenario.accepting] err isLeaf s).1
     = true) /\
  @errbase.formatRecursive scenario.noMethods
    [scenario.declining; scenario.accepting] (Some scenario.outer) true false
    (errbase.newState scenario.plain) =
  @errbase.formatRecursive scenario.allFormatters
    [scenario.declining; scenario.accepting] (Some scenario.outer) true false
    (errbase.newState scenario.plain).
Proof.
  assert (forall err isLeaf s,
            (errbase.runSpecialCases [scenario.declining; scenario.accepting]
               err isLeaf s).1 = true) as Hall.
  { intros [e|] isLeaf s; reflexivity. }
  split; [exact Hall|].
  apply (X5_handled_chain_skips_default_dispatch scenario.noMethods
           scenario.allFormatters [scenario.declining; scenario.accepting]
           (Some scenario.outer) true false (errbase.newState scenario.plain) Hall).
Defined.

(** ** KhanWrap *)

Section KhanWrap_facts.
Import errors khan.
Context {R : Runtime}.

Lemma newError_some kind args :
  exists cause fields stack,
    newError kind args = Some (Khan kind cause fields stack).
Proof.
  unfold newError.
  destruct (newErrorArgs args "" (Kind kind) None) as [[message cause] fields].
  by eexists _, _, _.
Qed.

Lemma newError_wraps kind e fields :
  newError kind [Err e; FieldsVal (Some fields)] =
  Some (Khan kind e (Some fields) (callers 3)).
Proof. reflexivity. Qed.

(** The loop over the pairs does not run out of the slice when the number
    of arguments is even. *)
Lemma wrapFields_returns n : forall args fields,
  (length args <= n)%nat ->
  (length args mod 2 =? 0)%nat = true ->
  exists r, wrapFields args fields = Return r.
Proof.
  induction n as [|n IH]; intros args fields Hlen Heven.
  - destruct args; [by eexists|simpl in Hlen; lia].
  - destruct args as [|key [|value args]]; [by eexists|discriminate|].
    destruct key; try by eexists.
    cbn [wrapFields]. apply IH.
    + simpl in Hlen. lia.
    + cbn [length] in Heven.
      by replace (S (S (length args))) with (length args + 1 * 2)%nat in Heven
        by lia; rewrite Nat.Div0.mod_add in Heven.
Qed.

(** It stops at a key that is not a string. *)
Lemma wrapFields_bad_key n : forall args fields,
  (length args <= n)%nat ->
  (length args mod 2 =? 0)%nat = true ->
  forallb isString (keysOf args) = false ->
  exists key, wrapFields args fields = Return (inl key).
Proof.
  induction n as [|n IH]; intros args fields Hlen Heven Hkeys.
  - destruct args; [discriminate|simpl in Hlen; lia].
  - destruct args as [|key [|value args]]; [discriminate|discriminate|].
    cbn [keysOf forallb] in Hkeys.
    destruct key; try by eexists.
    cbn [wrapFields isString andb] in *. apply IH; [simpl in Hlen; lia| |done].
    cbn [length] in Heven.
    by replace (S (S (length args))) with (length args + 1 * 2)%nat in Heven
      by lia; rewrite Nat.Div0.mod_add in Heven.
Qed.

Lemma odd_mod2 n : Nat.odd n = negb (n mod 2 =? 0)%nat.
Proof.
  rewrite <- Nat.negb_even. f_equal.
  destruct (Nat.even n) eqn:E.
  - apply Nat.even_spec in E as [k ->]. 
    rewrite Nat.mul_comm, Nat.Div0.mod_mul. done.
  - destruct (n mod 2 =? 0)%nat eqn:E'; [|done].
    apply Nat.eqb_eq in E'. apply Nat.Div0.mod_divides in E' as [k ->].
    rewrite Nat.even_mul in E. done.
Qed.

Lemma KhanWrap_returns_error e args :
  exists r, (KhanWrap (Some e) args).2 = Return (Some r).
Proof.
  unfold KhanWrap.
  destruct (length args mod 2 =? 0)%nat eqn:Heven; cbn [negb].
  - destruct (wrapFields_returns (length args) args ∅ (le_n _) Heven) as [r ->].
    destruct r as [key|fields]; [cbn [snd]; by eexists|].
    destruct e as [k|errKind cause f st|a m c]; cbn [snd].
    + destruct (newError_some k [FieldsVal (Some fields)]) as (? & ? & ? & ->).
      by eexists.
    + case_bool_decide; cbn [snd].
      * destruct (newError_some InternalKind args) as (? & ? & ? & ->).
        by eexists.
      * by eexists.
    + by eexists.
  - cbn [snd]. by eexists.
Qed.

Lemma KhanWrap_malformed e args :
  malformed args = true ->
  exists fields stack,
    (KhanWrap (Some e) args).2 = Return (Some (Khan InternalKind e fields stack)).
Proof.
  unfold malformed, KhanWrap. rewrite odd_mod2.
  destruct (length args mod 2 =? 0)%nat eqn:Heven; cbn [negb orb].
  - intros Hkeys. apply negb_true_iff in Hkeys.
    destruct (wrapFields_bad_key (length args) args ∅ (le_n _) Heven Hkeys)
      as [key ->].
    cbn [snd]. by eexists _, _.
  - intros _. cbn [snd]. by eexists _, _.
Qed.

Lemma KhanWrap_odd e args :
  Nat.odd (length args) = true ->
  KhanWrap (Some e) args =
  (["Odd"],
   Return (Some (Khan InternalKind e
                   (Some {[ "fields" := Slice args;
                            "message" := Str "Passed an odd number of field-args to errors.Wrap()" ]})
                   (callers 3)))).
Proof. intros Hodd. unfold KhanWrap. rewrite odd_mod2 in Hodd. by rewrite Hodd. Qed.

(** The loop stops at the first key that is not a string, whatever comes
    after it. *)
Lemma wrapFields_stops n : forall pre key rest fields,
  (length pre <= n)%nat ->
  malformed pre = false -> isString key = false ->
  wrapFields (pre ++ key :: rest) fields = Return (inl key).
Proof.
  induction n as [|n IH]; intros pre key rest fields Hlen Hpre Hkey.
  - destruct pre; [|simpl in Hlen; lia]. by destruct key.
  - destruct pre as [|k [|v pre]]; [by destruct key|discriminate|].
    unfold malformed in Hpre. apply orb_false_iff in Hpre as [Hodd Hkeys].
    apply negb_false_iff in Hkeys. cbn [keysOf forallb] in Hkeys.
    apply andb_true_iff in Hkeys as [Hk Hkeys].
    destruct k; try discriminate. cbn [app wrapFields].
    apply IH; [simpl in Hlen; lia| |done].
    unfold malformed. rewrite Hkeys. cbn [negb orb]. rewrite orb_false_r.
    by rewrite <- Hodd.
Qed.

Lemma KhanWrap_bad_key e pre key rest :
  Nat.odd (length (pre ++ key :: rest)) = false ->
  malformed pre = false -> isString key = false ->
  KhanWrap (Some e) (pre ++ key :: rest) =
  (["Non-string keyfield"],
   Return (Some (Khan InternalKind e
                   (Some {[ "key" := key;
                            "message" := Str "Passed a non-string key-field to errors.Wrap()" ]})
                   (callers 3)))).
Proof.
  intros Heven Hpre Hkey. unfold KhanWrap. rewrite odd_mod2 in Heven.
  rewrite Heven. by rewrite (wrapFields_stops (length pre)).
Qed.

(** An argument list of even length with a key that is not a string
    splits at the first such key. *)
Lemma malformed_split n : forall args,
  (length args <= n)%nat ->
  Nat.odd (length args) = false ->
  forallb isString (keysOf args) = false ->
  exists pre key rest,
    args = pre ++ key :: rest /\ malformed pre = false /\ isString key = false.
Proof.
  induction n as [|n IH]; intros args Hlen Heven Hkeys.
  - destruct args; [discriminate|simpl in Hlen; lia].
  - destruct args as [|k [|v args]]; [discriminate|discriminate|].
    cbn [keysOf forallb] in Hkeys.
    destruct (isString k) eqn:Hk.
    + cbn [andb] in Hkeys.
      destruct (IH args) as (pre & key & rest & -> & Hpre & Hkey);
        [simpl in Hlen; lia|done|done|].
      exists (k :: v :: pre), key, rest. split; [done|]. split; [|done].
      unfold malformed in *. apply orb_false_iff in Hpre as [Hodd Hgood].
      cbn [keysOf forallb length]. rewrite Hk. cbn [andb].
      rewrite Hgood, orb_false_r. exact Hodd.
    + by exists [], k, (v :: args).
Qed.

End KhanWrap_facts.

(** C10.  [KhanWrap(nil, args...)] returns nil.  For an error that is not
    nil, [KhanWrap] does not panic and returns an error that is not nil;
    when the number of arguments is odd or a key is not a string, the
    error returned has the kind [InternalKind] and the original error as
    its cause, hence as a link of its chain, and its fields report the
    arguments: for an odd number of arguments they hold all the arguments
    under ["fields"] and the complaint under ["message"]; for an even
    number they hold the first key that is not a string under ["key"] and
    the complaint under ["message"].  Every malformed argument list is of
    one of these two forms. *)
Theorem C10_KhanWrap_total {R : errors.Runtime} :
  (forall args, (khan.KhanWrap None args).2 = Return None) /\
  (forall e args, exists r, (khan.KhanWrap (Some e) args).2 = Return (Some r)) /\
  (forall e args,
     khan.malformed args = true ->
     exists r,
       (khan.KhanWrap (Some e) args).2 = Return (Some r) /\
       khan.kindOf r = Some khan.InternalKind /\
       khan.Unwrap r = Some e /\
       e ∈ khan.links r) /\
  (forall e args,
     Nat.odd (length args) = true ->
     (khan.KhanWrap (Some e) args).2 =
     Return (Some (khan.Khan khan.InternalKind e
                     (Some {[ "fields" := khan.Slice args;
                              "message" := khan.Str "Passed an odd number of field-args to errors.Wrap()" ]})
                     (errors.callers 3)))) /\
  (forall e pre key rest,
     Nat.odd (length (pre ++ key :: rest)) = false ->
     khan.malformed pre = false -> khan.isString key = false ->
     (khan.KhanWrap (Some e) (pre ++ key :: rest)).2 =
     Return (Some (khan.Khan khan.InternalKind e
                     (Some {[ "key" := key;
                              "message" := khan.Str "Passed a non-string key-field to errors.Wrap()" ]})
                     (errors.callers 3)))) /\
  (forall args,
     khan.malformed args = true ->
     Nat.odd (length args) = true \/
     (Nat.odd (length args) = false /\
      exists pre key rest,
        args = pre ++ key :: rest /\ khan.malformed pre = false /\
        khan.isString key = false)).
Proof.
  split; [done|]. split; [apply KhanWrap_returns_error|]. split; [|split; [|split]].
  - intros e args Hbad.
    destruct (KhanWrap_malformed e args Hbad) as (fields & stack & Hres).
    eexists. split; [exact Hres|]. split; [done|]. split; [done|].
    cbn [khan.links]. apply elem_of_cons. right.
    destruct e; apply elem_of_cons; by left.
  - intros e args Hodd. by rewrite KhanWrap_odd.
  - intros e pre key rest Heven Hpre Hkey. by rewrite KhanWrap_bad_key.
  - intros args Hbad. unfold khan.malformed in Hbad.
    destruct (Nat.odd (length args)) eqn:Hodd; [by left|right].
    split; [done|]. cbn [orb] in Hbad. apply negb_true_iff in Hbad.
    by apply (malformed_split (length args)).
Qed.

Lemma C10_KhanWrap_witness :
  khan.malformed [khan.Other 7; khan.Str "value"] = true /\
  (exists r,
     (@khan.KhanWrap scenario.runtime (Some scenario.something)
        [khan.Other 7; khan.Str "value"]).2 = Return (Some r) /\
     khan.kindOf r = Some khan.InternalKind /\
     khan.Unwrap r = Some scenario.something /\
     scenario.something ∈ khan.links r) /\
  (@khan.KhanWrap scenario.runtime (Some scenario.something)
     [khan.Str "odd"]).2 =
  Return (Some (khan.Khan khan.InternalKind scenario.something
                  (Some {[ "fields" := khan.Slice [khan.Str "odd"];
                           "message" := khan.Str "Passed an odd number of field-args to errors.Wrap()" ]})
                  [100; 200])) /\
  (@khan.KhanWrap scenario.runtime (Some scenario.something)
     [khan.Other 7; khan.Str "value"]).2 =
  Return (Some (khan.Khan khan.InternalKind scenario.something
                  (Some {[ "key" := khan.Other 7;
                           "message" := khan.Str "Passed a non-string key-field to errors.Wrap()" ]})
                  [100; 200])).
Proof.
  pose proof (@C10_KhanWrap_total scenario.runtime)
    as (_ & _ & Hbad & Hodd & Hkey & _).
  split; [reflexivity|]. split; [|split].
  - apply (Hbad scenario.something [khan.Other 7; khan.Str "value"] eq_refl).
  - apply (Hodd scenario.something [khan.Str "odd"] eq_refl).
  - apply (Hkey scenario.something [] (khan.Other 7) [khan.Str "value"]
             eq_refl eq_refl eq_refl).
Defined.

(** [KhanWrap(fmt.Errorf("something"), "key", "value")] of
    [_example/main.go]: an internal error around the original one, with
    the field. *)
Example KhanWrap_example :
  @khan.KhanWrap scenario.runtime (Some scenario.something)
    [khan.Str "key"; khan.Str "value"] =
  (["Default"],
   Return (Some (khan.Khan khan.InternalKind scenario.something
                   (Some {[ "key" := khan.Str "value" ]}) [100; 200]))).
Proof. reflexivity. Qed.

(* ================================================================== *)
(** * Part III: further properties of the code *)
(* ================================================================== *)

(** ** Stack suffix deduplication: exact results *)

Section Elide_exact.
Import errbase.

Lemma turns_common_run (run a b : StackTrace) (x y : StackFrame) :
  a <> [] -> (x <> y \/ b = []) ->
  turns (run ++ x :: a) (run ++ y :: b) = length run.
Proof.
  intros Ha Hdiv. induction run as [|c run IH].
  - destruct a as [|x' a]; [done|]. destruct b as [|y' b]; [done|].
    rewrite !app_nil_l, turns_step. destruct Hdiv as [Hxy|?]; [|done].
    by rewrite bool_decide_eq_false_2.
  - assert (exists c1 r1, run ++ x :: a = c1 :: r1) as (c1 & r1 & E1)
      by (destruct run; simpl; eauto).
    assert (exists c2 r2, run ++ y :: b = c2 :: r2) as (c2 & r2 & E2)
      by (destruct run; simpl; eauto).
    cbn [app length]. rewrite E1, E2 in *. rewrite turns_step, IH.
    by rewrite bool_decide_eq_true_2.
Qed.

Lemma skipCommonSuffix_whole (newStack prevStack : StackTrace) :
  newStack <> [] -> prevStack <> [] ->
  skipCommonSuffix newStack prevStack (length newStack - 1) (length prevStack - 1) =
  (length newStack - 1 - turns (rev newStack) (rev prevStack))%nat.
Proof.
  intros Hn Hp.
  assert (0 < length newStack)%nat by (destruct newStack; simpl; [done|lia]).
  assert (0 < length prevStack)%nat by (destruct prevStack; simpl; [done|lia]).
  rewrite skipCommonSuffix_turns by lia.
  replace (S (length newStack - 1)) with (length newStack) by lia.
  replace (S (length prevStack - 1)) with (length prevStack) by lia.
  by rewrite !firstn_all.
Qed.

End Elide_exact.

(** X6.  When [newStack] is [a], a frame [x] and a tail [t], and
    [prevStack] ends with a frame [y] and the same tail [t], with [x] and
    [y] different or [y] the first frame of [prevStack], and [a] is not
    empty, [ElideSharedStackTraceSuffix] returns [a]: the tail and the
    frame [x] before it are dropped, and the flag says whether the tail
    holds a frame. *)
Theorem X6_elide_diverging_traces (a b t : errbase.StackTrace)
    (x y : errbase.StackFrame) :
  a <> [] -> (x <> y \/ b = []) ->
  errbase.ElideSharedStackTraceSuffix (b ++ y :: t) (a ++ x :: t) =
  (a, negb (length t =? 0)%nat).
Proof.
  intros Ha Hdiv. unfold errbase.ElideSharedStackTraceSuffix.
  rewrite !length_app. cbn [length].
  replace (length b + S (length t) =? 0)%nat with false
    by (symmetry; apply Nat.eqb_neq; lia).
  replace (length a + S (length t) =? 0)%nat with false
    by (symmetry; apply Nat.eqb_neq; lia).
  pose proof (skipCommonSuffix_whole (a ++ x :: t) (b ++ y :: t)) as Hskip.
  rewrite !length_app in Hskip. cbn [length] in Hskip.
  rewrite Hskip by (by destruct a, b).
  rewrite !rev_app_distr. cbn [rev]. rewrite <- !app_assoc. cbn [app].
  assert (rev a <> []) as Hra.
  { intros Hrev. apply (f_equal (@rev _)) in Hrev.
    by rewrite rev_involutive in Hrev. }
  assert (x <> y \/ rev b = []) as Hdiv'.
  { destruct Hdiv as [Hxy|Hb]; [by left|right; by rewrite Hb]. }
  rewrite (turns_common_run _ _ _ _ _ Hra Hdiv'), length_rev.
  replace (length a + S (length t) - 1 - length t)%nat with (length a) by lia.
  assert (0 < length a)%nat by (destruct a; simpl; [done|lia]).
  replace (length a =? 0)%nat with false by (symmetry; apply Nat.eqb_neq; lia).
  rewrite take_app_length. f_equal.
  destruct t; cbn [length Nat.eqb negb].
  - apply Nat.ltb_ge. lia.
  - apply Nat.ltb_lt. lia.
Qed.

Lemma X6_elide_diverging_witness :
  [1; 2] <> [] /\ (3 <> 7 \/ [6] = []) /\
  errbase.ElideSharedStackTraceSuffix ([6] ++ 7 :: [8; 9]) ([1; 2] ++ 3 :: [8; 9]) =
  ([1; 2], true).
Proof.
  split; [discriminate|]. split; [left; discriminate|].
  apply (X6_elide_diverging_traces [1; 2] [6] [8; 9] 3 7);
    [discriminate|left; discriminate].
Defined.

(** X7.  The edges of [ElideSharedStackTraceSuffix]: with no previous
    trace, or with a new trace of one frame or none, the new trace comes
    back whole; against a previous trace of a single frame a new trace of
    two frames or more loses its last frame, whatever the frames are.  The
    flag is false in all these cases. *)
Theorem X7_elide_edges (prevStack newStack : errbase.StackTrace) :
  (prevStack = [] \/ (length newStack <= 1)%nat ->
   errbase.ElideSharedStackTraceSuffix prevStack newStack = (newStack, false)) /\
  (length prevStack = 1%nat -> (2 <= length newStack)%nat ->
   errbase.ElideSharedStackTraceSuffix prevStack newStack =
   (take (length newStack - 1) newStack, false)).
Proof.
  unfold errbase.ElideSharedStackTraceSuffix. split.
  - intros [->|Hlen]; [done|].
    destruct (length prevStack =? 0)%nat; [done|].
    destruct newStack as [|f [|g newStack]]; [done|done|simpl in Hlen; lia].
  - intros Hp Hn. rewrite Hp. cbn [Nat.eqb Nat.sub].
    replace (length newStack =? 0)%nat with false
      by (symmetry; apply Nat.eqb_neq; lia).
    destruct (length newStack - 1)%nat as [|i] eqn:Ei; [lia|].
    cbn [errbase.skipCommonSuffix Nat.eqb]. f_equal.
    apply Nat.ltb_irrefl.
Qed.

Lemma X7_elide_edges_witness :
  (length [5] <= 1)%nat /\
  errbase.ElideSharedStackTraceSuffix [7; 8] [5] = ([5], false) /\
  length [9] = 1%nat /\ (2 <= length [1; 2; 9])%nat /\
  errbase.ElideSharedStackTraceSuffix [9] [1; 2; 9] = ([1; 2], false).
Proof.
  split; [simpl; lia|]. split.
  { apply (proj1 (X7_elide_edges [7; 8] [5])). right. simpl. lia. }
  split; [reflexivity|]. split; [simpl; lia|].
  apply (proj2 (X7_elide_edges [9] [1; 2; 9])); simpl; lia.
Defined.

(** ** The printer's writes *)

(** The fields of a state built by the setters, computed by need. *)
Ltac state_fields :=
  lazy beta iota zeta delta
    [errbase.withState errbase.withEntries errbase.withLastStack
     errbase.withFinalBuf errbase.withBuf errbase.withFlags
     errbase.finalBufWrite errbase.bufWrite errbase.switchOver
     errbase.State errbase.entries errbase.headBuf errbase.lastStack
     errbase.finalBuf errbase.buf errbase.needNewline errbase.hasDetail
     errbase.collectingRedactableString errbase.notEmpty errbase.needSpace
     errbase.wantDetail errbase.multiLine] in *.

Section Write_facts.
Import errbase.

Lemma bufWrite_nil s : bufWrite [] s = s.
Proof. destruct s. unfold bufWrite. simpl. by rewrite app_nil_r. Qed.

Lemma bufWrite_bufWrite a b s : bufWrite b (bufWrite a s) = bufWrite (a ++ b) s.
Proof. destruct s. unfold bufWrite. simpl. by rewrite <- app_assoc. Qed.

Lemma padNewlines_bufWrite n sep s :
  padNewlines n sep s =
  bufWrite (concat (replicate n (take (length sep - 1) detailSep))) s.
Proof.
  revert s. induction n as [|n IH]; intros s.
  - simpl. by rewrite bufWrite_nil.
  - cbn [padNewlines replicate concat]. by rewrite IH, bufWrite_bufWrite.
Qed.

(** The pending newlines of [s], with the test on their number settled. *)
Ltac unfold_pending s :=
  unfold afterText, pendingNewlines, separator, bytes;
  rewrite ?(bool_decide_eq_true_2 (0 < needNewline s)) by done;
  rewrite ?(bool_decide_eq_false_2 (0 < needNewline s)) by done.

(** Text without a newline, while no newline is pending. *)
Lemma writeLoop_plain b : forall pending sep s,
  LF ∉ b -> ~ 0 < needNewline s -> needSpace s = false ->
  writeLoop b pending sep s =
  bufWrite (pending ++ b) (match b with [] => s | _ :: _ => afterText s end).
Proof.
  induction b as [|c b IH]; intros pending sep s Hlf Hnn Hsp.
  - cbn [writeLoop]. by rewrite app_nil_r.
  - apply not_elem_of_cons in Hlf as [Hc Hlf].
    cbn [writeLoop]. rewrite (bool_decide_eq_false_2 (c = LF)) by congruence.
    rewrite (bool_decide_eq_false_2 (0 < needNewline s)) by done.
    cbn [andb]. rewrite Hsp.
    rewrite IH; [|done|by destruct s|by destruct s].
    unfold afterText. rewrite ?(bool_decide_eq_false_2 (0 < needNewline s)) by done.
    destruct b; destruct s; state_fields; subst;
      rewrite ?(bool_decide_eq_false_2 (0 < _)) by done;
      by rewrite <- ?app_assoc.
Qed.

Lemma Write_text b s :
  b <> [] -> LF ∉ b -> needSpace s = false ->
  notEmpty s = true \/ ~ 0 < needNewline s \/ (2 <= length b)%nat ->
  Write b s = afterText (bufWrite (pendingNewlines s ++ b) s).
Proof.
  intros Hb Hlf Hsp Hcase. destruct b as [|c b]; [done|clear Hb].
  apply not_elem_of_cons in Hlf as [Hc Hlf].
  unfold Write. cbn [length Nat.eqb].
  destruct (decide (0 < needNewline s)) as [Hnn|Hnn].
  - destruct (notEmpty s) eqn:Hne.
    + (* the newlines are written before the first byte *)
      cbn [writeLoop]. rewrite (bool_decide_eq_false_2 (c = LF)) by congruence.
      rewrite (bool_decide_eq_true_2 (0 < needNewline s)) by done.
      rewrite Hne. cbn [andb].
      rewrite writeLoop_plain; [|done|by destruct s; cbn; lia|by destruct s].
      rewrite padNewlines_bufWrite. clear Hcase Hlf Hc.
      unfold_pending s.
      destruct b; destruct s as [? ? ? ? ? ? nn ? ? ? ? ? ?];
        state_fields; subst;
        rewrite ?(bool_decide_eq_true_2 (0 < nn)) by done;
        rewrite ?(bool_decide_eq_false_2 (0 < 0)) by lia;
        by rewrite <- ?app_assoc.
    + (* they are written at the second byte, before the first is flushed *)
      destruct Hcase as [?|[?|Hlen]]; [done|done|].
      destruct b as [|c' b]; [simpl in Hlen; lia|].
      apply not_elem_of_cons in Hlf as [Hc' Hlf].
      cbn [writeLoop]. rewrite (bool_decide_eq_false_2 (c = LF)) by congruence.
      rewrite Hne, andb_false_r, Hsp.
      rewrite (bool_decide_eq_false_2 (c' = LF)) by congruence.
      replace (bool_decide (0 < needNewline
                 (withFlags (needNewline s) false (multiLine s) true s)))
        with true by (symmetry; apply bool_decide_eq_true_2; by destruct s).
      replace (notEmpty (withFlags (needNewline s) false (multiLine s) true s))
        with true by (by destruct s).
      cbn [andb].
      rewrite writeLoop_plain; [|done|by destruct s; cbn; lia|by destruct s].
      rewrite padNewlines_bufWrite. clear Hlen Hlf Hc Hc'.
      replace (wantDetail (withFlags (needNewline s) false (multiLine s) true s))
        with (wantDetail s) by (by destruct s).
      replace (needNewline (withFlags (needNewline s) false (multiLine s) true s))
        with (needNewline s) by (by destruct s).
      unfold_pending s.
      destruct b; destruct s as [? ? ? ? ? ? nn ? ? ? ? ? ?];
        state_fields; subst;
        rewrite ?(bool_decide_eq_true_2 (0 < nn)) by done;
        rewrite ?(bool_decide_eq_false_2 (0 < 0)) by lia;
        by rewrite <- ?app_assoc.
  - rewrite writeLoop_plain; [|by apply not_elem_of_cons|done|done].
    unfold afterText, pendingNewlines.
    rewrite !(bool_decide_eq_false_2 (0 < needNewline s)) by done.
    clear Hcase Hlf Hc. destruct s as [? ? ? ? ? ? nn ? ? ? ? ? ?];
      state_fields; subst.
    by rewrite ?(bool_decide_eq_false_2 (0 < nn)) by done.
Qed.

(** A newline at the end of what is written. *)
Lemma writeLoop_snoc_LF b : forall pending sep s,
  writeLoop (b ++ [LF]) pending sep s = noteNewline (writeLoop b pending sep s).
Proof.
  induction b as [|c b IH]; intros pending sep s.
  - cbn [app writeLoop]. rewrite (bool_decide_eq_true_2 (LF = LF)) by done.
    by rewrite bufWrite_nil.
  - cbn [app writeLoop]. case_bool_decide; by rewrite IH.
Qed.

Lemma Write_snoc_LF b s : Write (b ++ [LF]) s = noteNewline (Write b s).
Proof.
  unfold Write. rewrite length_app. cbn [length].
  replace (length b + 1 =? 0)%nat with false by (symmetry; apply Nat.eqb_neq; lia).
  rewrite writeLoop_snoc_LF. destruct b as [|c b]; [|done].
  cbn [length Nat.eqb writeLoop]. by rewrite bufWrite_nil.
Qed.

(** What the printer leaves alone. *)
Lemma sameOutsidePrinter_refl s : sameOutsidePrinter s s.
Proof. by repeat split. Qed.

Lemma sameOutsidePrinter_trans s1 s2 s3 :
  sameOutsidePrinter s1 s2 -> sameOutsidePrinter s2 s3 -> sameOutsidePrinter s1 s3.
Proof.
  unfold sameOutsidePrinter. intros (? & ? & ? & ? & ?) (? & ? & ? & ? & ?).
  repeat split; congruence.
Qed.

Lemma sameOutsidePrinter_bufWrite b s : sameOutsidePrinter s (bufWrite b s).
Proof. by destruct s. Qed.

Lemma sameOutsidePrinter_withFlags nn sp ml ne s :
  sameOutsidePrinter s (withFlags nn sp ml ne s).
Proof. by destruct s. Qed.

Lemma sameOutsidePrinter_switchOver s : sameOutsidePrinter s (switchOver s).
Proof. destruct s as [? ? ? ? ? ? ? [|] ? ? ? ? ?]; by repeat split. Qed.

Lemma sameOutsidePrinter_padNewlines n sep s :
  sameOutsidePrinter s (padNewlines n sep s).
Proof. rewrite padNewlines_bufWrite. apply sameOutsidePrinter_bufWrite. Qed.

Lemma sameOutsidePrinter_noteNewline s : sameOutsidePrinter s (noteNewline s).
Proof.
  unfold noteNewline. cbv zeta.
  destruct (wantDetail _).
  - eapply sameOutsidePrinter_trans; [|apply sameOutsidePrinter_switchOver].
    apply sameOutsidePrinter_withFlags.
  - apply sameOutsidePrinter_withFlags.
Qed.

Lemma sameOutsidePrinter_writeLoop b : forall pending sep s,
  sameOutsidePrinter s (writeLoop b pending sep s).
Proof.
  induction b as [|c b IH]; intros pending sep s.
  - apply sameOutsidePrinter_bufWrite.
  - cbn [writeLoop]. case_bool_decide.
    + eapply sameOutsidePrinter_trans; [|apply IH].
      eapply sameOutsidePrinter_trans; [apply sameOutsidePrinter_bufWrite|].
      eapply sameOutsidePrinter_trans; [apply sameOutsidePrinter_withFlags|].
      destruct (wantDetail _);
        [apply sameOutsidePrinter_switchOver|apply sameOutsidePrinter_refl].
    + eapply sameOutsidePrinter_trans; [|apply IH].
      eapply sameOutsidePrinter_trans; [|apply sameOutsidePrinter_withFlags].
      destruct (bool_decide (0 < needNewline s) && notEmpty s).
      * eapply sameOutsidePrinter_trans; [apply sameOutsidePrinter_padNewlines|].
        eapply sameOutsidePrinter_trans; [apply sameOutsidePrinter_bufWrite|].
        apply sameOutsidePrinter_withFlags.
      * destruct (needSpace s); [|apply sameOutsidePrinter_refl].
        eapply sameOutsidePrinter_trans; [apply sameOutsidePrinter_bufWrite|].
        apply sameOutsidePrinter_withFlags.
Qed.

Lemma sameOutsidePrinter_Write b s : sameOutsidePrinter s (Write b s).
Proof.
  unfold Write. destruct (length b =? 0)%nat;
    [apply sameOutsidePrinter_refl|apply sameOutsidePrinter_writeLoop].
Qed.

Lemma sameOutsidePrinter_detail s : sameOutsidePrinter s (detail s).2.
Proof.
  unfold detail. destruct (wantDetail s); cbn [negb snd];
    [|apply sameOutsidePrinter_refl].
  eapply sameOutsidePrinter_trans; [|apply sameOutsidePrinter_switchOver].
  destruct (notEmpty s);
    [apply sameOutsidePrinter_withFlags|apply sameOutsidePrinter_refl].
Qed.

End Write_facts.

(** A text holds no newline when none of its bytes is one. *)
Lemma no_newline_check (b : bytes) :
  forallb (fun c => negb (Byte.eqb LF c)) b = true -> LF ∉ b.
Proof.
  induction b as [|c b IH]; cbn [forallb]; [intros _; apply not_elem_of_nil|].
  intros [Hc Hb]%andb_true_iff. apply not_elem_of_cons. split; [|by apply IH].
  intros <-. by rewrite (Byte.byte_dec_lb eq_refl) in Hc.
Qed.

(** X8.  Whatever is written through the printer, and whenever [Detail]
    is asked, the caller's [fmt.State], the final buffer, the entries
    collected for the inner links, the last stack and the mode stay as
    they are: the text only reaches the buffers of the current link. *)
Theorem X8_printer_writes_stay_local (b : bytes) (s : errbase.state) :
  errbase.sameOutsidePrinter s (errbase.Write b s) /\
  errbase.sameOutsidePrinter s (errbase.detail s).2.
Proof. split; [apply sameOutsidePrinter_Write|apply sameOutsidePrinter_detail]. Qed.

(** X9.  Text without a newline goes to the buffer as it is, after the
    newlines that were pending: one ["\n"] in single-line mode however
    many were pending, and in detailed mode a line ["\n  |"] for each but
    the last and then ["\n  | "].  This holds when the buffer of the link
    is marked not empty, or no newline is pending, or the text has two
    bytes or more. *)
Theorem X9_write_text (b : bytes) (s : errbase.state) :
  b <> [] -> LF ∉ b -> errbase.needSpace s = false ->
  errbase.notEmpty s = true \/ ~ 0 < errbase.needNewline s \/ (2 <= length b)%nat ->
  errbase.Write b s =
  errbase.afterText (errbase.bufWrite (errbase.pendingNewlines s ++ b) s).
Proof. apply Write_text. Qed.

Lemma X9_write_text_witness :
  errbase.buf
    (errbase.Write (B "two")
       (errbase.noteNewline (errbase.noteNewline
          (errbase.Write (B "one")
             (errbase.reinit true (errbase.newState scenario.plain)))))) =
  (LF :: B "  |") ++ (LF :: B "  | ") ++ B "two".
Proof.
  rewrite (X9_write_text (B "two"));
    [reflexivity|discriminate|by apply no_newline_check|reflexivity
    |right; right; simpl; lia].
Defined.

(** X10.  A newline is counted, not written: writing [b] followed by
    newlines leaves the state that writing [b] leaves, with the newlines
    noted one by one; in single-line mode the buffers hold what they hold
    after [b] alone, so a text never ends in a newline. *)
Theorem X10_trailing_newlines_not_written (b : bytes) (k : nat) (s : errbase.state) :
  errbase.Write (b ++ replicate k LF) s =
    Nat.iter k errbase.noteNewline (errbase.Write b s) /\
  (errbase.wantDetail s = false ->
   errbase.buf (errbase.Write (b ++ replicate k LF) s) = errbase.buf (errbase.Write b s) /\
   errbase.headBuf (errbase.Write (b ++ replicate k LF) s) =
     errbase.headBuf (errbase.Write b s) /\
   errbase.needNewline (errbase.Write (b ++ replicate k LF) s) =
     errbase.needNewline (errbase.Write b s) + Z.of_nat k).
Proof.
  assert (errbase.Write (b ++ replicate k LF) s =
          Nat.iter k errbase.noteNewline (errbase.Write b s)) as Hiter.
  { induction k as [|k IH]; [by rewrite app_nil_r|].
    rewrite replicate_S_end, app_assoc, Write_snoc_LF, IH. done. }
  split; [exact Hiter|]. intros Hmode. rewrite Hiter. clear Hiter.
  pose proof (sameOutsidePrinter_Write b s) as (_ & _ & _ & _ & Hwd).
  rewrite Hmode in Hwd. revert Hwd. generalize (errbase.Write b s). intros s' Hwd.
  induction k as [|k IH]; [repeat split; cbn; lia|].
  rewrite Nat.iter_succ. destruct IH as (Hbuf & Hhead & Hnn).
  assert (errbase.wantDetail (Nat.iter k errbase.noteNewline s') = false) as Hwd'.
  { clear -Hwd. induction k as [|k IH]; [done|]. rewrite Nat.iter_succ.
    pose proof (sameOutsidePrinter_noteNewline (Nat.iter k errbase.noteNewline s'))
      as (_ & _ & _ & _ & Hsame). congruence. }
  revert Hbuf Hhead Hnn Hwd'. generalize (Nat.iter k errbase.noteNewline s').
  intros s'' Hbuf Hhead Hnn Hwd'. unfold errbase.noteNewline. cbv zeta.
  replace (errbase.wantDetail (errbase.withFlags _ _ _ _ s'')) with false
    by (by destruct s'').
  destruct s''; state_fields; subst. repeat split; try done; lia.
Qed.

Lemma X10_trailing_newlines_witness :
  errbase.wantDetail (errbase.newState scenario.plain) = false /\
  errbase.buf (errbase.Write (B "boom" ++ replicate 2 LF) (errbase.newState scenario.plain)) =
  errbase.buf (errbase.Write (B "boom") (errbase.newState scenario.plain)).
Proof.
  split; [reflexivity|].
  apply (proj2 (X10_trailing_newlines_not_written (B "boom") 2
                  (errbase.newState scenario.plain)) eq_refl).
Defined.

(** ** Head and details *)

Section detail_facts.
Import errbase.

Ltac unfold_state :=
  unfold afterText, noteNewline, pendingNewlines, separator, detail,
    collectEntry, reinit in *;
  state_fields; subst.

Lemma detail_after_head t1 s :
  buf s = [] -> LF ∉ t1 -> t1 <> [] ->
  detail (Write t1 (reinit true s)) =
  (true,
   {| State := State s; entries := entries s; headBuf := t1;
      lastStack := lastStack s; finalBuf := finalBuf s; buf := [];
      needNewline := 1; hasDetail := true;
      collectingRedactableString := collectingRedactableString s;
      notEmpty := false; needSpace := false;
      wantDetail := true; multiLine := false |}).
Proof.
  intros Hbuf Hlf Hne.
  rewrite Write_text; [|done|done|done|right; left; by destruct s; cbn; lia].
  destruct s. unfold_state.
  rewrite !(bool_decide_eq_false_2 (0 < 0)) by lia. done.
Qed.

Lemma detail_without_head s :
  buf s = [] ->
  detail (Write [] (reinit true s)) =
  (true,
   {| State := State s; entries := entries s; headBuf := [];
      lastStack := lastStack s; finalBuf := finalBuf s; buf := [];
      needNewline := 0; hasDetail := true;
      collectingRedactableString := collectingRedactableString s;
      notEmpty := false; needSpace := false;
      wantDetail := true; multiLine := false |}).
Proof. intros Hbuf. destruct s. by unfold_state. Qed.

Lemma detail_split err t1 t2 s :
  buf s = [] -> LF ∉ t1 -> LF ∉ t2 ->
  let s1 := Write t1 (reinit true s) in
  let entry := collectEntry err (Write t2 (detail s1).2) in
  (detail s1).1 = true /\
  head entry = t1 /\
  (t1 = [] \/ (2 <= length t2)%nat ->
   details entry = match t1 with [] => [] | _ :: _ => detailSep end ++ t2) /\
  (t1 <> [] -> (length t2 <= 1)%nat -> details entry = t2).
Proof.
  intros Hbuf Hlf1 Hlf2 s1 entry. subst s1 entry.
  destruct t1 as [|c1 t1].
  - rewrite (detail_without_head s Hbuf). cbn [fst snd].
    destruct t2 as [|c2 t2].
    + repeat split; try done.
    + rewrite Write_text; [|done|done|done|right; left; cbn; lia].
      unfold_state. rewrite !(bool_decide_eq_false_2 (0 < 0)) by lia.
      repeat split; try done.
  - rewrite (detail_after_head (c1 :: t1) s Hbuf Hlf1) by done. cbn [fst snd].
    split; [done|].
    destruct t2 as [|c2 [|c2' t2]].
    + repeat split; try done. cbn. intros [?|?]; [done|lia].
    + apply not_elem_of_cons in Hlf2 as [Hc2 _].
      unfold Write. cbn [length Nat.eqb writeLoop].
      rewrite (bool_decide_eq_false_2 (c2 = LF)) by congruence.
      cbn. repeat split; try done. intros [?|?]; [done|lia].
    + rewrite Write_text; [|done|done|done|right; right; cbn; lia].
      unfold_state. rewrite !(bool_decide_eq_true_2 (0 < 1)) by lia.
      repeat split; try done. cbn. lia.
Qed.

End detail_facts.

(** X11.  In detailed mode, what a link prints before it asks [Detail]
    is the head of its entry and what it prints afterwards is the details.
    For texts without a newline: after an empty head the details are the
    text itself; after a head that is not empty, a text of two bytes or
    more starts on a detail line of its own, ["\n  | "] before it, and a
    text of one byte follows with no separator. *)
Theorem X11_detail_splits_head_and_details (err : option errbase.error)
    (t1 t2 : bytes) (s : errbase.state) :
  errbase.buf s = [] -> LF ∉ t1 -> LF ∉ t2 ->
  let s1 := errbase.Write t1 (errbase.reinit true s) in
  let entry := errbase.collectEntry err (errbase.Write t2 (errbase.detail s1).2) in
  (errbase.detail s1).1 = true /\
  errbase.head entry = t1 /\
  (t1 = [] \/ (2 <= length t2)%nat ->
   errbase.details entry =
   match t1 with [] => [] | _ :: _ => errbase.detailSep end ++ t2) /\
  (t1 <> [] -> (length t2 <= 1)%nat -> errbase.details entry = t2).
Proof. apply detail_split. Qed.

Lemma X11_detail_splits_witness :
  errbase.details
    (errbase.collectEntry (Some scenario.leaf)
       (errbase.Write (B "kind: internal error")
          (errbase.detail
             (errbase.Write (B "wrapped")
                (errbase.reinit true (errbase.newState scenario.plain)))).2)) =
  (LF :: B "  | ") ++ B "kind: internal error".
Proof.
  pose proof (X11_detail_splits_head_and_details (Some scenario.leaf)
                (B "wrapped") (B "kind: internal error")
                (errbase.newState scenario.plain) eq_refl
                (no_newline_check (B "wrapped") eq_refl)
                (no_newline_check (B "kind: internal error") eq_refl))
    as (_ & _ & Hdetails & _).
  apply Hdetails. right. simpl. lia.
Defined.

(** ** Chains rendered by the simple fallback *)

Section simple_chain_facts.
Import errbase.
Context {M : Methods}.

Lemma extractPrefix_elem_of err cause x :
  x ∈ extractPrefix err cause -> x ∈ Error err.
Proof.
  unfold extractPrefix.
  destruct (HasSuffix (Error err) (Error cause)); [|by intros ?%elem_of_nil].
  destruct (HasSuffix _ (B ": ")); [|by intros ?%elem_of_nil].
  intros Hx. by do 2 apply subseteq_take in Hx.
Qed.

Lemma simpleHead_no_newline l : LF ∉ Error l -> LF ∉ simpleHead l.
Proof.
  unfold simpleHead. cbn [UnwrapOnce]. intros Hlf.
  destruct (Cause l); [|done]. intros Hx. by apply extractPrefix_elem_of in Hx.
Qed.

Lemma defaultDispatch_simple l isOutermost s :
  simpleLink l -> buf s = [] -> needNewline s = 0 -> needSpace s = false ->
  exists s',
    defaultDispatch (Some l) (UnwrapOnce (Some l)) isOutermost s = Return (false, s') /\
    buf s' = simpleHead l /\ headBuf s' = headBuf s /\ hasDetail s' = hasDetail s /\
    sameOutsidePrinter s s'.
Proof.
  intros (HF & Hf & Hlf) Hbuf Hnn Hsp.
  assert (formatSimple (Some l) (UnwrapOnce (Some l)) s =
          Return (Write (simpleHead l) s)) as Hsimple.
  { unfold formatSimple, simpleHead. cbn [UnwrapOnce].
    by destruct (match Cause l with Some c => extractPrefix l c | None => Error l end). }
  assert (defaultDispatch (Some l) (UnwrapOnce (Some l)) isOutermost s =
          Return (false, Write (simpleHead l) s)) as ->.
  { unfold defaultDispatch. rewrite HF.
    destruct (asFmtFormatter l) as [Format|] eqn:Ef.
    - destruct Hf as [?|Hcause]; [done|]. cbn [UnwrapOnce].
      destruct (Cause l) eqn:Ec; [|done]. cbn [isNil].
      rewrite andb_false_r. cbn [UnwrapOnce] in Hsimple. rewrite Ec in Hsimple.
      by rewrite Hsimple.
    - by rewrite Hsimple. }
  eexists. split; [done|].
  pose proof (simpleHead_no_newline l Hlf) as Hhead.
  destruct (simpleHead l) as [|c h] eqn:Eh.
  - rewrite Write_nil. repeat split; done.
  - rewrite Write_text; [|done|done|done|right; left; lia].
    destruct s. unfold afterText, pendingNewlines, bufWrite, withFlags, withBuf.
    cbn in *. subst. rewrite !(bool_decide_eq_false_2 (0 < 0)) by lia.
    repeat split; done.
Qed.

Lemma collectLink_entry err seenTrace s :
  exists entry,
    entries (collectLink err seenTrace s) = entries s ++ [entry] /\
    head entry = head (collectEntry err s) /\
    details entry = details (collectEntry err s) /\
    errbase.err entry = err /\ elideShort entry = false /\
    State (collectLink err seenTrace s) = State s /\
    finalBuf (collectLink err seenTrace s) = finalBuf s /\
    buf (collectLink err seenTrace s) = [].
Proof.
  unfold collectLink.
  assert (errbase.err (collectEntry err s) = err /\
          elideShort (collectEntry err s) = false) as [Herr Hshort].
  { unfold collectEntry. by destruct (wantDetail s), (hasDetail s). }
  destruct seenTrace; [by eexists|].
  destruct (asStackTraceProvider err) as [st|]; [|by eexists].
  destruct (ElideSharedStackTraceSuffix (lastStack s) st) as [trace elided].
  destruct (returnsNilSlice err); by eexists.
Qed.

Lemma formatLink_simple l isOutermost withDetail s :
  simpleLink l -> buf s = [] ->
  exists s' entry,
    formatLink [] (Some l) (UnwrapOnce (Some l)) isOutermost withDetail s = Return s' /\
    entries s' = entries s ++ [entry] /\ simpleEntry entry l /\
    State s' = State s /\ finalBuf s' = finalBuf s /\ buf s' = [].
Proof.
  intros Hsimple Hbuf. unfold formatLink. cbv zeta. cbn [runSpecialCases].
  destruct (defaultDispatch_simple l isOutermost (reinit withDetail s) Hsimple)
    as (s1 & -> & Hbuf1 & Hhead1 & Hdet1 & (HS & He & Hf & _ & Hwd));
    [by destruct s|done|done|].
  cbn [mbind outcome_bind].
  destruct (collectLink_entry (Some l) false s1)
    as (entry & Hentries & Hhead & Hdetails & Herr & Hshort & HS' & Hf' & Hbuf').
  exists (collectLink (Some l) false s1), entry.
  split; [done|]. rewrite Hentries, He, HS', HS, Hf', Hf.
  repeat split; try done.
  - rewrite Hhead. unfold collectEntry. rewrite Hwd, Hdet1, Hhead1, Hbuf1.
    cbn. by destruct withDetail.
  - rewrite Hdetails. unfold collectEntry. rewrite Hwd, Hdet1.
    cbn. by destruct withDetail.
Qed.

Lemma formatChain_simple e : forall isOutermost withDetail s,
  Forall simpleLink (links e) -> buf s = [] ->
  exists s' news,
    formatChain [] e isOutermost withDetail s = Return s' /\
    entries s' = entries s ++ rev news /\ Forall2 simpleEntry news (links e) /\
    State s' = State s /\ finalBuf s' = finalBuf s /\ buf s' = [].
Proof.
  induction e as [e IH] using error_chain_ind.
  intros isOutermost withDetail s Hall Hbuf.
  destruct e as [a t m [c|] st nl]; cbn [links formatChain UnwrapOnce Cause] in *.
  - apply Forall_cons in Hall as [Hlink Hall].
    destruct (IH c eq_refl false withDetail s Hall Hbuf)
      as (s1 & news & -> & Hentries & Hnews & HS & Hf & Hbuf1).
    cbn [mbind outcome_bind].
    destruct (formatLink_simple _ isOutermost withDetail s1 Hlink Hbuf1)
      as (s' & entry & Hlink' & Hentries' & Hentry & HS' & Hf' & Hbuf').
    cbn [UnwrapOnce Cause] in Hlink'.
    exists s', (entry :: news). split; [done|].
    rewrite Hentries', Hentries, HS', HS, Hf', Hf. cbn [rev].
    rewrite app_assoc. repeat split; try done. by constructor.
  - apply Forall_cons in Hall as [Hlink _].
    cbn [mbind outcome_bind].
    destruct (formatLink_simple _ isOutermost withDetail s Hlink Hbuf)
      as (s' & entry & Hlink' & Hentries' & Hentry & HS' & Hf' & Hbuf').
    cbn [UnwrapOnce Cause] in Hlink'.
    exists s', [entry]. split; [done|].
    repeat split; try done. constructor; [done|constructor].
Qed.

Lemma summary_simple news ls :
  Forall2 simpleEntry news ls ->
  summary news = joinWith (B ": ") (List.filter nonEmpty (map simpleHead ls)).
Proof.
  intros Hall. unfold summary. f_equal.
  induction Hall as [|entry l news ls (Herr & Hhead & Hdet & Hshort) Hall IH]; [done|].
  cbn [List.filter map]. unfold shownInSummary at 1, nonEmpty at 1.
  rewrite Hshort, Hhead. cbn [negb andb].
  destruct (negb _); cbn [map]; by rewrite IH, ?Hhead.
Qed.

Lemma prefixChain_message e : prefixChain e -> Error e <> [].
Proof.
  induction e as [e IH] using error_chain_ind.
  destruct e as [a t m [c|] st nl]; cbn [prefixChain UnwrapOnce Cause Error] in *;
    [|done].
  intros [Hc [->|(p & Hp & ->)]]; [by apply (IH c)|].
  by destruct p.
Qed.

Lemma extractPrefix_same_message err cause :
  Error err = Error cause -> extractPrefix err cause = [].
Proof.
  intros Hsame. unfold extractPrefix. rewrite Hsame.
  destruct (HasSuffix _ _); [|done]. by rewrite Nat.sub_diag.
Qed.

Lemma prefixChain_joined e :
  prefixChain e ->
  joinWith (B ": ") (List.filter nonEmpty (map simpleHead (links e))) = Error e.
Proof.
  induction e as [e IH] using error_chain_ind. intros Hchain.
  pose proof (prefixChain_message e Hchain) as Hmsg.
  destruct e as [a t m [c|] st nl];
    cbn [prefixChain links map UnwrapOnce Cause Error] in *.
  - destruct Hchain as [Hc Hshape]. specialize (IH c eq_refl Hc).
    pose proof (prefixChain_message c Hc) as Hmc.
    set (e := {| addr := a; TypeOf := t; Error := m; Cause := Some c;
                 StackTraceOf := st; nilTrace := nl |}) in *.
    change (simpleHead e) with (extractPrefix e c).
    destruct Hshape as [Hsame|(p & Hp & Hext)].
    + rewrite (extractPrefix_same_message e c) by done.
      cbn [List.filter nonEmpty length Nat.eqb negb]. by rewrite IH.
    + rewrite (extractPrefix_extension e c p) by done.
      cbn [List.filter]. unfold nonEmpty at 1.
      replace (negb (length p =? 0)%nat) with true by (by destruct p).
      destruct (List.filter nonEmpty (map simpleHead (links c))) as [|h hs] eqn:Ef.
      * by cbn in IH.
      * change (joinWith (B ": ") (p :: h :: hs))
          with (p ++ B ": " ++ joinWith (B ": ") (h :: hs)).
        by rewrite IH.
  - unfold simpleHead. cbn [UnwrapOnce Cause Error List.filter].
    unfold nonEmpty.
    replace (negb (length m =? 0)%nat) with true by (by destruct m). done.
Qed.

End simple_chain_facts.

Section simple_chain_rendering.
Import errbase.
Context {M : Methods} {L : Library}.

Lemma formatErrorInternal_simple e f verb :
  Forall simpleLink (links e) ->
  verb = rune "s" \/
  (verb = rune "v" /\ Flag f (rune "+") = false /\ Flag f (rune "#") = false) ->
  (Width f).2 = false -> (Precision f).2 = false ->
  formatErrorInternal [] (Some e) f verb =
  Return (fmtWrite f
    (joinWith (B ": ") (List.filter nonEmpty (map simpleHead (links e))))).
Proof.
  intros Hall Hverb Hw Hp. unfold formatErrorInternal. cbv zeta.
  destruct (formatChain_simple e true false (newState f) Hall eq_refl)
    as (p & news & Hrun & Hentries & Hnews & HS & Hf & _).
  cbn [newState entries app State finalBuf] in Hentries, HS, Hf.
  assert (bool_decide (verb = rune "v") && Flag f (rune "+") &&
          negb (Flag f (rune "#")) = false) as ->.
  { destruct Hverb as [->|(-> & -> & _)]; [done|]. by rewrite andb_false_r. }
  assert (bool_decide (verb = rune "v") && Flag f (rune "#") = false) as ->.
  { destruct Hverb as [->|(-> & _ & ->)]; [done|]. by rewrite andb_false_r. }
  assert (bool_decide (verb = rune "s") ||
          bool_decide (verb = rune "v") && negb (Flag f (rune "#")) ||
          (bool_decide (verb = rune "x") || bool_decide (verb = rune "X") ||
           bool_decide (verb = rune "q")) = true) as ->.
  { destruct Hverb as [->|(-> & _ & ->)]; done. }
  cbn [formatRecursive]. rewrite Hrun. cbn [mbind outcome_bind].
  rewrite formatSingleLineOutput_summary by done. cbn [mbind outcome_bind].
  rewrite Hentries, rev_involutive, (summary_simple news (links e)) by done.
  f_equal. unfold finishDisplay. destruct p as [F ? ? ? ? ? ? ? ? ? ? ? ?].
  cbn in HS. subst F. cbn [State withFinalBuf].
  destruct (Width f) as [w okW], (Precision f) as [pr okP]. cbn in Hw, Hp. subst.
  assert (bool_decide (verb = rune "v") || bool_decide (verb = rune "s") = true)
    as ->.
  { destruct Hverb as [->|(-> & _)]; done. }
  done.
Qed.

(** X12.  For a chain whose links all go to the simple fallback of
    [formatRecursive] (none is a [Formatter], none but a leaf is left to
    its [fmt.Formatter], no message holds a newline) and with no
    special-case handler registered, [formatRecursive] returns, in either
    mode, and adds one entry per link to the entries it was given,
    innermost link first: the entry holds the link, its head is the link's
    prefix (the message, for the leaf), its details are empty and it is not
    elided.  The caller's [fmt.State] and the final buffer are left as they
    were. *)
Theorem X12_simple_chain_entries (e : error) (isOutermost withDetail : bool)
    (s : state) :
  Forall simpleLink (links e) -> buf s = [] ->
  exists s' news,
    formatRecursive [] (Some e) isOutermost withDetail s = Return s' /\
    entries s' = entries s ++ rev news /\
    Forall2 simpleEntry news (links e) /\
    State s' = State s /\ finalBuf s' = finalBuf s.
Proof.
  intros Hall Hbuf.
  destruct (formatChain_simple e isOutermost withDetail s Hall Hbuf)
    as (s' & news & Hrun & Hentries & Hnews & HS & Hf & _).
  by exists s', news.
Qed.

(** X13.  [%s], and [%v] without the flags [+] and [#], print exactly
    [err.Error()] when no width and no precision are given, for a chain
    whose links all go to the simple fallback (none is a [Formatter], no
    leaf is a [fmt.Formatter], no message holds a newline) and whose
    messages extend one another: each wrapper's message is its cause's, as
    it is or after a non-empty prefix and [": "], and the leaf's message is
    not empty. *)
Theorem X13_simple_chain_prints_message (e : error) (f : fmtState) (verb : Z) :
  Forall simpleLink (links e) -> prefixChain e ->
  verb = rune "s" \/
  (verb = rune "v" /\ Flag f (rune "+") = false /\ Flag f (rune "#") = false) ->
  (Width f).2 = false -> (Precision f).2 = false ->
  FormatError [] (Some e) f verb = Return (fmtWrite f (Error e)).
Proof.
  intros Hall Hchain Hverb Hw Hp. unfold FormatError.
  rewrite formatErrorInternal_simple by done.
  by rewrite prefixChain_joined.
Qed.

End simple_chain_rendering.

Lemma scenario_simple_chain :
  Forall (@errbase.simpleLink scenario.noMethods) (errbase.links scenario.outer).
Proof.
  repeat constructor; cbn; try done;
    intros Hin; repeat (apply elem_of_cons in Hin as [Hin|Hin]; [done|]);
    by apply elem_of_nil in Hin.
Qed.

Lemma X12_simple_chain_witness :
  exists s' news,
    @errbase.formatRecursive scenario.noMethods []
      (Some scenario.outer) true false (errbase.newState scenario.plain) =
      Return s' /\
    errbase.entries s' = errbase.entries (errbase.newState scenario.plain) ++ rev news /\
    Forall2 errbase.simpleEntry news (errbase.links scenario.outer) /\
    errbase.State s' = errbase.State (errbase.newState scenario.plain) /\
    errbase.finalBuf s' = errbase.finalBuf (errbase.newState scenario.plain).
Proof.
  apply (@X12_simple_chain_entries scenario.noMethods).
  - exact scenario_simple_chain.
  - reflexivity.
Defined.

Lemma X13_simple_chain_witness :
  @errbase.FormatError scenario.noMethods scenario.library []
    (Some scenario.outer) scenario.plain (rune "v") =
  Return (errbase.fmtWrite scenario.plain (B "read config: boom")).
Proof.
  apply (@X13_simple_chain_prints_message scenario.noMethods scenario.library
           scenario.outer scenario.plain (rune "v")).
  - exact scenario_simple_chain.
  - cbn. split; [split|]; [done| |by left].
    right. exists (B "read config"). by split.
  - right. by repeat split.
  - reflexivity.
  - reflexivity.
Defined.

(** ** Panics *)

Section panics.
Import errbase.
Context {M : Methods} {L : Library}.

Lemma entries_collectLink err seenTrace s :
  entries (collectLink err seenTrace s) <> [].
Proof.
  destruct (collectLink_entry err seenTrace s) as (entry & -> & _).
  by destruct (entries s).
Qed.

Lemma formatLink_returns fns (e : error) cause isOutermost withDetail s :
  exists s',
    formatLink fns (Some e) cause isOutermost withDetail s = Return s' /\
    entries s' <> [].
Proof.
  unfold formatLink. cbv zeta.
  destruct (runSpecialCases fns (Some e) (isNil cause) (reinit withDetail s))
    as [[] s1]; cbn [mbind outcome_bind].
  { eexists. split; [done|]. apply entries_collectLink. }
  assert (exists r, defaultDispatch (Some e) cause isOutermost s1 = Return r)
    as [[seenTrace s2] ->].
  { assert (forall s, exists s', formatSimple (Some e) cause s = Return s') as Hsimple.
    { intros s0. unfold formatSimple. cbv zeta. destruct (_ <? _)%nat; by eexists. }
    unfold defaultDispatch.
    destruct (asFormatter e) as [F|].
    { destruct (F s1) as [next s2]. by eexists. }
    destruct (Hsimple s1) as [s2 Hs2].
    destruct (asFmtFormatter e) as [Format|].
    - destruct (negb isOutermost && isNil cause).
      + destruct (asStackTraceProvider (Some e)); by eexists.
      + rewrite Hs2. by eexists.
    - rewrite Hs2. by eexists. }
  cbn [mbind outcome_bind]. eexists. split; [done|]. apply entries_collectLink.
Qed.

Lemma formatChain_returns fns e isOutermost withDetail s :
  exists s',
    formatChain fns e isOutermost withDetail s = Return s' /\ entries s' <> [].
Proof.
  revert isOutermost s. induction e as [e IH] using error_chain_ind.
  intros isOutermost s.
  destruct e as [a t m [c|] st nl]; cbn [formatChain UnwrapOnce Cause].
  - destruct (IH c eq_refl false s) as (s1 & -> & _). cbn [mbind outcome_bind].
    apply formatLink_returns.
  - cbn [mbind outcome_bind]. apply formatLink_returns.
Qed.

Lemma formatSingleLineOutput_returns s :
  exists b, formatSingleLineOutput s = Return (withFinalBuf b s).
Proof.
  unfold formatSingleLineOutput. rewrite singleLineFrom_appendHeads by lia.
  by eexists.
Qed.

Lemma formatEntries_returns err s :
  entries s <> [] -> exists s', formatEntries err s = Return s'.
Proof.
  intros Hne. unfold formatEntries.
  destruct (formatSingleLineOutput_returns s) as [b ->]. cbn [mbind outcome_bind].
  rewrite entries_finalBufWrite, entries_withFinalBuf.
  destruct (length (entries s)) as [|i] eqn:Hlen.
  { by destruct (entries s). }
  destruct (index_lt (entries s) i) as (entry & _ & ->); [lia|].
  cbn [mbind outcome_bind].
  rewrite wrapsFrom_items by lia. cbn [mbind outcome_bind].
  rewrite typesFrom_items by done. by eexists.
Qed.

Lemma runSpecialCases_declined fns err isLeaf s :
  allDecline fns err isLeaf s ->
  runSpecialCases fns err isLeaf s = (false, afterDeclined fns err isLeaf s).
Proof.
  revert s. induction fns as [|fn fns IH]; intros s; [done|].
  cbn [allDecline runSpecialCases afterDeclined]. intros [Hfn Hrest].
  destruct (fn err s isLeaf) as [[handled next] s1]. cbn in Hfn, Hrest |- *.
  subst handled. by apply IH.
Qed.

(** X14.  On a non-nil error [FormatError] returns, for every verb, every
    setting of the flags, width and precision, every list of special-case
    handlers and whatever formatting methods the links of the chain have:
    no index it uses is out of range, and [Error] is never called on a nil
    error. *)
Theorem X14_FormatError_returns_on_error
    (specialCases : list safeErrorPrinterFn) (e : error) (f : fmtState)
    (verb : Z) :
  exists f', FormatError specialCases (Some e) f verb = Return f'.
Proof.
  unfold FormatError, formatErrorInternal. cbv zeta.
  destruct (_ && _ && _).
  { cbn [formatRecursive].
    destruct (formatChain_returns specialCases e true true (newState f))
      as (p & -> & Hne). cbn [mbind outcome_bind].
    destruct (formatEntries_returns (Some e) p Hne) as [p' ->]. by eexists. }
  destruct (_ && _); [by eexists|].
  destruct (_ || _ || _); [|by eexists].
  cbn [formatRecursive].
  destruct (formatChain_returns specialCases e true false (newState f))
    as (p & -> & _). cbn [mbind outcome_bind].
  destruct (formatSingleLineOutput_returns p) as [b ->]. by eexists.
Qed.

(** X15.  On the nil error, when every registered special-case handler
    declines it (in particular when none is registered), [FormatError]
    panics for [%s], [%x], [%X], [%q] and for [%v] and [%+v] without the
    flag [#]: the simple fallback calls [Error] on the nil error. *)
Theorem X15_FormatError_nil_panics
    (specialCases : list safeErrorPrinterFn) (f : fmtState) (verb : Z) :
  allDecline specialCases None true
    (reinit (bool_decide (verb = rune "v") && Flag f (rune "+")) (newState f)) ->
  verb ∈ [rune "s"; rune "x"; rune "X"; rune "q"] \/
  (verb = rune "v" /\ Flag f (rune "#") = false) ->
  FormatError specialCases None f verb = Panic "nil pointer dereference".
Proof.
  set (withDetail := bool_decide (verb = rune "v") && Flag f (rune "+")).
  intros Hdecline Hverb.
  assert (forall io, formatRecursive specialCases None io withDetail (newState f) =
                     Panic "nil pointer dereference") as Hpanic.
  { intros io. cbn [formatRecursive UnwrapOnce]. unfold formatLink. cbv zeta.
    cbn [isNil]. by rewrite (runSpecialCases_declined _ _ _ _ Hdecline). }
  unfold FormatError, formatErrorInternal. cbv zeta.
  destruct Hverb as [Hverb|[-> Hhash]].
  - assert (bool_decide (verb = rune "v") = false) as Hv.
    { apply bool_decide_eq_false.
      repeat (apply elem_of_cons in Hverb as [->|Hverb]; [done|]).
      by apply elem_of_nil in Hverb. }
    unfold withDetail in Hpanic. rewrite Hv in Hpanic |- *. cbn [andb orb].
    assert (bool_decide (verb = rune "s") ||
            (bool_decide (verb = rune "x") || bool_decide (verb = rune "X") ||
             bool_decide (verb = rune "q")) = true) as Hsupported.
    { repeat (apply elem_of_cons in Hverb as [->|Hverb]; [done|]).
      by apply elem_of_nil in Hverb. }
    rewrite orb_false_r, Hsupported. by rewrite Hpanic.
  - unfold withDetail in Hpanic. rewrite Hhash.
    rewrite bool_decide_eq_true_2 in Hpanic |- * by done. cbn [andb negb orb] in *.
    rewrite andb_true_r, orb_true_r.
    destruct (Flag f (rune "+")); by rewrite Hpanic.
Qed.

End panics.

Lemma X15_FormatError_nil_witness :
  @errbase.FormatError scenario.noMethods scenario.library
    [scenario.declining] None scenario.plus (rune "v") =
  Panic "nil pointer dereference".
Proof.
  apply (@X15_FormatError_nil_panics scenario.noMethods scenario.library
           [scenario.declining] scenario.plus (rune "v")).
  - cbn. done.
  - right. by split.
Defined.

(** ** A [Formatter] that returns nil *)

Section opaque_formatter.
Import errbase.
Context {M : Methods} {L : Library}.

Lemma leavesOutput_trans s1 s2 s3 :
  leavesOutput s1 s2 -> leavesOutput s2 s3 -> leavesOutput s1 s3.
Proof. intros [? ?] [? ?]. split; congruence. Qed.

Lemma leavesOutput_Write b s : leavesOutput s (Write b s).
Proof. destruct (sameOutsidePrinter_Write b s) as (? & _ & ? & _). by split. Qed.

Lemma formatLink_printerOnly l cause isOutermost withDetail s :
  printerOnly l ->
  exists s',
    formatLink [] (Some l) cause isOutermost withDetail s = Return s' /\
    leavesOutput s s' /\ buf s' = [].
Proof.
  intros [HF Hf]. unfold formatLink. cbv zeta. cbn [runSpecialCases].
  assert (leavesOutput s (reinit withDetail s)) as Hre by done.
  assert (exists seenTrace s1,
            defaultDispatch (Some l) cause isOutermost (reinit withDetail s) =
              Return (seenTrace, s1) /\
            leavesOutput (reinit withDetail s) s1) as (seenTrace & s1 & -> & H1).
  { assert (forall s, exists s', formatSimple (Some l) cause s = Return s' /\
                                 leavesOutput s s') as Hsimple.
    { intros s0. unfold formatSimple. cbv zeta.
      destruct (_ <? _)%nat; eexists; (split; [done|]);
        [apply leavesOutput_Write|done]. }
    unfold defaultDispatch.
    destruct (asFormatter l) as [F|].
    { specialize (HF F eq_refl (reinit withDetail s)).
      destruct (F (reinit withDetail s)) as [next s1]. cbn in HF.
      do 2 eexists. split; [done|]. by destruct next. }
    destruct (Hsimple (reinit withDetail s)) as (s1 & Hs1 & Hout).
    destruct (asFmtFormatter l) as [Format|].
    - destruct (negb isOutermost && isNil cause).
      + specialize (Hf Format eq_refl (reinit withDetail s)).
        destruct (asStackTraceProvider (Some l)); do 2 eexists; by split.
      + rewrite Hs1. by do 2 eexists.
    - rewrite Hs1. by do 2 eexists. }
  cbn [mbind outcome_bind]. eexists. split; [done|].
  destruct (collectLink_entry (Some l) seenTrace s1)
    as (entry & _ & _ & _ & _ & _ & HS & Hfin & Hbuf).
  split; [|done]. eapply leavesOutput_trans; [exact Hre|].
  eapply leavesOutput_trans; [exact H1|]. by split.
Qed.

Lemma formatChain_printerOnly e isOutermost withDetail s :
  Forall printerOnly (links e) ->
  exists s',
    formatChain [] e isOutermost withDetail s = Return s' /\
    leavesOutput s s' /\ buf s' = [].
Proof.
  revert isOutermost s. induction e as [e IH] using error_chain_ind.
  intros isOutermost s Hall.
  destruct e as [a t m [c|] st nl]; cbn [links formatChain UnwrapOnce Cause] in *;
    apply Forall_cons in Hall as [Hlink Hall].
  - destruct (IH c eq_refl false s Hall) as (s1 & -> & Hout & _).
    cbn [mbind outcome_bind].
    destruct (formatLink_printerOnly _ (Some c) isOutermost withDetail s1 Hlink)
      as (s' & -> & Hout' & Hbuf).
    eexists. split; [done|]. split; [|done]. by eapply leavesOutput_trans.
  - cbn [mbind outcome_bind]. by apply formatLink_printerOnly.
Qed.

Lemma summary_elided entry (inner : list formatEntry) :
  elideShort entry = false -> head entry <> [] ->
  summary (rev (map setElideShort inner ++ [entry])) = head entry.
Proof.
  intros Hshort Hhead. unfold summary. rewrite rev_app_distr. cbn [rev app List.filter].
  unfold shownInSummary at 1. rewrite Hshort.
  replace (length (head entry) =? 0)%nat with false by (by destruct (head entry)).
  cbn [negb andb map].
  rewrite <- List.map_rev.
  replace (List.filter shownInSummary (map setElideShort (rev inner))) with
    (@nil formatEntry); [done|].
  induction (rev inner) as [|x xs IH]; [done|]. by cbn [map List.filter].
Qed.

(** X16.  A [Formatter] whose [FormatError] prints a text and returns nil
    hides the links below it from the one-line rendering: [%s], and [%v]
    without the flags [+] and [#], print exactly that text when no width
    and no precision are given, whatever the links below print, as long as
    their methods only print.  The text is not empty and holds no
    newline. *)
Theorem X16_nil_next_hides_causes (e : error) (F : state -> option error * state)
    (msg : bytes) (f : fmtState) (verb : Z) :
  asFormatter e = Some F ->
  (forall s, F s = (None, Write msg s)) ->
  msg <> [] -> LF ∉ msg ->
  Forall printerOnly (chain (Cause e)) ->
  verb = rune "s" \/
  (verb = rune "v" /\ Flag f (rune "+") = false /\ Flag f (rune "#") = false) ->
  (Width f).2 = false -> (Precision f).2 = false ->
  FormatError [] (Some e) f verb = Return (fmtWrite f msg).
Proof.
  intros HF Hprint Hmsg Hlf Hinner Hverb Hw Hp.
  unfold FormatError, formatErrorInternal. cbv zeta.
  assert (bool_decide (verb = rune "v") && Flag f (rune "+") &&
          negb (Flag f (rune "#")) = false) as ->.
  { destruct Hverb as [->|(-> & -> & _)]; [done|]. by rewrite andb_false_r. }
  assert (bool_decide (verb = rune "v") && Flag f (rune "#") = false) as ->.
  { destruct Hverb as [->|(-> & _ & ->)]; [done|]. by rewrite andb_false_r. }
  assert (bool_decide (verb = rune "s") ||
          bool_decide (verb = rune "v") && negb (Flag f (rune "#")) ||
          (bool_decide (verb = rune "x") || bool_decide (verb = rune "X") ||
           bool_decide (verb = rune "q")) = true) as ->.
  { destruct Hverb as [->|(-> & _ & ->)]; done. }
  assert (exists s1,
            match UnwrapOnce (Some e) with
            | Some c => formatChain [] c false false (newState f)
            | None => Return (newState f)
            end = Return s1 /\ leavesOutput (newState f) s1 /\ buf s1 = [])
    as (s1 & Hinner' & [HS Hfin] & Hbuf).
  { cbn [UnwrapOnce]. destruct (Cause e) as [c|]; [|by eexists].
    by apply formatChain_printerOnly. }
  cbn [formatRecursive]. destruct e as [a t m cause st nl].
  cbn [formatChain]. rewrite Hinner'. cbn [mbind outcome_bind].
  unfold formatLink. cbv zeta. cbn [runSpecialCases].
  unfold defaultDispatch. rewrite HF, Hprint. cbn [mbind outcome_bind].
  rewrite Write_text; [|done|done|done|right; left; cbn; lia].
  set (e := {| addr := a; TypeOf := t; Error := m; Cause := cause;
               StackTraceOf := st; nilTrace := nl |}) in *.
  set (s2 := elideShortAll _).
  destruct (collectLink_entry (Some e) false s2)
    as (entry & Hentries & Hhead & _ & _ & Hshort & HS' & Hfin' & _).
  assert (head entry = msg) as Hentry.
  { rewrite Hhead. subst s2. destruct s1. cbn in Hbuf. subst.
    unfold collectEntry, pendingNewlines. cbn.
    rewrite (bool_decide_eq_false_2 (0 < 0)) by lia. done. }
  assert (entries s2 = map setElideShort (entries s1)) as Hinner2.
  { subst s2. by destruct s1. }
  assert (State s2 = f /\ finalBuf s2 = []) as [HS2 Hfin2].
  { subst s2. destruct s1. cbn in HS, Hfin |- *. by subst. }
  rewrite formatSingleLineOutput_summary by congruence.
  cbn [mbind outcome_bind].
  rewrite Hentries, Hinner2, summary_elided, Hentry by congruence.
  f_equal. unfold finishDisplay.
  rewrite HS2 in HS'. destruct (collectLink (Some e) false s2) as [F' ? ? ? ? ? ? ? ? ? ? ? ?].
  cbn in HS'. subst F'. cbn [State withFinalBuf finalBuf].
  destruct (Width f) as [w okW], (Precision f) as [pr okP]. cbn in Hw, Hp. subst.
  assert (bool_decide (verb = rune "v") || bool_decide (verb = rune "s") = true)
    as ->.
  { destruct Hverb as [->|(-> & _)]; done. }
  done.
Qed.

End opaque_formatter.

Lemma X16_nil_next_witness :
  @errbase.FormatError scenario.hiding scenario.library []
    (Some scenario.outer) scenario.plain (rune "v") =
  Return (errbase.fmtWrite scenario.plain (B "load failed")).
Proof.
  apply (@X16_nil_next_hides_causes scenario.hiding scenario.library
           scenario.outer (fun s => (None, errbase.Write (B "load failed") s))
           (B "load failed") scenario.plain (rune "v")).
  - reflexivity.
  - reflexivity.
  - discriminate.
  - by apply no_newline_check.
  - change (Forall (@errbase.printerOnly scenario.hiding)
              [scenario.middle; scenario.leaf]).
    apply Forall_cons_2; [|apply Forall_cons_2; [|apply Forall_nil_2]];
      (split; intros ? Hmethod; vm_compute in Hmethod; discriminate).
  - right. by repeat split.
  - reflexivity.
  - reflexivity.
Defined.

(** ** KhanWrap, newError and the constructors by kind *)

Section khan_facts.
Import errors khan.
Context {R : Runtime}.

Lemma even_tail (a b : any) args :
  (length (a :: b :: args) mod 2 =? 0)%nat = (length args mod 2 =? 0)%nat.
Proof.
  cbn [length].
  replace (S (S (length args))) with (length args + 1 * 2)%nat by lia.
  by rewrite Nat.Div0.mod_add.
Qed.

(** With string keys and an even number of arguments the loop stores
    every pair. *)
Lemma wrapFields_wellformed n : forall args fields,
  (length args <= n)%nat ->
  (length args mod 2 =? 0)%nat = true ->
  forallb isString (keysOf args) = true ->
  wrapFields args fields = Return (inr (insertPairs (pairsOf args) fields)).
Proof.
  induction n as [|n IH]; intros args fields Hlen Heven Hkeys.
  - destruct args; [done|simpl in Hlen; lia].
  - destruct args as [|key [|value args]]; [done|discriminate|].
    cbn [keysOf forallb] in Hkeys. apply andb_true_iff in Hkeys as [Hkey Hkeys].
    destruct key; try discriminate.
    cbn [wrapFields pairsOf]. rewrite even_tail in Heven.
    rewrite IH; [done|simpl in Hlen; lia|done|done].
Qed.

Lemma insertPairs_lookup pairs : forall (fields : Fields) key,
  insertPairs pairs fields !! key =
  match lastValue key pairs with
  | Some value => Some value
  | None => fields !! key
  end.
Proof.
  induction pairs as [|[k v] pairs IH]; intros fields key; [done|].
  change (insertPairs ((k, v) :: pairs) fields)
    with (insertPairs pairs (<[k:=v]> fields)).
  rewrite IH. unfold lastValue. rewrite filter_cons. cbn [fst snd].
  destruct (decide (k = key)) as [->|Hne].
  - rewrite last_cons.
    destruct (last (filter _ pairs)) as [[k' v']|]; cbn; [done|].
    by rewrite lookup_insert_eq.
  - destruct (last (filter _ pairs)) as [[k' v']|]; cbn; [done|].
    by rewrite lookup_insert_ne.
Qed.

Lemma malformed_false args :
  malformed args = false ->
  (length args mod 2 =? 0)%nat = true /\ forallb isString (keysOf args) = true.
Proof.
  unfold malformed. rewrite odd_mod2. intros [Hodd Hkeys]%orb_false_iff.
  split; [by apply negb_false_iff|by apply negb_false_iff].
Qed.

Lemma KhanWrap_wellformed e args :
  malformed args = false -> kindOf e <> Some UnspecifiedKind ->
  KhanWrap (Some e) args =
  (match e with Foreign _ _ _ => ["Default"] | _ => [] end,
   Return (Some (Khan (kindFor e) e (Some (insertPairs (pairsOf args) ∅))
                   (callers 3)))).
Proof.
  intros [Heven Hkeys]%malformed_false Hkind. unfold KhanWrap.
  rewrite Heven. cbn [negb].
  rewrite (wrapFields_wellformed (length args)) by done.
  destruct e as [k|errKind cause f st|a m c]; [done| |done].
  rewrite bool_decide_eq_false_2; [done|]. intros ->. by apply Hkind.
Qed.

Lemma newErrorArgs_last args : forall message cause fields,
  newErrorArgs args message cause fields =
  (default message (last (omap asStr args)),
   default cause (last (omap asErr args)),
   default fields (last (omap asFields args))).
Proof.
  induction args as [|arg args IH]; intros message cause fields; [done|].
  destruct arg; cbn [newErrorArgs omap list_omap asStr asErr asFields];
    rewrite IH, ?last_cons;
    repeat match goal with |- context [last ?l] => destruct (last l) end; done.
Qed.

Lemma newError_last kind args :
  newError kind args =
  Some (Khan kind (default (Kind kind) (last (omap asErr args)))
          (withMessage (default "" (last (omap asStr args)))
                       (default None (last (omap asFields args))))
          (callers 3)).
Proof.
  unfold newError. rewrite newErrorArgs_last. unfold withMessage.
  case_bool_decide; [|done].
  destruct (default None (last (omap asFields args))); [done|].
  cbn [from_option]. by rewrite insert_empty.
Qed.

End khan_facts.

(** X17.  For an error that is not nil and is not a [*khanError] of the
    unspecified kind, and for an even number of arguments whose keys are
    all strings, [KhanWrap] returns a [*khanError] around the error
    itself: it has the kind of the error when the error is a [*khanError]
    or an [errorKind], and [InternalKind] otherwise (["Default"] is then
    printed), and its fields hold under each key the value of the last
    pair with that key, and no other key. *)
Theorem X17_KhanWrap_fields {R : errors.Runtime} (e : khan.error)
    (args : list khan.any) :
  khan.malformed args = false ->
  khan.kindOf e <> Some khan.UnspecifiedKind ->
  exists fields,
    khan.KhanWrap (Some e) args =
      (match e with khan.Foreign _ _ _ => ["Default"] | _ => [] end,
       Return (Some (khan.Khan (khan.kindFor e) e (Some fields) (errors.callers 3)))) /\
    forall key, fields !! key = khan.lastValue key (khan.pairsOf args).
Proof.
  intros Hargs Hkind. eexists. split; [by apply KhanWrap_wellformed|].
  intros key. rewrite insertPairs_lookup.
  by destruct (khan.lastValue key (khan.pairsOf args)).
Qed.

Lemma X17_KhanWrap_fields_witness :
  exists fields,
    @khan.KhanWrap scenario.runtime (Some scenario.something)
      [khan.Str "key"; khan.Str "old"; khan.Str "key"; khan.Str "new"] =
      (["Default"],
       Return (Some (khan.Khan khan.InternalKind scenario.something (Some fields)
                       [100; 200]))) /\
    forall key, fields !! key =
      khan.lastValue key [("key", khan.Str "old"); ("key", khan.Str "new")].
Proof.
  apply (@X17_KhanWrap_fields scenario.runtime scenario.something
           [khan.Str "key"; khan.Str "old"; khan.Str "key"; khan.Str "new"]).
  - reflexivity.
  - discriminate.
Defined.

(** X18.  [KhanWrap] keeps the message and the chain: for an error that
    is not nil, whatever the arguments are, the error returned has the
    original error as its cause and the same [Error()] text, unless the
    error is a [*khanError] of the unspecified kind wrapped with
    well-formed arguments. *)
Theorem X18_KhanWrap_keeps_message {R : errors.Runtime} (e : khan.error)
    (args : list khan.any) :
  khan.kindOf e <> Some khan.UnspecifiedKind \/ khan.malformed args = true ->
  exists r,
    (khan.KhanWrap (Some e) args).2 = Return (Some r) /\
    khan.Unwrap r = Some e /\ khan.Error r = khan.Error e.
Proof.
  intros Hcase. destruct (khan.malformed args) eqn:Hargs.
  - destruct (KhanWrap_malformed e args Hargs) as (fields & stack & ->).
    by eexists.
  - destruct Hcase as [Hkind|?]; [|done].
    rewrite (KhanWrap_wellformed e args Hargs Hkind). by eexists.
Qed.

Lemma X18_KhanWrap_keeps_message_witness :
  exists r,
    (@khan.KhanWrap scenario.runtime (Some scenario.something)
       [khan.Str "key"]).2 = Return (Some r) /\
    khan.Unwrap r = Some scenario.something /\
    khan.Error r = "something".
Proof.
  apply (@X18_KhanWrap_keeps_message scenario.runtime scenario.something
           [khan.Str "key"]).
  left. discriminate.
Defined.

(** X19.  [newError]: of the arguments that are errors the last one is
    the cause, and the kind itself when there is none; of the strings the
    last one is the message, stored under the key ["message"] unless it is
    empty; of the [Fields] and maps the last one gives the fields.  The
    other arguments are ignored.  The error returned is never nil. *)
Theorem X19_newError_last_wins {R : errors.Runtime} (kind : khan.errorKind)
    (args : list khan.any) :
  khan.newError kind args =
  Some (khan.Khan kind
          (default (khan.Kind kind) (last (omap khan.asErr args)))
          (khan.withMessage (default "" (last (omap khan.asStr args)))
             (default None (last (omap khan.asFields args))))
          (errors.callers 3)).
Proof. apply newError_last. Qed.

Section khan_edge_facts.
Import errors khan.
Context {R : Runtime}.

Lemma omap_asErr_none args :
  Forall (fun a => isErr a = false) args -> omap asErr args = [].
Proof.
  induction 1 as [|arg args Harg _ IH]; [done|].
  destruct arg; try discriminate; exact IH.
Qed.

Lemma KhanWrap_unspecified cause f st args :
  malformed args = false ->
  KhanWrap (Some (Khan UnspecifiedKind cause f st)) args =
  ([], Return (newError InternalKind args)).
Proof.
  intros [Heven Hkeys]%malformed_false. unfold KhanWrap.
  rewrite Heven. cbn [negb].
  by rewrite (wrapFields_wellformed (length args)) by done.
Qed.

Lemma KhanWrap_kind_wellformed k args :
  malformed args = false ->
  exists fields,
    KhanWrap (Some (Kind k)) args =
      ([], Return (Some (Khan k (Kind k) (Some fields) (callers 3)))) /\
    forall key, fields !! key = lastValue key (pairsOf args).
Proof.
  intros Hargs. eexists. split; [by apply KhanWrap_wellformed|].
  intros key. rewrite insertPairs_lookup.
  by destruct (lastValue key (pairsOf args)).
Qed.

End khan_edge_facts.

(** X20.  [KhanWrap] on a [*khanError] of the unspecified kind, with an
    even number of arguments whose keys are strings and none of which is
    an error, drops the error it was given: what it returns has the kind
    [InternalKind] and the bare kind as its cause, so neither the original
    error nor its message is in the chain.  The pairs are not stored
    either: the arguments go to [newError], which takes the last string
    among them, key or value, as the message. *)
Theorem X20_KhanWrap_unspecified_drops_error {R : errors.Runtime}
    (cause : khan.error) (f : option khan.Fields) (st : list uintptr)
    (args : list khan.any) :
  khan.malformed args = false ->
  Forall (fun a => khan.isErr a = false) args ->
  khan.KhanWrap (Some (khan.Khan khan.UnspecifiedKind cause f st)) args =
  ([], Return (Some (khan.Khan khan.InternalKind (khan.Kind khan.InternalKind)
                       (khan.withMessage (default "" (last (omap khan.asStr args)))
                          (default None (last (omap khan.asFields args))))
                       (errors.callers 3)))).
Proof.
  intros Hargs Herr. rewrite KhanWrap_unspecified by done.
  by rewrite newError_last, omap_asErr_none.
Qed.

Lemma X20_KhanWrap_unspecified_witness :
  @khan.KhanWrap scenario.runtime
    (Some (khan.Khan khan.UnspecifiedKind scenario.something None [1]))
    [khan.Str "user"; khan.Str "bob"] =
  ([], Return (Some (khan.Khan khan.InternalKind (khan.Kind khan.InternalKind)
                       (Some {[ "message" := khan.Str "bob" ]}) [100; 200]))).
Proof.
  apply (@X20_KhanWrap_unspecified_drops_error scenario.runtime
           scenario.something None [1] [khan.Str "user"; khan.Str "bob"]).
  - reflexivity.
  - by repeat constructor.
Defined.

(** X21.  Each of the eleven constructors by kind treats its arguments
    as key/value pairs.  With an even number of arguments whose keys are
    strings (none at all, for instance) it returns a [*khanError] of its
    kind, whose cause is the kind itself and whose fields hold the last
    value given for each key.  With an odd number of arguments, such as a
    single message or a single error to wrap, it prints ["Odd"] and the
    error it returns has the kind [InternalKind]: only the cause is the
    constructor's kind. *)
Theorem X21_constructors_by_kind {R : errors.Runtime} :
  Forall (fun c : khan.errorKind *
                  (list khan.any -> list string * outcome (option khan.error)) =>
    (forall args,
       khan.malformed args = false ->
       exists fields,
         c.2 args =
           ([], Return (Some (khan.Khan c.1 (khan.Kind c.1) (Some fields)
                                (errors.callers 3)))) /\
         forall key, fields !! key = khan.lastValue key (khan.pairsOf args)) /\
    (forall args,
       Nat.odd (length args) = true ->
       c.2 args =
         (["Odd"],
          Return (Some (khan.Khan khan.InternalKind (khan.Kind c.1)
                          (Some {[ "fields" := khan.Slice args;
                                   "message" := khan.Str "Passed an odd number of field-args to errors.Wrap()" ]})
                          (errors.callers 3))))))
    khan.constructors.
Proof.
  unfold khan.constructors.
  repeat (apply Forall_cons_2;
          [split; intros args Hargs;
           [exact (KhanWrap_kind_wellformed _ args Hargs)
           |exact (KhanWrap_odd _ args Hargs)]|]).
  apply Forall_nil_2.
Qed.

Lemma X21_constructors_witness :
  (@khan.NotFound scenario.runtime [khan.Str "no such user"]).2 =
  Return (Some (khan.Khan khan.InternalKind (khan.Kind khan.NotFoundKind)
                  (Some {[ "fields" := khan.Slice [khan.Str "no such user"];
                           "message" := khan.Str "Passed an odd number of field-args to errors.Wrap()" ]})
                  [100; 200])).
Proof.
  pose proof (@X21_constructors_by_kind scenario.runtime) as Hall.
  apply Forall_cons in Hall as [[_ Hodd] _].
  exact (f_equal snd (Hodd [khan.Str "no such user"] eq_refl)).
Defined.

(** ** WithMessage *)

Section WithMessage_facts.
Import errbase errutil.
Context {P : Printing}.

Lemma withPrefix_extends a e msg :
  sprintV e = Error e -> extends (Error (withPrefix a e msg)) (Error e).
Proof.
  intros Hv. unfold extends, withPrefix, withPrefix_Error. cbn [Error].
  destruct msg as [|c msg]; [by left|]. right. exists (c :: msg).
  cbn [length Nat.eqb]. by rewrite Hv.
Qed.

Lemma withPrefix_prefix a e msg :
  sprintV e = Error e -> extractPrefix (withPrefix a e msg) e = msg.
Proof.
  intros Hv. destruct msg as [|c msg].
  - by apply extractPrefix_same_message.
  - apply extractPrefix_extension. cbn. by rewrite Hv.
Qed.

End WithMessage_facts.

(** X22.  [WithMessage(nil, msg)] is nil.  On an error that is not nil
    it returns a wrapper whose cause is that error; when [%v] of the
    cause prints the cause's [Error()], the message of the wrapper is the
    cause's message after [msg] and [": "] (the cause's message itself
    when [msg] is empty), and the prefix that the formatter extracts from
    the wrapper is [msg] again, whatever [msg] and the cause's message
    are. *)
Theorem X22_WithMessage_prefix_round_trip {P : errutil.Printing} (a : Z)
    (msg : bytes) :
  errutil.WithMessage a None msg = None /\
  forall e : errbase.error,
    errutil.sprintV e = errbase.Error e ->
    exists w,
      errutil.WithMessage a (Some e) msg = Some w /\
      errbase.UnwrapOnce (Some w) = Some e /\
      errbase.Error w =
        (if (length msg =? 0)%nat then errbase.Error e
         else msg ++ B ": " ++ errbase.Error e) /\
      errbase.extractPrefix w e = msg.
Proof.
  split; [done|]. intros e Hv. eexists. split; [done|]. split; [done|].
  split; [|by apply withPrefix_prefix].
  cbn. unfold errutil.withPrefix_Error. by rewrite Hv.
Qed.

Lemma X22_WithMessage_witness :
  exists w,
    @errutil.WithMessage {| errutil.sprintV := errbase.Error |} 9
      (Some scenario.leaf) (B "read config") = Some w /\
    errbase.UnwrapOnce (Some w) = Some scenario.leaf /\
    errbase.Error w = B "read config: boom" /\
    errbase.extractPrefix w scenario.leaf = B "read config".
Proof.
  apply (proj2 (@X22_WithMessage_prefix_round_trip
                  {| errutil.sprintV := errbase.Error |} 9 (B "read config"))
           scenario.leaf eq_refl).
Defined.

(** X23.  [WithMessage] composes with the formatter.  Take a chain whose
    links all go to the simple fallback (none is a [Formatter], no leaf is
    a [fmt.Formatter], no message holds a newline) and whose messages
    extend one another, and wrap it with a message that is not empty and
    holds no newline; the wrapper is no [Formatter].  Then [%s], and [%v]
    without the flags [+] and [#], with no width and no precision, print
    the message, [": "] and the [Error()] of the chain. *)
Theorem X23_WithMessage_prints_prefixed {M : errbase.Methods}
    {L : errbase.Library} {P : errutil.Printing}
    (a : Z) (e : errbase.error) (msg : bytes) (f : errbase.fmtState) (verb : Z) :
  Forall errbase.simpleLink (errbase.links e) -> errbase.prefixChain e ->
  errutil.sprintV e = errbase.Error e ->
  msg <> [] -> LF ∉ msg ->
  errbase.asFormatter (errutil.withPrefix a e msg) = None ->
  verb = rune "s" \/
  (verb = rune "v" /\ errbase.Flag f (rune "+") = false /\
   errbase.Flag f (rune "#") = false) ->
  (errbase.Width f).2 = false -> (errbase.Precision f).2 = false ->
  errbase.FormatError [] (errutil.WithMessage a (Some e) msg) f verb =
  Return (errbase.fmtWrite f (msg ++ B ": " ++ errbase.Error e)).
Proof.
  intros Hall Hchain Hv Hmsg Hlf HF Hverb Hw Hp.
  cbn [errutil.WithMessage]. unfold errbase.FormatError.
  assert (errbase.Error (errutil.withPrefix a e msg) =
          msg ++ B ": " ++ errbase.Error e) as Herr.
  { cbn. unfold errutil.withPrefix_Error. rewrite Hv.
    by destruct msg. }
  assert (LF ∉ B ": ") as Hsep by (by apply no_newline_check).
  rewrite formatErrorInternal_simple; [|
    |done|done|done].
  - rewrite prefixChain_joined; [by rewrite Herr|].
    cbn [errbase.prefixChain errbase.UnwrapOnce errutil.withPrefix errbase.Cause].
    split; [done|]. by apply withPrefix_extends.
  - change (errbase.links (errutil.withPrefix a e msg))
      with (errutil.withPrefix a e msg :: errbase.links e).
    apply Forall_cons_2; [|done].
    split; [done|]. split; [by right|].
    rewrite Herr. intros [Hin|[Hin|Hin]%elem_of_app]%elem_of_app; [done|done|].
    destruct e as [? ? ? [c|] ? ?];
      apply Forall_cons in Hall as [(_ & _ & Hno) _]; done.
Qed.

Lemma X23_WithMessage_prints_witness :
  @errbase.FormatError scenario.noMethods scenario.library []
    (@errutil.WithMessage {| errutil.sprintV := errbase.Error |} 9
       (Some scenario.outer) (B "load"))
    scenario.plain (rune "s") =
  Return (errbase.fmtWrite scenario.plain (B "load: read config: boom")).
Proof.
  apply (@X23_WithMessage_prints_prefixed scenario.noMethods scenario.library
           {| errutil.sprintV := errbase.Error |} 9 scenario.outer (B "load")
           scenario.plain (rune "s")).
  - exact scenario_simple_chain.
  - cbn. split; [split|]; [done| |by left].
    right. exists (B "read config"). by split.
  - reflexivity.
  - discriminate.
  - by apply no_newline_check.
  - reflexivity.
  - by left.
  - reflexivity.
  - reflexivity.
Defined.

(** ** MakeFormat *)

Lemma MakeFormat_directive (s : errbase.fmtState) (verb : Z) :
  (errbase.MakeFormat s verb).2 = errbase.formatString s verb /\
  ((errbase.MakeFormat s verb).1 = true <->
   verb = rune "v" /\ errbase.noDirectives s = true).
Proof.
  unfold errbase.MakeFormat, errbase.formatString, errbase.noDirectives.
  destruct (errbase.Width s) as [w wp], (errbase.Precision s) as [p pp].
  cbn [fst snd].
  destruct (errbase.Flag s (rune "+")), (errbase.Flag s (rune "-")),
    (errbase.Flag s (rune "#")), (errbase.Flag s (rune " ")),
    (errbase.Flag s (rune "0")), wp, pp; cbn [negb andb fst snd];
    try (split; [done|split; [done|by intros [_ ?]]]).
  repeat case_bool_decide; subst; cbn [fst snd];
    (split; [done|split; [done|by intros [? _]]]).
Qed.

(** X24.  [MakeFormat] always returns the directive that is active in the
    [fmt.State], written out in full: the shortcuts for [%v], [%s] and
    [%d] return the string that the general path builds.  [justV] is true
    exactly for a plain [%v]: the verb [v] with no flag, no width and no
    precision. *)
Theorem X24_MakeFormat_reproduces_directive (s : errbase.fmtState) (verb : Z) :
  (errbase.MakeFormat s verb).2 = errbase.formatString s verb /\
  ((errbase.MakeFormat s verb).1 = true <->
   verb = rune "v" /\ errbase.noDirectives s = true).
Proof. apply MakeFormat_directive. Qed.

(** ** Is along a chain *)

Section Is_chain_facts.
Import errbase errors.
Context {C : Comparison} {I : IsMethod}.


Lemma Is_returns err reference :
  (forall c, c ∈ chain err -> TypeOf c = TypeOf reference ->
             uncomparable c reference = false) ->
  exists found,
    Is err (Some reference) = Return found /\
    (found = true <->
     exists c, c ∈ chain err /\
               (equal (Some c) (Some reference) = Return true \/
                tryDelegateToIsMethod (Some c) (Some reference) = true)).
Proof.
  intros Hsafe. unfold Is. cbn [isNil]. destruct err as [e|].
  - destruct (isFrom_links e reference Hsafe) as (found & -> & Hfound).
    exists found. split; [by destruct found|done].
  - exists false. split; [done|]. split; [done|].
    intros (c & Hc & _). by apply elem_of_nil in Hc.
Qed.

End Is_chain_facts.



(** X30.  What [Is] returns when no comparison panics.  [Is(err, nil)]
    returns true exactly when [err] is nil, and never panics.  For a
    reference that is not nil, when comparing the reference with the links
    of its own dynamic type does not panic, [Is(err, reference)] returns,
    and it returns true exactly when some link of the chain of [err] is
    equal to the reference under [==] or has a method [Is] that accepts
    the reference; [==] holds when the dynamic types and the dynamic values
    are the same, whatever the messages are.  When comparing the outermost
    link with the reference panics, so does [Is]. *)
Theorem X30_Is_by_identity_or_method {C : errors.Comparison} {I : errors.IsMethod} :
  (forall err, errors.Is err None = Return (errbase.isNil err)) /\
  (forall err reference,
     (forall c, c ∈ errbase.chain err ->
                errbase.TypeOf c = errbase.TypeOf reference ->
                errors.uncomparable c reference = false) ->
     exists found,
       errors.Is err (Some reference) = Return found /\
       (found = true <->
        exists c, c ∈ errbase.chain err /\
          ((errbase.TypeOf c = errbase.TypeOf reference /\
            errbase.addr c = errbase.addr reference) \/
           exists isMethod, errors.asIs c = Some isMethod /\
                            isMethod (Some reference) = true))) /\
  (forall e reference,
     errbase.TypeOf e = errbase.TypeOf reference ->
     errors.uncomparable e reference = true ->
     exists why, errors.Is (Some e) (Some reference) = Panic why).
Proof.
  split; [done|]. split.
  - intros err reference Hsafe.
    destruct (Is_returns err reference Hsafe) as (found & Hrun & Hfound).
    exists found. split; [done|]. rewrite Hfound.
    split; intros (c & Hc & Hmatch); exists c; (split; [done|]).
    + destruct Hmatch as [Hsame|Hmethod]; [left|right].
      * rewrite equal_returns in Hsame by (by apply Hsafe).
        injection Hsame as Hsame. by apply bool_decide_eq_true in Hsame.
      * unfold errors.tryDelegateToIsMethod in Hmethod.
        destruct (errors.asIs c) as [m|]; [|discriminate].
        exists m. split; [done|]. by destruct (m (Some reference)).
    + destruct Hmatch as [Hsame|(m & Hm & Haccept)]; [left|right].
      * rewrite equal_returns by (by apply Hsafe). f_equal.
        by apply bool_decide_eq_true_2.
      * unfold errors.tryDelegateToIsMethod. by rewrite Hm, Haccept.
  - intros e reference Htype Hpanic.
    destruct (proj2 (equal_panics e reference) (conj Htype Hpanic)) as [why Hwhy].
    exists why. unfold errors.Is. cbn [errbase.isNil].
    by rewrite (isFrom_panics e (Some reference) why Hwhy).
Qed.

Lemma X30_Is_witness :
  exists found,
    errors.Is (C := scenario.structValues) (I := scenario.noIs)
      (Some scenario.outer) (Some scenario.otherBoom) = Return found /\
    (found = true <->
     exists c, c ∈ errbase.chain (Some scenario.outer) /\
       ((errbase.TypeOf c = errbase.TypeOf scenario.otherBoom /\
         errbase.addr c = errbase.addr scenario.otherBoom) \/
        exists isMethod, errors.asIs (IsMethod := scenario.noIs) c = Some isMethod /\
                         isMethod (Some scenario.otherBoom) = true)).
Proof.
  apply (proj1 (proj2 (@X30_Is_by_identity_or_method scenario.structValues
                         scenario.noIs))
           (Some scenario.outer) scenario.otherBoom).
  intros c Hc Htype. apply bool_decide_eq_false. rewrite Htype. discriminate.
Defined.

(** ** The one-line source under wrapping *)

Section source_wrapping_facts.
Import errbase withstack.
Context {L : Library} {P : Parsing}.

Lemma resolveFrame_ok f : (resolveFrame f).2 = true.
Proof.
  unfold resolveFrame.
  by destruct (getOneLineSourceFromPrintedStack_ok (sprintStackTrace [f]))
    as (path & line & fn & ->).
Qed.

Lemma sourceOf_ok e :
  (sourceOf e).2 = true <->
  exists l f rest, l ∈ links e /\ StackTraceOf l = Some (f :: rest).
Proof.
  rewrite sourceOf_innermostFrames. unfold innermostFrames.
  set (stacks := omap StackTraceOf (links e)).
  assert (forall st, st ∈ List.filter holdsFrame stacks <->
                     exists l, l ∈ links e /\ StackTraceOf l = Some st /\ st <> [])
    as Hstacks.
  { intros st. rewrite list_elem_of_In, List.filter_In, <- list_elem_of_In.
    unfold stacks. rewrite list_elem_of_omap. unfold holdsFrame. split.
    - intros [(l & Hl & Hst) Hne]. exists l. by destruct st.
    - intros (l & Hl & Hst & Hne). split; [by exists l|]. by destruct st. }
  destruct (last (List.filter holdsFrame stacks)) as [st|] eqn:Hlast.
  - assert (st ∈ List.filter holdsFrame stacks) as Hin.
    { apply last_Some in Hlast as [l' ->]. apply elem_of_app. right.
      apply elem_of_cons. by left. }
    apply Hstacks in Hin as (l & Hl & Hst & Hne).
    destruct st as [|f rest]; [done|]. split.
    + intros _. by exists l, f, rest.
    + intros _. apply resolveFrame_ok.
  - apply last_None in Hlast. split; [done|].
    intros (l & f & rest & Hl & Hst).
    assert (f :: rest ∈ List.filter holdsFrame stacks) as Hin.
    { apply Hstacks. by exists l. }
    rewrite Hlast in Hin. by apply elem_of_nil in Hin.
Qed.

Lemma sourceOf_wrapped e : forall l,
  l ∈ links e -> (sourceOf l).2 = true -> sourceOf e = sourceOf l.
Proof.
  induction e as [e IH] using error_chain_ind. intros l Hl Hok.
  destruct e as [a t m [c|] st nl]; cbn [links UnwrapOnce Cause] in Hl;
    apply elem_of_cons in Hl as [->|Hl]; try done.
  - rewrite sourceOf_unfold. cbn [UnwrapOnce Cause].
    rewrite (IH c eq_refl l Hl Hok).
    destruct (sourceOf l) as [[[file line] fn] ok]. cbn in Hok. by subst ok.
  - by apply elem_of_nil in Hl.
Qed.

End source_wrapping_facts.

(** X26.  [GetOneLineSource] finds a source exactly when some link of the
    chain has a captured stack with at least one frame, and never for the
    nil error.  Once an error has a source, every error that wraps it, by
    any number of layers, has the same source: stacks captured further
    out are not looked at. *)
Theorem X26_one_line_source_stable {L : errbase.Library} {P : withstack.Parsing} :
  withstack.GetOneLineSource None = withstack.notFound /\
  (forall e,
     (withstack.GetOneLineSource (Some e)).2 = true <->
     exists l f rest,
       l ∈ errbase.links e /\ errbase.StackTraceOf l = Some (f :: rest)) /\
  (forall e l,
     l ∈ errbase.links e ->
     (withstack.GetOneLineSource (Some l)).2 = true ->
     withstack.GetOneLineSource (Some e) = withstack.GetOneLineSource (Some l)).
Proof.
  split; [done|]. split; [apply sourceOf_ok|apply sourceOf_wrapped].
Qed.

Lemma X26_one_line_source_witness :
  scenario.outer ∈ errbase.links scenario.rewrapped /\
  @withstack.GetOneLineSource scenario.library scenario.parsing
    (Some scenario.rewrapped) =
  @withstack.GetOneLineSource scenario.library scenario.parsing
    (Some scenario.outer).
Proof.
  assert (scenario.outer ∈ errbase.links scenario.rewrapped) as Hin.
  { apply elem_of_cons. right. apply elem_of_cons. by left. }
  split; [exact Hin|].
  apply (proj2 (proj2 (@X26_one_line_source_stable scenario.library
                         scenario.parsing))
           scenario.rewrapped scenario.outer Hin eq_refl).
Defined.

(** ** The detailed rendering of a simple chain *)

Section detailed_simple_chain.
Import errbase.
Context {M : Methods} {L : Library}.

Lemma formatLink_no_stack fns err cause isOutermost withDetail s s' :
  asStackTraceProvider err = None ->
  formatLink fns err cause isOutermost withDetail s = Return s' ->
  exists entry, last (entries s') = Some entry /\ stackTrace entry = None.
Proof.
  intros Hstack. unfold formatLink. cbv zeta.
  destruct (runSpecialCases fns err (isNil cause) (reinit withDetail s))
    as [printDone s1].
  destruct (if printDone then Return (false, s1)
            else defaultDispatch err cause isOutermost s1)
    as [[seenTrace s2]|]; cbn [mbind outcome_bind]; [|done].
  intros [= <-]. exists (collectEntry err s2).
  unfold collectLink. rewrite Hstack.
  assert (entries (withBuf [] (withEntries (entries s2 ++ [collectEntry err s2]) s2))
          = entries s2 ++ [collectEntry err s2]) as Hentries by done.
  split.
  - destruct seenTrace; by rewrite Hentries, last_snoc.
  - unfold collectEntry. by destruct (wantDetail s2), (hasDetail s2).
Qed.

Lemma formatLink_plain l isOutermost withDetail s :
  simpleLink l -> StackTraceOf l = None -> buf s = [] ->
  exists s' entry,
    formatLink [] (Some l) (UnwrapOnce (Some l)) isOutermost withDetail s = Return s' /\
    entries s' = entries s ++ [entry] /\ plainEntry entry l /\
    State s' = State s /\ finalBuf s' = finalBuf s /\ buf s' = [].
Proof.
  intros Hsimple Hstack Hbuf.
  destruct (formatLink_simple l isOutermost withDetail s Hsimple Hbuf)
    as (s' & entry & Hrun & Hentries & Hentry & HS & Hf & Hbuf').
  exists s', entry. repeat split; try done; try apply Hentry.
  destruct (formatLink_no_stack [] (Some l) _ _ _ _ _ Hstack Hrun)
    as (entry' & Hlast & Hnone).
  rewrite Hentries, last_snoc in Hlast. congruence.
Qed.

Lemma formatChain_plain e : forall isOutermost withDetail s,
  Forall simpleLink (links e) ->
  Forall (fun l => StackTraceOf l = None) (links e) -> buf s = [] ->
  exists s' news,
    formatChain [] e isOutermost withDetail s = Return s' /\
    entries s' = entries s ++ rev news /\ Forall2 plainEntry news (links e) /\
    State s' = State s /\ finalBuf s' = finalBuf s /\ buf s' = [].
Proof.
  induction e as [e IH] using error_chain_ind.
  intros isOutermost withDetail s Hall Hstacks Hbuf.
  destruct e as [a t m [c|] st nl]; cbn [links formatChain UnwrapOnce Cause] in *;
    apply Forall_cons in Hall as [Hlink Hall];
    apply Forall_cons in Hstacks as [Hstack Hstacks].
  - destruct (IH c eq_refl false withDetail s Hall Hstacks Hbuf)
      as (s1 & news & -> & Hentries & Hnews & HS & Hf & Hbuf1).
    cbn [mbind outcome_bind].
    destruct (formatLink_plain _ isOutermost withDetail s1 Hlink Hstack Hbuf1)
      as (s' & entry & Hlink' & Hentries' & Hentry & HS' & Hf' & Hbuf').
    cbn [UnwrapOnce Cause] in Hlink'.
    exists s', (entry :: news). split; [done|].
    rewrite Hentries', Hentries, HS', HS, Hf', Hf. cbn [rev].
    rewrite app_assoc. repeat split; try done. by constructor.
  - cbn [mbind outcome_bind].
    destruct (formatLink_plain _ isOutermost withDetail s Hlink Hstack Hbuf)
      as (s' & entry & Hlink' & Hentries' & Hentry & HS' & Hf' & Hbuf').
    cbn [UnwrapOnce Cause] in Hlink'.
    exists s', [entry]. split; [done|].
    repeat split; try done. constructor; [done|constructor].
Qed.

Lemma plainEntry_text entry l :
  plainEntry entry l ->
  entryText entry = linkText l /\ typeString (err entry) = TypeOf l /\
  simpleEntry entry l.
Proof.
  intros [(Herr & Hhead & Hdetails & Hshort) Hstack].
  unfold entryText, linkText. rewrite Hhead, Hdetails, Hstack, Herr.
  repeat split; try done.
  destruct (simpleHead l); cbn [lead app]; by rewrite ?app_nil_r.
Qed.

Lemma imap_plain (F : nat -> formatEntry -> bytes) (G : nat -> error -> bytes)
    news ls :
  (forall k entry l, plainEntry entry l -> F k entry = G k l) ->
  Forall2 plainEntry news ls -> imap F news = imap G ls.
Proof.
  intros Hsame Hall. revert F G Hsame.
  induction Hall as [|entry l news ls Hentry Hall IH]; intros F G Hsame; [done|].
  cbn [imap]. f_equal; [by apply Hsame|].
  apply IH. intros k entry' l' Hplain. by apply Hsame.
Qed.

Lemma detailed_plain outer rest ls :
  Forall2 plainEntry (outer :: rest) ls ->
  detailed outer rest =
  joinWith (B ": ") (List.filter nonEmpty (map simpleHead ls)) ++ numbered ls.
Proof.
  intros Hall. unfold detailed.
  rewrite (summary_simple (outer :: rest) ls)
    by (eapply Forall2_impl; [exact Hall|]; by intros ? ? [? ?]).
  f_equal. unfold numbered. f_equal.
  rewrite (imap_plain (fun k entry => typeItem (k + 1) entry)
             (fun k l => B " (" ++ Itoa (Z.of_nat (k + 1)) ++ B ") " ++ TypeOf l)
             (outer :: rest) ls); [| |done].
  2:{ intros k entry l Hentry. unfold typeItem.
      by destruct (plainEntry_text entry l Hentry) as (_ & -> & _). }
  inversion Hall as [|? l ? ls' Houter Hrest]; subst.
  destruct (plainEntry_text outer l Houter) as (-> & _ & _).
  rewrite <- !app_assoc. do 2 f_equal.
  rewrite (imap_plain (fun k entry => wrapsItem (k + 2) entry)
             (fun k l =>
                (LF :: B "Wraps: (" ++ Itoa (Z.of_nat (k + 2)) ++ B ")") ++ linkText l)
             rest ls'); [done| |done].
  intros k entry l' Hentry. unfold wrapsItem.
  by destruct (plainEntry_text entry l' Hentry) as (-> & _ & _).
Qed.

End detailed_simple_chain.

(** X27.  [%+v] of a chain whose links all go to the simple fallback
    (none is a [Formatter], no leaf is a [fmt.Formatter], no message holds
    a newline), carry no stack trace and have messages that extend one
    another, with no special-case handler registered and no width or
    precision: the
    output is [err.Error()], then the line [(1)] with the prefix of the
    outermost link, a line [Wraps: (N)] with its prefix for each further
    link, N counting up from 2 down to the leaf, which shows its message,
    and the line [Error types:] with [(N) type] for every link from the
    outermost, 1, to the leaf.  A link without a prefix has its label
    alone on the line. *)
Theorem X27_detailed_simple_chain {M : errbase.Methods} {L : errbase.Library}
    (e : errbase.error) (f : errbase.fmtState) :
  Forall errbase.simpleLink (errbase.links e) ->
  Forall (fun l => errbase.StackTraceOf l = None) (errbase.links e) ->
  errbase.prefixChain e ->
  errbase.Flag f (rune "+") = true -> errbase.Flag f (rune "#") = false ->
  (errbase.Width f).2 = false -> (errbase.Precision f).2 = false ->
  errbase.FormatError [] (Some e) f (rune "v") =
  Return (errbase.fmtWrite f (errbase.Error e ++ errbase.numbered (errbase.links e))).
Proof.
  intros Hall Hstacks Hchain Hplus Hhash Hw Hp.
  unfold errbase.FormatError, errbase.formatErrorInternal. cbv zeta.
  rewrite Hplus, Hhash. rewrite bool_decide_eq_true_2 by done.
  cbn [andb negb errbase.formatRecursive].
  destruct (formatChain_plain e true true (errbase.newState f) Hall Hstacks eq_refl)
    as (p & news & -> & Hentries & Hnews & HS & Hf & _).
  cbn [errbase.newState errbase.entries app errbase.State errbase.finalBuf]
    in Hentries, HS, Hf.
  cbn [mbind outcome_bind].
  destruct news as [|outer rest].
  { inversion Hnews as [Hnil|]. by destruct e. }
  rewrite (formatEntries_detailed (Some e) p outer rest Hf Hentries).
  cbn [mbind outcome_bind].
  rewrite (detailed_plain outer rest (errbase.links e) Hnews).
  rewrite prefixChain_joined by done.
  f_equal. unfold errbase.finishDisplay.
  destruct p as [F ? ? ? ? ? ? ? ? ? ? ? ?]. cbn in HS. subst F.
  cbn [errbase.State errbase.withFinalBuf errbase.finalBuf].
  destruct (errbase.Width f) as [w okW], (errbase.Precision f) as [pr okP].
  cbn in Hw, Hp. subst. by rewrite bool_decide_eq_true_2 by done.
Qed.

Lemma scenario_plain_chain :
  Forall (@errbase.simpleLink scenario.noMethods) (errbase.links scenario.middle).
Proof.
  apply Forall_cons_2; [|apply Forall_cons_2; [|apply Forall_nil_2]];
    (split; [done|split; [by left|by apply no_newline_check]]).
Qed.

Lemma X27_detailed_simple_witness :
  @errbase.FormatError scenario.noMethods scenario.library []
    (Some scenario.middle) scenario.plus (rune "v") =
  Return (errbase.fmtWrite scenario.plus
            (B "read config: boom" ++
             (LF :: B "(1) read config") ++
             (LF :: B "Wraps: (2) boom") ++
             (LF :: B "Error types: (1) *errutil.withPrefix (2) *errutil.leafError"))).
Proof.
  apply (@X27_detailed_simple_chain scenario.noMethods scenario.library
           scenario.middle scenario.plus).
  - exact scenario_plain_chain.
  - by repeat constructor.
  - cbn. split; [done|]. right. exists (B "read config"). by split.
  - reflexivity.
  - reflexivity.
  - reflexivity.
  - reflexivity.
Defined.

(** ** The other verbs, widths and precisions *)

Section simple_chain_any_verb.
Import errbase.
Context {M : Methods} {L : Library}.

Lemma finishDisplay_State verb p :
  State (finishDisplay verb p) =
  fmtWrite (State p)
    (if (bool_decide (verb = rune "v") || bool_decide (verb = rune "s")) &&
        negb ((Width (State p)).2 && bool_decide (0 < (Width (State p)).1)) &&
        negb (Precision (State p)).2
     then finalBuf p
     else fmtSprintf (formatString (State p) verb) (finalBuf p)).
Proof.
  unfold finishDisplay.
  pose proof (proj1 (MakeFormat_directive (State p) verb)) as Hformat.
  destruct (MakeFormat (State p) verb) as [justV format]. cbn [snd] in Hformat.
  subst format.
  destruct (Width (State p)) as [w okW], (Precision (State p)) as [pr okP].
  cbn [fst snd].
  destruct (bool_decide (verb = rune "v") || bool_decide (verb = rune "s")),
    (okW && bool_decide (0 < w)), okP; cbn [negb andb orb]; by destruct p.
Qed.

Lemma formatErrorInternal_simple_any e f verb :
  Forall simpleLink (links e) -> prefixChain e ->
  verb ∈ [rune "s"; rune "x"; rune "X"; rune "q"] \/
  (verb = rune "v" /\ Flag f (rune "+") = false /\ Flag f (rune "#") = false) ->
  formatErrorInternal [] (Some e) f verb =
  Return (fmtWrite f
    (if (bool_decide (verb = rune "v") || bool_decide (verb = rune "s")) &&
        negb ((Width f).2 && bool_decide (0 < (Width f).1)) &&
        negb (Precision f).2
     then Error e
     else fmtSprintf (formatString f verb) (Error e))).
Proof.
  intros Hall Hchain Hverb. unfold formatErrorInternal. cbv zeta.
  destruct (formatChain_simple e true false (newState f) Hall eq_refl)
    as (p & news & Hrun & Hentries & Hnews & HS & Hf & _).
  cbn [newState entries app State finalBuf] in Hentries, HS, Hf.
  assert (bool_decide (verb = rune "v") && Flag f (rune "+") &&
          negb (Flag f (rune "#")) = false) as ->.
  { destruct Hverb as [Hverb|(-> & -> & _)]; [|by rewrite andb_false_r].
    rewrite bool_decide_eq_false_2; [done|]. intros ->.
    repeat (apply elem_of_cons in Hverb as [?|Hverb]; [done|]).
    by apply elem_of_nil in Hverb. }
  assert (bool_decide (verb = rune "v") && Flag f (rune "#") = false) as ->.
  { destruct Hverb as [Hverb|(-> & _ & ->)]; [|by rewrite andb_false_r].
    rewrite bool_decide_eq_false_2; [done|]. intros ->.
    repeat (apply elem_of_cons in Hverb as [?|Hverb]; [done|]).
    by apply elem_of_nil in Hverb. }
  assert (bool_decide (verb = rune "s") ||
          bool_decide (verb = rune "v") && negb (Flag f (rune "#")) ||
          (bool_decide (verb = rune "x") || bool_decide (verb = rune "X") ||
           bool_decide (verb = rune "q")) = true) as ->.
  { destruct Hverb as [Hverb|(-> & _ & ->)]; [|done].
    repeat (apply elem_of_cons in Hverb as [->|Hverb]; [done|]).
    by apply elem_of_nil in Hverb. }
  cbn [formatRecursive]. rewrite Hrun. cbn [mbind outcome_bind].
  rewrite formatSingleLineOutput_summary by done. cbn [mbind outcome_bind].
  rewrite Hentries, rev_involutive, (summary_simple news (links e)) by done.
  rewrite prefixChain_joined by done.
  rewrite finishDisplay_State. f_equal.
  destruct p as [F ? ? ? ? ? ? ? ? ? ? ? ?]. cbn in HS. by subst F.
Qed.

End simple_chain_any_verb.

(** X28.  The one-line rendering under every supported directive.  For a
    chain whose links all go to the simple fallback (none is a
    [Formatter], no leaf is a [fmt.Formatter], no message holds a newline)
    and whose messages extend one another, with no special-case handler
    registered:
    [%s] and [%v] (without [+] and [#]) with no precision and no positive
    width write [err.Error()] as it is; with a precision or a positive
    width, and always for [%x], [%X] and [%q], what is written is
    [fmt.Sprintf] of [err.Error()] under the directive that was active,
    rebuilt with its flags, width, precision and verb. *)
Theorem X28_simple_chain_every_directive {M : errbase.Methods}
    {L : errbase.Library} (e : errbase.error) (f : errbase.fmtState) (verb : Z) :
  Forall errbase.simpleLink (errbase.links e) -> errbase.prefixChain e ->
  verb ∈ [rune "s"; rune "x"; rune "X"; rune "q"] \/
  (verb = rune "v" /\ errbase.Flag f (rune "+") = false /\
   errbase.Flag f (rune "#") = false) ->
  errbase.FormatError [] (Some e) f verb =
  Return (errbase.fmtWrite f
    (if (bool_decide (verb = rune "v") || bool_decide (verb = rune "s")) &&
        negb ((errbase.Width f).2 && bool_decide (0 < (errbase.Width f).1)) &&
        negb (errbase.Precision f).2
     then errbase.Error e
     else errbase.fmtSprintf (errbase.formatString f verb) (errbase.Error e))).
Proof. apply formatErrorInternal_simple_any. Qed.

Lemma X28_simple_chain_witness :
  @errbase.FormatError scenario.noMethods scenario.echoing
    [] (Some scenario.outer) scenario.padded (rune "q") =
  Return (errbase.fmtWrite scenario.padded (B "%-30q<read config: boom>")).
Proof.
  etransitivity;
    [apply (@X28_simple_chain_every_directive scenario.noMethods scenario.echoing
              scenario.outer scenario.padded (rune "q"))|reflexivity].
  - exact scenario_simple_chain.
  - cbn. split; [split|]; [done| |by left].
    right. exists (B "read config"). by split.
  - left. apply elem_of_cons. right. apply elem_of_cons. right.
    apply elem_of_cons. right. apply elem_of_cons. by left.
Defined.

(** ** The innermost stack trace *)

Section innermost_stack.
Import errbase.
Context {M : Methods}.

Lemma collectLink_no_stack_lastStack err seenTrace s :
  asStackTraceProvider err = None ->
  lastStack (collectLink err seenTrace s) = lastStack s.
Proof. intros Hstack. unfold collectLink. rewrite Hstack. by destruct seenTrace. Qed.

Lemma formatLink_simple_run l isOutermost withDetail s :
  simpleLink l -> buf s = [] ->
  exists s1,
    formatLink [] (Some l) (UnwrapOnce (Some l)) isOutermost withDetail s =
      Return (collectLink (Some l) false s1) /\
    lastStack s1 = lastStack s.
Proof.
  intros Hsimple Hbuf. unfold formatLink. cbv zeta. cbn [runSpecialCases].
  destruct (defaultDispatch_simple l isOutermost (reinit withDetail s) Hsimple)
    as (s1 & -> & _ & _ & _ & (_ & _ & _ & Hlast & _));
    [by destruct s|done|done|].
  cbn [mbind outcome_bind]. exists s1. split; [done|]. by rewrite Hlast.
Qed.

Lemma formatChain_plain_lastStack e : forall isOutermost withDetail s s',
  Forall simpleLink (links e) ->
  Forall (fun l => StackTraceOf l = None) (links e) -> buf s = [] ->
  formatChain [] e isOutermost withDetail s = Return s' ->
  lastStack s' = lastStack s.
Proof.
  induction e as [e IH] using error_chain_ind.
  intros isOutermost withDetail s s' Hall Hstacks Hbuf.
  destruct e as [a t m [c|] st nl]; cbn [links formatChain UnwrapOnce Cause] in *;
    apply Forall_cons in Hall as [Hlink Hall];
    apply Forall_cons in Hstacks as [Hstack Hstacks].
  - destruct (formatChain_simple c false withDetail s Hall Hbuf)
      as (s1 & news & Hrun & _ & _ & _ & _ & Hbuf1).
    rewrite Hrun. cbn [mbind outcome_bind].
    destruct (formatLink_simple_run _ isOutermost withDetail s1 Hlink Hbuf1)
      as (s2 & Hlink' & Hlast).
    cbn [UnwrapOnce Cause] in Hlink'. rewrite Hlink'. intros [= <-].
    rewrite collectLink_no_stack_lastStack by done.
    rewrite Hlast. by apply (IH c eq_refl false withDetail s s1).
  - cbn [mbind outcome_bind].
    destruct (formatLink_simple_run _ isOutermost withDetail s Hlink Hbuf)
      as (s2 & Hlink' & Hlast).
    cbn [UnwrapOnce Cause] in Hlink'. rewrite Hlink'. intros [= <-].
    by rewrite collectLink_no_stack_lastStack.
Qed.

Lemma collectLink_whole_stack l st s :
  StackTraceOf l = Some st -> st <> [] -> lastStack s = [] ->
  exists entry,
    entries (collectLink (Some l) false s) = entries s ++ [entry] /\
    stackTrace entry = Some st /\ elidedStackTrace entry = false /\
    lastStack (collectLink (Some l) false s) = st.
Proof.
  intros Hstack Hframes Hlast. unfold collectLink.
  cbn [asStackTraceProvider returnsNilSlice].
  rewrite Hstack, Hlast. unfold ElideSharedStackTraceSuffix.
  cbn [length Nat.eqb].
  replace (length st =? 0)%nat with false by (by destruct st).
  rewrite andb_false_r. by eexists.
Qed.

End innermost_stack.

(** X29.  The innermost stack trace is kept whole.  For a chain whose
    links all go to the simple fallback (none is a [Formatter], no leaf is
    a [fmt.Formatter], no message holds a newline), rendered from a fresh
    state with no special-case handler registered: when the outermost link
    carries a stack trace of at least one frame and no link below it
    carries one,
    the entry collected for it holds that trace in full and is not flagged
    as elided, and the trace becomes the one that the traces of the links
    further out are compared with. *)
Theorem X29_innermost_stack_kept_whole {M : errbase.Methods} (e : errbase.error)
    (st : errbase.StackTrace) (isOutermost withDetail : bool) (f : errbase.fmtState) :
  Forall errbase.simpleLink (errbase.links e) ->
  errbase.StackTraceOf e = Some st -> st <> [] ->
  Forall (fun l => errbase.StackTraceOf l = None) (errbase.chain (errbase.Cause e)) ->
  exists s' entry,
    errbase.formatRecursive [] (Some e) isOutermost withDetail (errbase.newState f) =
      Return s' /\
    last (errbase.entries s') = Some entry /\
    errbase.err entry = Some e /\
    errbase.stackTrace entry = Some st /\
    errbase.elidedStackTrace entry = false /\
    errbase.lastStack s' = st.
Proof.
  intros Hall Hstack Hframes Hinner. cbn [errbase.formatRecursive].
  destruct e as [a t m cause st' nl]. cbn [errbase.StackTraceOf errbase.Cause] in *.
  subst st'.
  assert (exists s1,
            match cause with
            | Some c => errbase.formatChain [] c false withDetail (errbase.newState f)
            | None => Return (errbase.newState f)
            end = Return s1 /\ errbase.lastStack s1 = [] /\ errbase.buf s1 = [])
    as (s1 & Hrun & Hlast & Hbuf).
  { destruct cause as [c|]; [|by eexists].
    cbn [errbase.links errbase.UnwrapOnce errbase.Cause errbase.chain] in *.
    apply Forall_cons in Hall as [_ Hall].
    destruct (formatChain_simple c false withDetail (errbase.newState f) Hall eq_refl)
      as (s1 & news & Hrun & _ & _ & _ & _ & Hbuf1).
    exists s1. split; [done|]. split; [|done].
    by rewrite (formatChain_plain_lastStack c false withDetail
                  (errbase.newState f) s1 Hall Hinner eq_refl Hrun). }
  cbn [errbase.formatChain errbase.UnwrapOnce errbase.Cause].
  rewrite Hrun. cbn [mbind outcome_bind].
  set (e := {| errbase.addr := a; errbase.TypeOf := t; errbase.Error := m;
               errbase.Cause := cause; errbase.StackTraceOf := Some st;
               errbase.nilTrace := nl |}) in *.
  assert (errbase.simpleLink e) as Hlink.
  { destruct cause; cbn [errbase.links errbase.UnwrapOnce errbase.Cause] in Hall;
      by apply Forall_cons in Hall as [? _]. }
  destruct (formatLink_simple_run e isOutermost withDetail s1 Hlink Hbuf)
    as (s2 & Hlink' & Hlast2).
  cbn [errbase.UnwrapOnce] in Hlink'. change (errbase.Cause e) with cause in Hlink'.
  rewrite Hlink'.
  destruct (collectLink_whole_stack e st s2 eq_refl Hframes)
    as (entry & Hentries & Htrace & Helided & Hlast'); [congruence|].
  destruct (collectLink_entry (Some e) false s2)
    as (entry' & Hentries' & _ & _ & Herr & _).
  exists (errbase.collectLink (Some e) false s2), entry.
  rewrite Hentries, last_snoc. repeat split; try done.
  rewrite Hentries in Hentries'. apply app_inj_tail in Hentries' as [_ ->]. done.
Qed.

Lemma X29_innermost_stack_witness :
  exists s' entry,
    @errbase.formatRecursive scenario.noMethods [] (Some scenario.outer) true true
      (errbase.newState scenario.plus) = Return s' /\
    last (errbase.entries s') = Some entry /\
    errbase.err entry = Some scenario.outer /\
    errbase.stackTrace entry = Some [10; 20; 30] /\
    errbase.elidedStackTrace entry = false /\
    errbase.lastStack s' = [10; 20; 30].
Proof.
  apply (@X29_innermost_stack_kept_whole scenario.noMethods scenario.outer
           [10; 20; 30] true true scenario.plus).
  - exact scenario_simple_chain.
  - reflexivity.
  - discriminate.
  - change (Forall (fun l => errbase.StackTraceOf l = None)
              [scenario.middle; scenario.leaf]).
    by repeat constructor.
Defined.
